(** * ApplicationAccess TypeScript client: marshalling and error translation

    A shallow embedding of [AccessManagerClientBase] and [AccessManagerClient]
    (application-access-client/access-manager-client-base.ts and
    access-manager-client.ts) together with the models and errors they use.

    Conventions of the embedding.
    - A value typed [any] in the source (a response body and everything read
      out of it) is a [JsValue]: what [JSON.parse] can produce, plus
      [undefined].  A number is held by its value when that is an integer;
      fractions, [NaN] and the infinities are not held.  The safe integers
      are printed in plain decimal; how a larger one is printed is left to
      the platform.  A string is held as the bytes of its UTF-8 encoding.
    - A function that can throw returns an [Outcome].
    - An [async] method is a [Prog]: a tree whose nodes are the awaited calls
      of the axios shim.
    - Objects that are shared by reference (the request configuration and its
      headers, the elements of a [Set]) live in an explicit store. *)

From Stdlib Require Import ZArith Ascii String List Lia DecimalString.
From stdpp Require Import base option list strings gmap.

Set Warnings "-register-all".

Open Scope string_scope.
Open Scope list_scope.
Open Scope Z_scope.
Open Scope stdpp_scope.

(** ** JavaScript values *)

(** The own properties of an object are kept in their enumeration order, with
    pairwise distinct keys. *)
Inductive JsValue : Type :=
| JUndefined
| JNull
| JBool (b : bool)
| JNum (n : Z)
| JStr (s : string)
| JArr (items : list JsValue)
| JObj (props : list (string * JsValue)).

(** [typeof v]. *)
Definition typeof (v : JsValue) : string :=
  match v with
  | JUndefined => "undefined"
  | JNull | JArr _ | JObj _ => "object"
  | JBool _ => "boolean"
  | JNum _ => "number"
  | JStr _ => "string"
  end.

(** [AccessManagerClientBase.javaScriptObjectType]. *)
Definition javaScriptObjectType : string := "object".

Fixpoint ownProperty (props : list (string * JsValue)) (name : string) : option JsValue :=
  match props with
  | [] => None
  | (k, v) :: rest => if String.eqb k name then Some v else ownProperty rest name
  end.

(** The property names the client reads from response data.  None of them is
    [length], an array index or a name inherited from a prototype, so only a
    plain object can carry one of them. *)
Inductive PropertyName : Type :=
| P_error | P_code | P_message | P_target | P_attributes | P_innerError
| P_name | P_value
| P_user | P_group | P_toGroup | P_fromGroup
| P_applicationComponent | P_accessLevel | P_entityType | P_entity.

Definition key (p : PropertyName) : string :=
  match p with
  | P_error => "error" | P_code => "code" | P_message => "message"
  | P_target => "target" | P_attributes => "attributes" | P_innerError => "innerError"
  | P_name => "name" | P_value => "value"
  | P_user => "user" | P_group => "group" | P_toGroup => "toGroup" | P_fromGroup => "fromGroup"
  | P_applicationComponent => "applicationComponent" | P_accessLevel => "accessLevel"
  | P_entityType => "entityType" | P_entity => "entity"
  end.

(** ** Errors and outcomes *)

(** [AxiosResponse]: the fields the client reads. *)
Record AxiosResponse : Type := { response_status : Z; response_data : JsValue }.

(** [AxiosError]: the value a rejected shim call is caught as.  [error_status]
    and [error_response] are [None] when the property is [undefined]. *)
Record AxiosError : Type := {
  error_status : option Z;
  error_response : option AxiosResponse;
  error_message : string
}.

(** What a [throw] can carry.  [TypeError] is raised by the run time itself
    (a property read from [null] or [undefined], a call of something that is
    not a function, [new URL] on a string that does not parse).  [Error],
    [NotFoundError] and [ElementNotFoundError] are constructed by the client;
    [ElementNotFoundError] extends [NotFoundError] and keeps its value in the
    inherited [resourceId] field. *)
Inductive JsError : Type :=
| TypeError
| Rejection (e : AxiosError)
| Error (message : string) (cause : option JsError)
| NotFoundError (message : string) (resourceId : JsValue)
| ElementNotFoundError (message : string) (elementType : string) (elementValue : JsValue).

Inductive Outcome (A : Type) : Type :=
| Returned (a : A)
| Threw (e : JsError).
Arguments Returned {A} a.
Arguments Threw {A} e.

#[global] Instance Outcome_ret : MRet Outcome := fun _ a => Returned a.
#[global] Instance Outcome_bind : MBind Outcome := fun _ _ f m =>
  match m with
  | Returned a => f a
  | Threw e => Threw e
  end.

(** ** Property access *)

(** [v.hasOwnProperty(p)].  The method is inherited from [Object.prototype];
    an object with an own property of that name shadows it with a value that
    cannot be called. *)
Definition hasOwnProperty (v : JsValue) (p : PropertyName) : Outcome bool :=
  match v with
  | JUndefined | JNull => Threw TypeError
  | JBool _ | JNum _ | JStr _ | JArr _ => Returned false
  | JObj props =>
      match ownProperty props "hasOwnProperty" with
      | Some _ => Threw TypeError
      | None => Returned (bool_decide (is_Some (ownProperty props (key p))))
      end
  end.

(** [v.p] and [v["p"]]. *)
Definition getProperty (v : JsValue) (p : PropertyName) : Outcome JsValue :=
  match v with
  | JUndefined | JNull => Threw TypeError
  | JBool _ | JNum _ | JStr _ | JArr _ => Returned JUndefined
  | JObj props => Returned (default JUndefined (ownProperty props (key p)))
  end.

(** ** The platform *)

(** A [URL] object: the client reads only [href] (and [toString()], which
    returns it). *)
Record URL : Type := { href : string }.

(** What the client takes from the JavaScript platform without the embedding
    fixing it. *)
Class JsHost : Type := {
  (** [new URL(s)]: the parsed and serialised URL, [None] when the
      constructor throws its [TypeError]. *)
  URL_new : string -> option URL;
  (** The elements [a[0], a[1], ...] that a loop
      [for (i = 0; i < a.length; i++)] visits when [a] is a string or an
      object that is not an array, where [a.length] is coerced to a number. *)
  arrayLikeItems : JsValue -> list JsValue;
  (** The text [Number.prototype.toString] gives, and [JSON.stringify]
      writes, for a number whose value is an integer beyond the safe
      integers: the shortest digits that tell the number from its
      neighbours, in exponent form from [1e21]. *)
  numberText : Z -> string
}.

(** ** Conversion to strings *)

Definition string_of_Z (n : Z) : string := NilZero.string_of_int (Z.to_int n).

Definition string_of_bool (b : bool) : string := if b then "true" else "false".

(** [Number.MAX_SAFE_INTEGER], 2^53 - 1. *)
Definition MAX_SAFE_INTEGER : Z := 9007199254740991.

(** [Number::toString] of the number whose value is the integer [n]: up to
    [MAX_SAFE_INTEGER] in magnitude every integer is a number, and is
    printed with all its decimal digits. *)
Definition Number_toString `{JsHost} (n : Z) : string :=
  if Z.abs n <=? MAX_SAFE_INTEGER then string_of_Z n else numberText n.

(** [Array.prototype.join] with a comma, given the conversion of an element:
    [null] and [undefined] elements give the empty string. *)
Definition joinWith (convert : JsValue -> Outcome string) : list JsValue -> Outcome string :=
  fix join (l : list JsValue) : Outcome string :=
    match l with
    | [] => Returned EmptyString
    | x :: rest =>
        sx ← (match x with
              | JUndefined | JNull => Returned EmptyString
              | _ => convert x
              end);
        match rest with
        | [] => Returned sx
        | _ :: _ => sr ← join rest; Returned (sx +:+ "," +:+ sr)
        end
    end.

(** [ToString], as applied by template literals and by the [Error]
    constructor.  An array is joined with commas.  An object answers with the
    inherited [Object.prototype.toString] unless an own [toString] property
    shadows it, in which case no primitive is found. *)
Fixpoint ToString `{JsHost} (v : JsValue) : Outcome string :=
  match v with
  | JUndefined => Returned "undefined"
  | JNull => Returned "null"
  | JBool b => Returned (string_of_bool b)
  | JNum n => Returned (Number_toString n)
  | JStr s => Returned s
  | JArr items => joinWith ToString items
  | JObj props =>
      match ownProperty props "toString" with
      | Some _ => Threw TypeError
      | None => Returned "[object Object]"
      end
  end.

Definition hexLower (n : N) : ascii :=
  ascii_of_N (if (n <? 10)%N then 48 + n else 87 + n)%N.

(** The escapes of [JSON.stringify] for one code unit. *)
Definition quoteJSONChar (c : ascii) : string :=
  let n := N_of_ascii c in
  if (n =? 34)%N then String "\"%char (String c EmptyString)
  else if (n =? 92)%N then "\\"
  else if (n =? 8)%N then "\b"
  else if (n =? 12)%N then "\f"
  else if (n =? 10)%N then "\n"
  else if (n =? 13)%N then "\r"
  else if (n =? 9)%N then "\t"
  else if (n <? 32)%N then
    "\u00" +:+ String (hexLower (n / 16)) (String (hexLower (n mod 16)) EmptyString)
  else String c EmptyString.

Fixpoint quoteJSONBody (s : string) : string :=
  match s with
  | EmptyString => EmptyString
  | String c rest => quoteJSONChar c +:+ quoteJSONBody rest
  end.

Definition quoteJSON (s : string) : string :=
  String (ascii_of_N 34) (quoteJSONBody s) +:+ String (ascii_of_N 34) EmptyString.

(** The elements of an array as [JSON.stringify] writes them, given the
    serialisation of a value: an [undefined] element is written [null]. *)
Definition stringifyElements (stringify : JsValue -> option string) : list JsValue -> string :=
  fix elements (l : list JsValue) : string :=
    match l with
    | [] => EmptyString
    | x :: rest =>
        default "null" (stringify x) +:+
        match rest with
        | [] => EmptyString
        | _ :: _ => "," +:+ elements rest
        end
    end.

(** The members of an object as [JSON.stringify] writes them: a property
    whose value is [undefined] is left out. *)
Definition stringifyMembers (stringify : JsValue -> option string)
    : bool -> list (string * JsValue) -> string :=
  fix members (first : bool) (l : list (string * JsValue)) : string :=
    match l with
    | [] => EmptyString
    | (k, x) :: rest =>
        match stringify x with
        | None => members first rest
        | Some sx =>
            (if first then EmptyString else ",") +:+ quoteJSON k +:+ ":" +:+ sx +:+
            members false rest
        end
    end.

(** [JSON.stringify(v)] without indentation; [None] is the result
    [undefined]. *)
Fixpoint JSON_stringify `{JsHost} (v : JsValue) : option string :=
  match v with
  | JUndefined => None
  | JNull => Some "null"
  | JBool b => Some (string_of_bool b)
  | JNum n => Some (Number_toString n)
  | JStr s => Some (quoteJSON s)
  | JArr items => Some ("[" +:+ stringifyElements JSON_stringify items +:+ "]")
  | JObj props => Some ("{" +:+ stringifyMembers JSON_stringify true props +:+ "}")
  end.

(** ** Percent-encoding *)

Definition hexUpper (n : N) : ascii :=
  ascii_of_N (if (n <? 10)%N then 48 + n else 55 + n)%N.

Definition hexValue (c : ascii) : option N :=
  let n := N_of_ascii c in
  if ((48 <=? n) && (n <=? 57))%N then Some (n - 48)%N
  else if ((65 <=? n) && (n <=? 70))%N then Some (n - 55)%N
  else if ((97 <=? n) && (n <=? 102))%N then Some (n - 87)%N
  else None.

(** The characters [encodeURIComponent] leaves alone:
    [A-Z a-z 0-9 - _ . ! ~ * ' ( )]. *)
Definition isUnreserved (c : ascii) : bool :=
  let n := N_of_ascii c in
  (((48 <=? n) && (n <=? 57)) || ((65 <=? n) && (n <=? 90)) || ((97 <=? n) && (n <=? 122))
   || (n =? 45) || (n =? 95) || (n =? 46) || (n =? 33) || (n =? 126)
   || (n =? 42) || (n =? 39) || (n =? 40) || (n =? 41))%N.

Definition percentEncode (c : ascii) : string :=
  let n := N_of_ascii c in
  String "%" (String (hexUpper (n / 16)) (String (hexUpper (n mod 16)) EmptyString)).

(** [encodeURIComponent(s)]: every byte of the UTF-8 encoding that is not
    unreserved is written [%XX].  The strings on which the built-in throws
    its [URIError], those with a lone surrogate, have no UTF-8 encoding: they
    are none of the strings [isWellFormed] accepts, and for the bytes it
    refuses this function stands for no call of the built-in. *)
Fixpoint encodeURIComponent (s : string) : string :=
  match s with
  | EmptyString => EmptyString
  | String c rest =>
      if isUnreserved c then String c (encodeURIComponent rest)
      else percentEncode c +:+ encodeURIComponent rest
  end.

(** [decodeURIComponent(s)]: [None] is the [URIError] of a malformed escape.
    The decoded bytes are not checked to be UTF-8. *)
Fixpoint decodeURIComponent (s : string) : option string :=
  match s with
  | EmptyString => Some EmptyString
  | String c rest =>
      if Ascii.eqb c "%" then
        match rest with
        | String h (String l rest') =>
            match hexValue h, hexValue l with
            | Some a, Some b =>
                String (ascii_of_N (16 * a + b)) <$> decodeURIComponent rest'
            | _, _ => None
            end
        | _ => None
        end
      else String c <$> decodeURIComponent rest
  end.

(** ** Models *)

(** Modelled from the spec: models/name-value-pair.ts is not among the
    sources; an attribute of an error is a name/value pair, built by
    [new NameValuePair(name, value)] and read through [Name] and [Value]. *)
Record NameValuePair : Type := { Name : JsValue; Value : JsValue }.

(** [HttpErrorResponse].  The constructor stores its arguments unchecked, so
    each field holds whatever the response body held; [target] and
    [innerError] are parameters with the default [null], see [orNull]. *)
Record HttpErrorResponse : Type := {
  Code : JsValue;
  Message : JsValue;
  Target : JsValue;
  Attributes : list NameValuePair;
  InnerError : JsValue
}.

(** An argument for a parameter whose default is [null]: [undefined] takes
    the default. *)
Definition orNull (v : JsValue) : JsValue :=
  match v with
  | JUndefined => JNull
  | _ => v
  end.

(** [EntityTypeAndEntity]. *)
Record EntityTypeAndEntity : Type := { EntityType : JsValue; Entity : JsValue }.

(** [ApplicationComponentAndAccessLevel<TComponent, TAccess>]. *)
Record ApplicationComponentAndAccessLevel (TComponent TAccess : Type) : Type := {
  ApplicationComponent : TComponent;
  AccessLevel : TAccess
}.
Arguments ApplicationComponent {TComponent TAccess} _.
Arguments AccessLevel {TComponent TAccess} _.

(** Modelled from the spec: http-request-method.ts is not among the sources;
    the three methods the request core names. *)
Inductive HttpRequestMethod : Type := Get | Post | Delete.

(** [IUniqueStringifier<T>].  [FromString] is handed a value read from a
    response body. *)
Class IUniqueStringifier (T : Type) : Type := {
  Stringifier_ToString : T -> string;
  Stringifier_FromString : JsValue -> T
}.

(** Modelled from the spec: string-unique-stringifier.ts is not among the
    sources; the built-in stringifier is the identity conversion on strings.
    A body value that is not a string is outside its domain and is read as
    the empty string. *)
Definition StringUniqueStringifier : IUniqueStringifier string := {|
  Stringifier_ToString s := s;
  Stringifier_FromString v := match v with JStr s => s | _ => EmptyString end
|}.

(** ** Decoding an error body *)

(** [throw new C(...)], where evaluating the constructor may itself throw. *)
Definition throw {A : Type} (e : Outcome JsError) : Outcome A :=
  match e with
  | Returned err => Threw err
  | Threw err => Threw err
  end.

(** The [message] an [Error] constructor stores: none of its own for
    [undefined] (the inherited empty string shows), [ToString] otherwise. *)
Definition errorMessage `{JsHost} (message : JsValue) : Outcome string :=
  match message with
  | JUndefined => Returned EmptyString
  | _ => ToString message
  end.

Definition new_NotFoundError `{JsHost} (message resourceId : JsValue) : Outcome JsError :=
  m ← errorMessage message; mret (NotFoundError m resourceId).

Definition new_ElementNotFoundError `{JsHost}
    (message : JsValue) (elementType : string) (elementValue : JsValue) : Outcome JsError :=
  m ← errorMessage message; mret (ElementNotFoundError m elementType elementValue).

(** [v === s] for a string literal [s]. *)
Definition strictEqualsString (v : JsValue) (s : string) : bool :=
  match v with
  | JStr t => String.eqb t s
  | _ => false
  end.

Fixpoint mapOutcome {A B : Type} (f : A -> Outcome B) (l : list A) : Outcome (list B) :=
  match l with
  | [] => Returned []
  | x :: rest => y ← f x; ys ← mapOutcome f rest; mret (y :: ys)
  end.

(** The text a template literal gives for a member of the
    [HttpRequestMethod] enum, whose declaration is not among the sources. *)
Class HttpRequestMethodNames : Type :=
  HttpRequestMethod_text : HttpRequestMethod -> string.

Section AccessManagerClient.

Context `{host : JsHost}.
Context `{names : HttpRequestMethodNames}.

(** The elements a loop [for (i = 0; i < a.length; i++)] visits. *)
Definition loopItems (a : JsValue) : Outcome (list JsValue) :=
  match a with
  | JUndefined | JNull => Threw TypeError
  | JBool _ | JNum _ => Returned []
  | JArr items => Returned items
  | JStr _ | JObj _ => Returned (arrayLikeItems a)
  end.

(** The body of the loop over [error["attributes"]]. *)
Definition pushAttribute (item : JsValue) : Outcome NameValuePair :=
  n ← getProperty item P_name;
  v ← getProperty item P_value;
  mret {| Name := n; Value := v |}.

(** [DeserializeResponseDataToHttpErrorResponse]; [Returned None] is the
    result [null]. *)
Definition DeserializeResponseDataToHttpErrorResponse
    (responseData : JsValue) : Outcome (option HttpErrorResponse) :=
  match responseData with
  | JUndefined | JNull => Returned None
  | _ =>
      hasError ← hasOwnProperty responseData P_error;
      if negb hasError then Returned None else
      error ← getProperty responseData P_error;
      if negb (String.eqb (typeof error) javaScriptObjectType) then Returned None else
      hasCode ← hasOwnProperty error P_code;
      if negb hasCode then Returned None else
      hasMessage ← hasOwnProperty error P_message;
      if negb hasMessage then Returned None else
      code ← getProperty error P_code;
      message ← getProperty error P_message;
      hasTarget ← hasOwnProperty error P_target;
      target ← (if (hasTarget : bool) then getProperty error P_target else Returned JNull);
      hasAttributes ← hasOwnProperty error P_attributes;
      attributes ←
        (if (hasAttributes : bool) then
           attributesArray ← getProperty error P_attributes;
           items ← loopItems attributesArray;
           mapOutcome pushAttribute items
         else Returned []);
      hasInnerError ← hasOwnProperty error P_innerError;
      innerError ← (if (hasInnerError : bool) then getProperty error P_innerError else Returned JNull);
      Returned (Some {| Code := code; Message := message; Target := orNull target;
                        Attributes := attributes; InnerError := orNull innerError |})
  end.

(** [GetHttpErrorResponseAttributeValue]. *)
Fixpoint GetHttpErrorResponseAttributeValue_from
    (attributes : list NameValuePair) (attributeName : string) : JsValue :=
  match attributes with
  | [] => JStr EmptyString
  | a :: rest =>
      if strictEqualsString (Name a) attributeName then Value a
      else GetHttpErrorResponseAttributeValue_from rest attributeName
  end.

Definition GetHttpErrorResponseAttributeValue
    (httpErrorResponse : HttpErrorResponse) (attributeName : string) : JsValue :=
  GetHttpErrorResponseAttributeValue_from (Attributes httpErrorResponse) attributeName.

(** The function registered for status 404 by
    [InitializeStatusCodeToErrorThrowingFunctionMap]. *)
Definition throwNotFound (httpErrorResponse : HttpErrorResponse) : Outcome unit :=
  if strictEqualsString (Code httpErrorResponse) "UserNotFoundException" then
    let user := GetHttpErrorResponseAttributeValue httpErrorResponse "User" in
    throw (new_ElementNotFoundError (Message httpErrorResponse) "User" user)
  else if strictEqualsString (Code httpErrorResponse) "GroupNotFoundException" then
    let group := GetHttpErrorResponseAttributeValue httpErrorResponse "Group" in
    throw (new_ElementNotFoundError (Message httpErrorResponse) "Group" group)
  else if strictEqualsString (Code httpErrorResponse) "EntityTypeNotFoundException" then
    let entityType := GetHttpErrorResponseAttributeValue httpErrorResponse "EntityType" in
    throw (new_ElementNotFoundError (Message httpErrorResponse) "EntityType" entityType)
  else if strictEqualsString (Code httpErrorResponse) "EntityNotFoundException" then
    let entity := GetHttpErrorResponseAttributeValue httpErrorResponse "Entity" in
    throw (new_ElementNotFoundError (Message httpErrorResponse) "Entity" entity)
  else
    let resourceId := GetHttpErrorResponseAttributeValue httpErrorResponse "ResourceId" in
    throw (new_NotFoundError (Message httpErrorResponse) resourceId).

Definition InitializeStatusCodeToErrorThrowingFunctionMap
    : gmap Z (HttpErrorResponse -> Outcome unit) :=
  <[404 := throwNotFound]> (∅ : gmap Z (HttpErrorResponse -> Outcome unit)).

(** ** The store of shared objects *)

(** An [AxiosRequestConfig] object: [config_headers] is [None] while the
    [headers] property is [undefined], otherwise the reference of the headers
    object.  No other property is read or written by the client. *)
Record AxiosRequestConfig : Type := { config_headers : option positive }.

(** The objects the client shares with its caller and with the shim: request
    configurations and headers objects, by reference. *)
Record Store : Type := {
  configs : gmap positive AxiosRequestConfig;
  headerObjects : gmap positive (gmap string JsValue)
}.

(** The header [name] a request made with configuration [config] carries. *)
Definition headerOf (σ : Store) (config : positive) (name : string) : option JsValue :=
  cfg ← configs σ !! config;
  h ← config_headers cfg;
  hs ← headerObjects σ !! h;
  hs !! name.

(** ** The client object *)

Record Client : Type := {
  requestConfig : positive;
  baseUrl : URL;
  statusCodeToErrorThrowingFunctionMap : gmap Z (HttpErrorResponse -> Outcome unit)
}.

(** [InitializeBaseUrl]: the value assigned to [this.baseUrl]. *)
Definition InitializeBaseUrl (baseUrl : URL) : Outcome URL :=
  match URL_new (href baseUrl +:+ "api/v1/") with
  | Some url => Returned url
  | None =>
      Threw (Error ("Failed to append API suffix to base URL '" +:+ href baseUrl +:+ "'.")
                   (Some TypeError))
  end.

(** [SetBaseConstructorParameters], the whole of the constructor.  The
    stringifiers and the shim are stored as given; here they are the section's
    instances and the transport a program is run against.  A reference the
    store does not hold stands for an argument that is not an object. *)
Definition SetBaseConstructorParameters
    (σ : Store) (baseUrl : URL) (requestConfig : positive) : Outcome (Client * Store) :=
  url ← InitializeBaseUrl baseUrl;
  match configs σ !! requestConfig with
  | None => Threw TypeError
  | Some cfg =>
      let σ1 :=
        match config_headers cfg with
        | None =>
            let h := fresh (dom (headerObjects σ)) in
            {| configs := <[requestConfig := {| config_headers := Some h |}]> (configs σ);
               headerObjects := <[h := ∅]> (headerObjects σ) |}
        | Some _ => σ
        end in
      match configs σ1 !! requestConfig ≫= config_headers with
      | None => Threw TypeError
      | Some h =>
          match headerObjects σ1 !! h with
          | None => Threw TypeError
          | Some hs =>
              Returned
                ({| requestConfig := requestConfig;
                    baseUrl := url;
                    statusCodeToErrorThrowingFunctionMap :=
                      InitializeStatusCodeToErrorThrowingFunctionMap |},
                 {| configs := configs σ1;
                    headerObjects :=
                      <[h := <["Accept" := JStr "application/json"]> hs]> (headerObjects σ1) |})
          end
      end
  end.

(** The constructor; [None] for [requestConfig] is the omitted argument,
    whose default [{ headers: new AxiosHeaders() }] is built at the call. *)
Definition new_AccessManagerClient
    (σ : Store) (baseUrl : URL) (requestConfig : option positive) : Outcome (Client * Store) :=
  match requestConfig with
  | Some config => SetBaseConstructorParameters σ baseUrl config
  | None =>
      let h := fresh (dom (headerObjects σ)) in
      let config := fresh (dom (configs σ)) in
      SetBaseConstructorParameters
        {| configs := <[config := {| config_headers := Some h |}]> (configs σ);
           headerObjects := <[h := ∅]> (headerObjects σ) |}
        baseUrl config
  end.

(** [AppendPathToBaseUrl]. *)
Definition AppendPathToBaseUrl (this : Client) (path : string) : Outcome URL :=
  match URL_new (href (baseUrl this) +:+ path) with
  | Some url => Returned url
  | None => Threw TypeError
  end.

(** ** Turning a failed call into an error *)

(** [HandleAxiosError]. *)
Definition HandleAxiosError
    (method : HttpRequestMethod) (requestUrl : URL) (error : AxiosError) : Outcome unit :=
  Threw (Error ("Failed to call URL '" +:+ href requestUrl +:+ "' with '" +:+
                HttpRequestMethod_text method +:+ "' method.  " +:+ error_message error)
               (Some (Rejection error))).

Definition baseExceptionMessage
    (method : HttpRequestMethod) (requestUrl : URL) (status : Z) : string :=
  "Failed to call URL '" +:+ href requestUrl +:+ "' with '" +:+
  HttpRequestMethod_text method +:+
  "' method.  Received non-succces HTTP response status " +:+ string_of_Z status.

(** [HandleNonSuccessResponseStatus]. *)
Definition HandleNonSuccessResponseStatus
    (this : Client) (method : HttpRequestMethod) (requestUrl : URL)
    (status : Z) (responseData : JsValue) : Outcome unit :=
  let baseExceptionMessage := baseExceptionMessage method requestUrl status in
  httpErrorResponse ← DeserializeResponseDataToHttpErrorResponse responseData;
  match httpErrorResponse with
  | Some httpErrorResponse =>
      match statusCodeToErrorThrowingFunctionMap this !! status with
      | Some errorThrowingFunction => errorThrowingFunction httpErrorResponse
      | None =>
          code ← ToString (Code httpErrorResponse);
          message ← ToString (Message httpErrorResponse);
          Threw (Error (baseExceptionMessage +:+ ", error code '" +:+ code +:+
                        "', and error message '" +:+ message +:+ "'.") None)
      end
  | None =>
      match responseData with
      | JUndefined | JNull => Threw (Error (baseExceptionMessage +:+ ".") None)
      | _ =>
          if String.eqb (typeof responseData) javaScriptObjectType then
            Threw (Error (baseExceptionMessage +:+ ", and response body '" +:+
                          default "undefined" (JSON_stringify responseData) +:+ "'.") None)
          else
            text ← ToString responseData;
            Threw (Error (baseExceptionMessage +:+ ", and response body '" +:+
                          text +:+ "'.") None)
      end
  end.

(** ** Asynchronous methods *)

(** One call of the shim: [axiosShim.get], [.post] or [.delete] with the URL
    string and the configuration object passed. *)
Record Request : Type := {
  request_method : HttpRequestMethod;
  request_url : string;
  request_config : positive
}.

(** How the awaited promise settles. *)
Inductive TransportOutcome : Type :=
| Resolved (response : AxiosResponse)
| Rejected (error : AxiosError).

(** An [async] method up to its completion: it returns, throws, or awaits a
    call of the shim and goes on with what the promise settled to. *)
Inductive Prog (A : Type) : Type :=
| Ret (a : A)
| Throw (e : JsError)
| Await (request : Request) (k : TransportOutcome -> Prog A).
Arguments Ret {A} a.
Arguments Throw {A} e.
Arguments Await {A} request k.

Fixpoint Prog_bind_def {A B : Type} (f : A -> Prog B) (p : Prog A) : Prog B :=
  match p with
  | Ret a => f a
  | Throw e => Throw e
  | Await request k => Await request (fun settled => Prog_bind_def f (k settled))
  end.

#[global] Instance Prog_ret : MRet Prog := fun _ a => Ret a.
#[global] Instance Prog_bind : MBind Prog := fun _ _ f p => Prog_bind_def f p.

Definition lift {A : Type} (o : Outcome A) : Prog A :=
  match o with
  | Returned a => Ret a
  | Threw e => Throw e
  end.

(** [typedError.response?.data]. *)
Definition responseDataOf (typedError : AxiosError) : JsValue :=
  match error_response typedError with
  | Some response => response_data response
  | None => JUndefined
  end.

(** The [catch] block shared by the four request methods.  Should the handler
    return, control leaves the block with [response] still unassigned. *)
Definition catchBlock
    (this : Client) (method : HttpRequestMethod) (requestUrl : URL)
    (typedError : AxiosError) : Outcome unit :=
  match error_status typedError with
  | Some status =>
      HandleNonSuccessResponseStatus this method requestUrl status (responseDataOf typedError)
  | None => HandleAxiosError method requestUrl typedError
  end.

(** [SendGetRequestAsync]. *)
Definition SendGetRequestAsync (this : Client) (requestUrl : URL) : Prog JsValue :=
  Await {| request_method := Get; request_url := href requestUrl;
           request_config := requestConfig this |}
    (fun settled =>
       match settled with
       | Resolved response => Ret (response_data response)
       | Rejected typedError =>
           _ ← lift (catchBlock this Get requestUrl typedError);
           Throw TypeError
       end).

(** [SendGetRequestForContainsMethodAsync]. *)
Definition SendGetRequestForContainsMethodAsync (this : Client) (requestUrl : URL) : Prog bool :=
  Await {| request_method := Get; request_url := href requestUrl;
           request_config := requestConfig this |}
    (fun settled =>
       match settled with
       | Resolved response =>
           if response_status response =? 200 then Ret true else Ret false
       | Rejected typedError =>
           if bool_decide (error_status typedError = Some 404) then Ret false
           else
             _ ← lift (catchBlock this Get requestUrl typedError);
             Throw TypeError
       end).

(** [SendPostRequestAsync]. *)
Definition SendPostRequestAsync (this : Client) (requestUrl : URL) : Prog unit :=
  Await {| request_method := Post; request_url := href requestUrl;
           request_config := requestConfig this |}
    (fun settled =>
       match settled with
       | Resolved response =>
           if negb (response_status response =? 201) then
             lift (HandleNonSuccessResponseStatus this Post requestUrl
                     (response_status response) (response_data response))
           else Ret tt
       | Rejected typedError =>
           _ ← lift (catchBlock this Post requestUrl typedError);
           Throw TypeError
       end).

(** [SendDeleteRequestAsync]. *)
Definition SendDeleteRequestAsync (this : Client) (requestUrl : URL) : Prog unit :=
  Await {| request_method := Delete; request_url := href requestUrl;
           request_config := requestConfig this |}
    (fun settled =>
       match settled with
       | Resolved response =>
           if negb (response_status response =? 200) then
             lift (HandleNonSuccessResponseStatus this Delete requestUrl
                     (response_status response) (response_data response))
           else Ret tt
       | Rejected typedError =>
           _ ← lift (catchBlock this Delete requestUrl typedError);
           Throw TypeError
       end).

(** ** Running a method against a transport *)

(** The shim as the client sees it: each call settles, and may change the
    objects it was handed. *)
Definition Transport : Type := Request -> Store -> TransportOutcome * Store.

(** The calls a method makes, each with the store it was made in, then the
    method's completion and the final store. *)
Fixpoint run {A : Type} (transport : Transport) (σ : Store) (p : Prog A)
    : list (Request * Store) * Outcome A * Store :=
  match p with
  | Ret a => ([], Returned a, σ)
  | Throw e => ([], Threw e, σ)
  | Await request k =>
      let '(settled, σ') := transport request σ in
      let '(calls, result, σ'') := run transport σ' (k settled) in
      ((request, σ) :: calls, result, σ'')
  end.

(** ** The public operations *)

Context {TUser TGroup TComponent TAccess : Type}.
Context {userStringifier : IUniqueStringifier TUser}.
Context {groupStringifier : IUniqueStringifier TGroup}.
Context {applicationComponentStringifier : IUniqueStringifier TComponent}.
Context {accessLevelStringifier : IUniqueStringifier TAccess}.

(** The methods of [AccessManagerClient], each with its arguments. *)
Inductive Operation : Type :=
| GetUsers
| GetGroups
| GetEntityTypes
| AddUser (user : TUser)
| ContainsUser (user : TUser)
| RemoveUser (user : TUser)
| AddGroup (group : TGroup)
| ContainsGroup (group : TGroup)
| RemoveGroup (group : TGroup)
| AddUserToGroupMapping (user : TUser) (group : TGroup)
| GetUserToGroupMappings (user : TUser) (includeIndirectMappings : bool)
| GetGroupToUserMappings (group : TGroup) (includeIndirectMappings : bool)
| RemoveUserToGroupMapping (user : TUser) (group : TGroup)
| AddGroupToGroupMapping (fromGroup toGroup : TGroup)
| GetGroupToGroupMappings (group : TGroup) (includeIndirectMappings : bool)
| GetGroupToGroupReverseMappings (group : TGroup) (includeIndirectMappings : bool)
| RemoveGroupToGroupMapping (fromGroup toGroup : TGroup)
| AddUserToApplicationComponentAndAccessLevelMapping
    (user : TUser) (applicationComponent : TComponent) (accessLevel : TAccess)
| GetUserToApplicationComponentAndAccessLevelMappings (user : TUser)
| GetApplicationComponentAndAccessLevelToUserMappings
    (applicationComponent : TComponent) (accessLevel : TAccess) (includeIndirectMappings : bool)
| RemoveUserToApplicationComponentAndAccessLevelMapping
    (user : TUser) (applicationComponent : TComponent) (accessLevel : TAccess)
| AddGroupToApplicationComponentAndAccessLevelMapping
    (group : TGroup) (applicationComponent : TComponent) (accessLevel : TAccess)
| GetGroupToApplicationComponentAndAccessLevelMappings (group : TGroup)
| GetApplicationComponentAndAccessLevelToGroupMappings
    (applicationComponent : TComponent) (accessLevel : TAccess) (includeIndirectMappings : bool)
| RemoveGroupToApplicationComponentAndAccessLevelMapping
    (group : TGroup) (applicationComponent : TComponent) (accessLevel : TAccess)
| AddEntityType (entityType : string)
| ContainsEntityType (entityType : string)
| RemoveEntityType (entityType : string)
| AddEntity (entityType entity : string)
| GetEntities (entityType : string)
| ContainsEntity (entityType entity : string)
| RemoveEntity (entityType entity : string)
| AddUserToEntityMapping (user : TUser) (entityType entity : string)
| GetUserToEntityMappings (user : TUser)
| GetUserToEntityMappingsForType (user : TUser) (entityType : string)
| GetEntityToUserMappings (entityType entity : string) (includeIndirectMappings : bool)
| RemoveUserToEntityMapping (user : TUser) (entityType entity : string)
| AddGroupToEntityMapping (group : TGroup) (entityType entity : string)
| GetGroupToEntityMappings (group : TGroup)
| GetGroupToEntityMappingsForType (group : TGroup) (entityType : string)
| GetEntityToGroupMappings (entityType entity : string) (includeIndirectMappings : bool)
| RemoveGroupToEntityMapping (group : TGroup) (entityType entity : string)
| HasAccessToApplicationComponent
    (user : TUser) (applicationComponent : TComponent) (accessLevel : TAccess)
| HasAccessToEntity (user : TUser) (entityType entity : string)
| GetApplicationComponentsAccessibleByUser (user : TUser)
| GetApplicationComponentsAccessibleByGroup (group : TGroup)
| GetEntitiesAccessibleByUser (user : TUser)
| GetEntitiesOfTypeAccessibleByUser (user : TUser) (entityType : string)
| GetEntitiesAccessibleByGroup (group : TGroup)
| GetEntitiesOfTypeAccessibleByGroup (group : TGroup) (entityType : string).

(** [encodeURIComponent(this.xStringifier.ToString(x))]. *)
Definition segment {T : Type} `{IUniqueStringifier T} (x : T) : string :=
  encodeURIComponent (Stringifier_ToString x).

(** The argument each method passes to [AppendPathToBaseUrl]. *)
Definition pathOf (op : Operation) : string :=
  match op with
  | GetUsers => "users"
  | GetGroups => "groups"
  | GetEntityTypes => "entityTypes"
  | AddUser user | ContainsUser user | RemoveUser user =>
      "users/" +:+ segment user
  | AddGroup group | ContainsGroup group | RemoveGroup group =>
      "groups/" +:+ segment group
  | AddUserToGroupMapping user group | RemoveUserToGroupMapping user group =>
      "userToGroupMappings/user/" +:+ segment user +:+ "/group/" +:+ segment group
  | GetUserToGroupMappings user includeIndirectMappings =>
      "userToGroupMappings/user/" +:+ segment user +:+
      "?includeIndirectMappings=" +:+ string_of_bool includeIndirectMappings
  | GetGroupToUserMappings group includeIndirectMappings =>
      "userToGroupMappings/group/" +:+ segment group +:+
      "?includeIndirectMappings=" +:+ string_of_bool includeIndirectMappings
  | AddGroupToGroupMapping fromGroup toGroup | RemoveGroupToGroupMapping fromGroup toGroup =>
      "groupToGroupMappings/fromGroup/" +:+ segment fromGroup +:+
      "/toGroup/" +:+ segment toGroup
  | GetGroupToGroupMappings group includeIndirectMappings =>
      "groupToGroupMappings/group/" +:+ segment group +:+
      "?includeIndirectMappings=" +:+ string_of_bool includeIndirectMappings
  | GetGroupToGroupReverseMappings group includeIndirectMappings =>
      "groupToGroupReverseMappings/group/" +:+ segment group +:+
      "?includeIndirectMappings=" +:+ string_of_bool includeIndirectMappings
  | AddUserToApplicationComponentAndAccessLevelMapping user applicationComponent accessLevel
  | RemoveUserToApplicationComponentAndAccessLevelMapping user applicationComponent accessLevel =>
      "userToApplicationComponentAndAccessLevelMappings/user/" +:+ segment user +:+
      "/applicationComponent/" +:+ segment applicationComponent +:+
      "/accessLevel/" +:+ segment accessLevel
  | GetUserToApplicationComponentAndAccessLevelMappings user =>
      "userToApplicationComponentAndAccessLevelMappings/user/" +:+ segment user +:+
      "?includeIndirectMappings=false"
  | GetApplicationComponentAndAccessLevelToUserMappings
      applicationComponent accessLevel includeIndirectMappings =>
      "userToApplicationComponentAndAccessLevelMappings/applicationComponent/" +:+
      segment applicationComponent +:+ "/accessLevel/" +:+ segment accessLevel +:+
      "?includeIndirectMappings=" +:+ string_of_bool includeIndirectMappings
  | AddGroupToApplicationComponentAndAccessLevelMapping group applicationComponent accessLevel
  | RemoveGroupToApplicationComponentAndAccessLevelMapping group applicationComponent accessLevel =>
      "groupToApplicationComponentAndAccessLevelMappings/group/" +:+ segment group +:+
      "/applicationComponent/" +:+ segment applicationComponent +:+
      "/accessLevel/" +:+ segment accessLevel
  | GetGroupToApplicationComponentAndAccessLevelMappings group =>
      "groupToApplicationComponentAndAccessLevelMappings/group/" +:+ segment group +:+
      "?includeIndirectMappings=false"
  | GetApplicationComponentAndAccessLevelToGroupMappings
      applicationComponent accessLevel includeIndirectMappings =>
      "groupToApplicationComponentAndAccessLevelMappings/applicationComponent/" +:+
      segment applicationComponent +:+ "/accessLevel/" +:+ segment accessLevel +:+
      "?includeIndirectMappings=" +:+ string_of_bool includeIndirectMappings
  | AddEntityType entityType | ContainsEntityType entityType | RemoveEntityType entityType =>
      "entityTypes/" +:+ encodeURIComponent entityType
  | AddEntity entityType entity | ContainsEntity entityType entity
  | RemoveEntity entityType entity =>
      "entityTypes/" +:+ encodeURIComponent entityType +:+
      "/entities/" +:+ encodeURIComponent entity
  | GetEntities entityType =>
      "entityTypes/" +:+ encodeURIComponent entityType +:+ "/entities"
  | AddUserToEntityMapping user entityType entity
  | RemoveUserToEntityMapping user entityType entity =>
      "userToEntityMappings/user/" +:+ segment user +:+
      "/entityType/" +:+ encodeURIComponent entityType +:+
      "/entity/" +:+ encodeURIComponent entity
  | GetUserToEntityMappings user =>
      "userToEntityMappings/user/" +:+ segment user +:+ "?includeIndirectMappings=false"
  | GetUserToEntityMappingsForType user entityType =>
      "userToEntityMappings/user/" +:+ segment user +:+
      "/entityType/" +:+ encodeURIComponent entityType +:+ "?includeIndirectMappings=false"
  | GetEntityToUserMappings entityType entity includeIndirectMappings =>
      "userToEntityMappings/entityType/" +:+ encodeURIComponent entityType +:+
      "/entity/" +:+ encodeURIComponent entity +:+
      "?includeIndirectMappings=" +:+ string_of_bool includeIndirectMappings
  | AddGroupToEntityMapping group entityType entity
  | RemoveGroupToEntityMapping group entityType entity =>
      "groupToEntityMappings/group/" +:+ segment group +:+
      "/entityType/" +:+ encodeURIComponent entityType +:+
      "/entity/" +:+ encodeURIComponent entity
  | GetGroupToEntityMappings group =>
      "groupToEntityMappings/group/" +:+ segment group +:+ "?includeIndirectMappings=false"
  | GetGroupToEntityMappingsForType group entityType =>
      "groupToEntityMappings/group/" +:+ segment group +:+
      "/entityType/" +:+ encodeURIComponent entityType +:+ "?includeIndirectMappings=false"
  | GetEntityToGroupMappings entityType entity includeIndirectMappings =>
      "groupToEntityMappings/entityType/" +:+ encodeURIComponent entityType +:+
      "/entity/" +:+ encodeURIComponent entity +:+
      "?includeIndirectMappings=" +:+ string_of_bool includeIndirectMappings
  | HasAccessToApplicationComponent user applicationComponent accessLevel =>
      "dataElementAccess/applicationComponent/user/" +:+ segment user +:+
      "/applicationComponent/" +:+ segment applicationComponent +:+
      "/accessLevel/" +:+ segment accessLevel
  | HasAccessToEntity user entityType entity =>
      "dataElementAccess/entity/user/" +:+ segment user +:+
      "/entityType/" +:+ encodeURIComponent entityType +:+
      "/entity/" +:+ encodeURIComponent entity
  | GetApplicationComponentsAccessibleByUser user =>
      "userToApplicationComponentAndAccessLevelMappings/user/" +:+ segment user +:+
      "?includeIndirectMappings=true"
  | GetApplicationComponentsAccessibleByGroup group =>
      "groupToApplicationComponentAndAccessLevelMappings/group/" +:+ segment group +:+
      "?includeIndirectMappings=true"
  | GetEntitiesAccessibleByUser user =>
      "userToEntityMappings/user/" +:+ segment user +:+ "?includeIndirectMappings=true"
  | GetEntitiesOfTypeAccessibleByUser user entityType =>
      "userToEntityMappings/user/" +:+ segment user +:+
      "/entityType/" +:+ encodeURIComponent entityType +:+ "?includeIndirectMappings=true"
  | GetEntitiesAccessibleByGroup group =>
      "groupToEntityMappings/group/" +:+ segment group +:+ "?includeIndirectMappings=true"
  | GetEntitiesOfTypeAccessibleByGroup group entityType =>
      "groupToEntityMappings/group/" +:+ segment group +:+
      "/entityType/" +:+ encodeURIComponent entityType +:+ "?includeIndirectMappings=true"
  end.

(** The request method of the base class a public method awaits. *)
Inductive Primitive : Type := ViaGet | ViaContains | ViaPost | ViaDelete.

Definition primitiveOf (op : Operation) : Primitive :=
  match op with
  | AddUser _ | AddGroup _ | AddUserToGroupMapping _ _ | AddGroupToGroupMapping _ _
  | AddUserToApplicationComponentAndAccessLevelMapping _ _ _
  | AddGroupToApplicationComponentAndAccessLevelMapping _ _ _
  | AddEntityType _ | AddEntity _ _ | AddUserToEntityMapping _ _ _
  | AddGroupToEntityMapping _ _ _ => ViaPost
  | RemoveUser _ | RemoveGroup _ | RemoveUserToGroupMapping _ _
  | RemoveGroupToGroupMapping _ _
  | RemoveUserToApplicationComponentAndAccessLevelMapping _ _ _
  | RemoveGroupToApplicationComponentAndAccessLevelMapping _ _ _
  | RemoveEntityType _ | RemoveEntity _ _ | RemoveUserToEntityMapping _ _ _
  | RemoveGroupToEntityMapping _ _ _ => ViaDelete
  | ContainsUser _ | ContainsGroup _ | ContainsEntityType _ | ContainsEntity _ _ => ViaContains
  | _ => ViaGet
  end.

Definition primitiveResult (p : Primitive) : Type :=
  match p with
  | ViaGet => JsValue
  | ViaContains => bool
  | ViaPost | ViaDelete => unit
  end.

Definition primitiveMethod (p : Primitive) : HttpRequestMethod :=
  match p with
  | ViaGet | ViaContains => Get
  | ViaPost => Post
  | ViaDelete => Delete
  end.

Definition send (this : Client) (p : Primitive) (url : URL) : Prog (primitiveResult p) :=
  match p with
  | ViaGet => SendGetRequestAsync this url
  | ViaContains => SendGetRequestForContainsMethodAsync this url
  | ViaPost => SendPostRequestAsync this url
  | ViaDelete => SendDeleteRequestAsync this url
  end.

(** A public method up to the settling of its request: the URL is built, then
    the request method of the base class is awaited.  For the [Add],
    [Remove], [Contains] and [HasAccess] methods this is the whole method;
    the [Get] methods go on to read the body returned. *)
Definition perform (this : Client) (op : Operation) : Prog (primitiveResult (primitiveOf op)) :=
  match AppendPathToBaseUrl this (pathOf op) with
  | Returned url => send this (primitiveOf op) url
  | Threw e => Throw e
  end.

(** ** Sets of results *)

(** [SameValueZero], the equality of [Set], on two values read from different
    places of one parsed body: primitives are compared by value; an object or
    an array is only the same as itself, and no two places of a parsed body
    hold the same object. *)
Definition sameValueZero (a b : JsValue) : bool :=
  match a, b with
  | JUndefined, JUndefined => true
  | JNull, JNull => true
  | JBool x, JBool y => Bool.eqb x y
  | JNum x, JNum y => x =? y
  | JStr x, JStr y => String.eqb x y
  | _, _ => false
  end.

(** [Set.prototype.add] on a set held in insertion order. *)
Definition Set_add {A : Type} (same : A -> A -> bool) (s : list A) (x : A) : list A :=
  if existsb (same x) s then s else s ++ [x].

(** A [Set] of objects of class [T]: the objects created so far, and the
    references the set holds.  A reference is the position of its object in
    [created]; two references are the same value exactly when they are the
    same position. *)
Record ObjectSet (T : Type) : Type := {
  created : list T;
  references : list nat
}.
Arguments created {T} _.
Arguments references {T} _.

(** [results.add(new T(...))]. *)
Definition addNewObject {T : Type} (results : ObjectSet T) (object : T) : ObjectSet T :=
  let reference := length (created results) in
  {| created := created results ++ [object];
     references := Set_add Nat.eqb (references results) reference |}.

(** The objects a set of references stands for, in insertion order. *)
Definition objectsOf {T : Type} (results : ObjectSet T) : list T :=
  omap (fun reference => created results !! reference) (references results).

Fixpoint foldOutcome {A B : Type} (f : B -> A -> Outcome B) (acc : B) (l : list A) : Outcome B :=
  match l with
  | [] => Returned acc
  | x :: rest => acc' ← f acc x; foldOutcome f acc' rest
  end.

(** The loop of [GetEntitiesAccessibleByUser] and
    [GetEntitiesAccessibleByGroup]. *)
Definition entitiesOfResults (rawResults : JsValue) : Outcome (ObjectSet EntityTypeAndEntity) :=
  items ← loopItems rawResults;
  foldOutcome
    (fun results item =>
       entityType ← getProperty item P_entityType;
       entity ← getProperty item P_entity;
       mret (addNewObject results {| EntityType := entityType; Entity := entity |}))
    {| created := []; references := [] |} items.

(** The loop of [GetApplicationComponentsAccessibleByUser] and
    [GetApplicationComponentsAccessibleByGroup]. *)
Definition applicationComponentsOfResults (rawResults : JsValue)
    : Outcome (ObjectSet (ApplicationComponentAndAccessLevel TComponent TAccess)) :=
  items ← loopItems rawResults;
  foldOutcome
    (fun results item =>
       applicationComponent ← getProperty item P_applicationComponent;
       accessLevel ← getProperty item P_accessLevel;
       mret (addNewObject results
               {| ApplicationComponent := Stringifier_FromString applicationComponent;
                  AccessLevel := Stringifier_FromString accessLevel |}))
    {| created := []; references := [] |} items.

(** The loop of [GetEntitiesOfTypeAccessibleByUser] and
    [GetEntitiesOfTypeAccessibleByGroup]: a [Set<string>] of the values read. *)
Definition entityNamesOfResults (rawResults : JsValue) : Outcome (list JsValue) :=
  items ← loopItems rawResults;
  foldOutcome
    (fun results item =>
       entity ← getProperty item P_entity;
       mret (Set_add sameValueZero results entity))
    [] items.

(** The six methods of the accessible-by family, whole. *)
Definition GetApplicationComponentsAccessibleByUserAsync (this : Client) (user : TUser)
    : Prog (ObjectSet (ApplicationComponentAndAccessLevel TComponent TAccess)) :=
  rawResults ← perform this (GetApplicationComponentsAccessibleByUser user);
  lift (applicationComponentsOfResults rawResults).

Definition GetApplicationComponentsAccessibleByGroupAsync (this : Client) (group : TGroup)
    : Prog (ObjectSet (ApplicationComponentAndAccessLevel TComponent TAccess)) :=
  rawResults ← perform this (GetApplicationComponentsAccessibleByGroup group);
  lift (applicationComponentsOfResults rawResults).

Definition GetEntitiesAccessibleByUserAsync (this : Client) (user : TUser)
    : Prog (ObjectSet EntityTypeAndEntity) :=
  rawResults ← perform this (GetEntitiesAccessibleByUser user);
  lift (entitiesOfResults rawResults).

Definition GetEntitiesOfTypeAccessibleByUserAsync
    (this : Client) (user : TUser) (entityType : string) : Prog (list JsValue) :=
  rawResults ← perform this (GetEntitiesOfTypeAccessibleByUser user entityType);
  lift (entityNamesOfResults rawResults).

Definition GetEntitiesAccessibleByGroupAsync (this : Client) (group : TGroup)
    : Prog (ObjectSet EntityTypeAndEntity) :=
  rawResults ← perform this (GetEntitiesAccessibleByGroup group);
  lift (entitiesOfResults rawResults).

Definition GetEntitiesOfTypeAccessibleByGroupAsync
    (this : Client) (group : TGroup) (entityType : string) : Prog (list JsValue) :=
  rawResults ← perform this (GetEntitiesOfTypeAccessibleByGroup group entityType);
  lift (entityNamesOfResults rawResults).

(** ** The results of the queries *)

(** The loop of a query that returns an [Array]: every element visited is
    converted and pushed, in order. *)
Definition resultsOf {T : Type} (convert : JsValue -> Outcome T) (rawResults : JsValue)
    : Outcome (list T) :=
  items ← loopItems rawResults;
  mapOutcome convert items.

(** [stringifier.FromString(rawResults[i])]. *)
Definition fromElement {T : Type} `{IUniqueStringifier T} (item : JsValue) : Outcome T :=
  mret (Stringifier_FromString item).

(** [stringifier.FromString(rawResults[i].p)]. *)
Definition fromProperty {T : Type} `{IUniqueStringifier T} (p : PropertyName) (item : JsValue)
    : Outcome T :=
  v ← getProperty item p;
  mret (Stringifier_FromString v).

(** [new ApplicationComponentAndAccessLevel(...)] from one element. *)
Definition applicationComponentOfItem (item : JsValue)
    : Outcome (ApplicationComponentAndAccessLevel TComponent TAccess) :=
  applicationComponent ← getProperty item P_applicationComponent;
  accessLevel ← getProperty item P_accessLevel;
  mret {| ApplicationComponent := Stringifier_FromString applicationComponent;
          AccessLevel := Stringifier_FromString accessLevel |}.

(** [new EntityTypeAndEntity(...)] from one element. *)
Definition entityOfItem (item : JsValue) : Outcome EntityTypeAndEntity :=
  entityType ← getProperty item P_entityType;
  entity ← getProperty item P_entity;
  mret {| EntityType := entityType; Entity := entity |}.

(** What each method resolves to.  An [Array] is given by its elements, an
    object of a model class by its fields; the strings of entity types and
    entities are kept as read from the body. *)
Definition resultType (op : Operation) : Type :=
  match op with
  | GetUsers
  | GetGroupToUserMappings _ _
  | GetApplicationComponentAndAccessLevelToUserMappings _ _ _
  | GetEntityToUserMappings _ _ _ => list TUser
  | GetGroups
  | GetUserToGroupMappings _ _
  | GetGroupToGroupMappings _ _
  | GetGroupToGroupReverseMappings _ _
  | GetApplicationComponentAndAccessLevelToGroupMappings _ _ _
  | GetEntityToGroupMappings _ _ _ => list TGroup
  | GetEntityTypes
  | GetEntities _
  | GetUserToEntityMappingsForType _ _
  | GetGroupToEntityMappingsForType _ _
  | GetEntitiesOfTypeAccessibleByUser _ _
  | GetEntitiesOfTypeAccessibleByGroup _ _ => list JsValue
  | GetUserToApplicationComponentAndAccessLevelMappings _
  | GetGroupToApplicationComponentAndAccessLevelMappings _ =>
      list (ApplicationComponentAndAccessLevel TComponent TAccess)
  | GetUserToEntityMappings _
  | GetGroupToEntityMappings _ => list EntityTypeAndEntity
  | GetApplicationComponentsAccessibleByUser _
  | GetApplicationComponentsAccessibleByGroup _ =>
      ObjectSet (ApplicationComponentAndAccessLevel TComponent TAccess)
  | GetEntitiesAccessibleByUser _
  | GetEntitiesAccessibleByGroup _ => ObjectSet EntityTypeAndEntity
  | HasAccessToApplicationComponent _ _ _
  | HasAccessToEntity _ _ _ => JsValue
  | ContainsUser _ | ContainsGroup _ | ContainsEntityType _ | ContainsEntity _ _ => bool
  | _ => unit
  end.

(** What each method does with the value its request method returned. *)
Definition readResult (op : Operation)
    : primitiveResult (primitiveOf op) -> Outcome (resultType op) :=
  match op as o return primitiveResult (primitiveOf o) -> Outcome (resultType o) with
  | GetUsers => resultsOf fromElement
  | GetGroups => resultsOf fromElement
  | GetEntityTypes => resultsOf Returned
  | GetUserToGroupMappings _ _ => resultsOf (fromProperty P_group)
  | GetGroupToUserMappings _ _ => resultsOf (fromProperty P_user)
  | GetGroupToGroupMappings _ _ => resultsOf (fromProperty P_toGroup)
  | GetGroupToGroupReverseMappings _ _ => resultsOf (fromProperty P_fromGroup)
  | GetUserToApplicationComponentAndAccessLevelMappings _ =>
      resultsOf applicationComponentOfItem
  | GetApplicationComponentAndAccessLevelToUserMappings _ _ _ =>
      resultsOf (fromProperty P_user)
  | GetGroupToApplicationComponentAndAccessLevelMappings _ =>
      resultsOf applicationComponentOfItem
  | GetApplicationComponentAndAccessLevelToGroupMappings _ _ _ =>
      resultsOf (fromProperty P_group)
  | GetEntities _ => resultsOf (fun item => getProperty item P_entity)
  | GetUserToEntityMappings _ => resultsOf entityOfItem
  | GetUserToEntityMappingsForType _ _ => resultsOf (fun item => getProperty item P_entity)
  | GetEntityToUserMappings _ _ _ => resultsOf (fromProperty P_user)
  | GetGroupToEntityMappings _ => resultsOf entityOfItem
  | GetGroupToEntityMappingsForType _ _ => resultsOf (fun item => getProperty item P_entity)
  | GetEntityToGroupMappings _ _ _ => resultsOf (fromProperty P_group)
  | HasAccessToApplicationComponent _ _ _ => Returned
  | HasAccessToEntity _ _ _ => Returned
  | GetApplicationComponentsAccessibleByUser _ => applicationComponentsOfResults
  | GetApplicationComponentsAccessibleByGroup _ => applicationComponentsOfResults
  | GetEntitiesAccessibleByUser _ => entitiesOfResults
  | GetEntitiesOfTypeAccessibleByUser _ _ => entityNamesOfResults
  | GetEntitiesAccessibleByGroup _ => entitiesOfResults
  | GetEntitiesOfTypeAccessibleByGroup _ _ => entityNamesOfResults
  | ContainsUser _ => Returned
  | ContainsGroup _ => Returned
  | ContainsEntityType _ => Returned
  | ContainsEntity _ _ => Returned
  | AddUser _ => Returned
  | RemoveUser _ => Returned
  | AddGroup _ => Returned
  | RemoveGroup _ => Returned
  | AddUserToGroupMapping _ _ => Returned
  | RemoveUserToGroupMapping _ _ => Returned
  | AddGroupToGroupMapping _ _ => Returned
  | RemoveGroupToGroupMapping _ _ => Returned
  | AddUserToApplicationComponentAndAccessLevelMapping _ _ _ => Returned
  | RemoveUserToApplicationComponentAndAccessLevelMapping _ _ _ => Returned
  | AddGroupToApplicationComponentAndAccessLevelMapping _ _ _ => Returned
  | RemoveGroupToApplicationComponentAndAccessLevelMapping _ _ _ => Returned
  | AddEntityType _ => Returned
  | RemoveEntityType _ => Returned
  | AddEntity _ _ => Returned
  | RemoveEntity _ _ => Returned
  | AddUserToEntityMapping _ _ _ => Returned
  | RemoveUserToEntityMapping _ _ _ => Returned
  | AddGroupToEntityMapping _ _ _ => Returned
  | RemoveGroupToEntityMapping _ _ _ => Returned
  end.

(** A public method, whole: the URL is built, the request method of the base
    class is awaited, and what it returned is read. *)
Definition invoke (this : Client) (op : Operation) : Prog (resultType op) :=
  returned ← perform this op;
  lift (readResult op returned).

(** The strings a method puts into its path: what [ToString] gives for each
    user, group, application component and access level among its arguments,
    and the entity types and entities as they are, in the order of the
    path. *)
Definition identifiersOf (op : Operation) : list string :=
  match op with
  | GetUsers | GetGroups | GetEntityTypes => []
  | AddUser user | ContainsUser user | RemoveUser user => [Stringifier_ToString user]
  | AddGroup group | ContainsGroup group | RemoveGroup group => [Stringifier_ToString group]
  | AddUserToGroupMapping user group | RemoveUserToGroupMapping user group =>
      [Stringifier_ToString user; Stringifier_ToString group]
  | GetUserToGroupMappings user _ => [Stringifier_ToString user]
  | GetGroupToUserMappings group _ => [Stringifier_ToString group]
  | AddGroupToGroupMapping fromGroup toGroup | RemoveGroupToGroupMapping fromGroup toGroup =>
      [Stringifier_ToString fromGroup; Stringifier_ToString toGroup]
  | GetGroupToGroupMappings group _ | GetGroupToGroupReverseMappings group _ =>
      [Stringifier_ToString group]
  | AddUserToApplicationComponentAndAccessLevelMapping user applicationComponent accessLevel
  | RemoveUserToApplicationComponentAndAccessLevelMapping user applicationComponent accessLevel
  | HasAccessToApplicationComponent user applicationComponent accessLevel =>
      [Stringifier_ToString user; Stringifier_ToString applicationComponent;
       Stringifier_ToString accessLevel]
  | GetUserToApplicationComponentAndAccessLevelMappings user
  | GetApplicationComponentsAccessibleByUser user
  | GetUserToEntityMappings user
  | GetEntitiesAccessibleByUser user => [Stringifier_ToString user]
  | GetApplicationComponentAndAccessLevelToUserMappings applicationComponent accessLevel _
  | GetApplicationComponentAndAccessLevelToGroupMappings applicationComponent accessLevel _ =>
      [Stringifier_ToString applicationComponent; Stringifier_ToString accessLevel]
  | AddGroupToApplicationComponentAndAccessLevelMapping group applicationComponent accessLevel
  | RemoveGroupToApplicationComponentAndAccessLevelMapping group applicationComponent accessLevel =>
      [Stringifier_ToString group; Stringifier_ToString applicationComponent;
       Stringifier_ToString accessLevel]
  | GetGroupToApplicationComponentAndAccessLevelMappings group
  | GetApplicationComponentsAccessibleByGroup group
  | GetGroupToEntityMappings group
  | GetEntitiesAccessibleByGroup group => [Stringifier_ToString group]
  | AddEntityType entityType | ContainsEntityType entityType | RemoveEntityType entityType
  | GetEntities entityType => [entityType]
  | AddEntity entityType entity | ContainsEntity entityType entity
  | RemoveEntity entityType entity
  | GetEntityToUserMappings entityType entity _
  | GetEntityToGroupMappings entityType entity _ => [entityType; entity]
  | AddUserToEntityMapping user entityType entity
  | RemoveUserToEntityMapping user entityType entity
  | HasAccessToEntity user entityType entity =>
      [Stringifier_ToString user; entityType; entity]
  | GetUserToEntityMappingsForType user entityType
  | GetEntitiesOfTypeAccessibleByUser user entityType =>
      [Stringifier_ToString user; entityType]
  | AddGroupToEntityMapping group entityType entity
  | RemoveGroupToEntityMapping group entityType entity =>
      [Stringifier_ToString group; entityType; entity]
  | GetGroupToEntityMappingsForType group entityType
  | GetEntitiesOfTypeAccessibleByGroup group entityType =>
      [Stringifier_ToString group; entityType]
  end.

(** The pieces of the path of each method, as its template has them: the
    names of the template and, between them, the encoded identifiers. *)
Definition piecesOf (op : Operation) : list string :=
  match op with
  | GetUsers =>
      ["users"]
  | GetGroups =>
      ["groups"]
  | GetEntityTypes =>
      ["entityTypes"]
  | AddUser user | ContainsUser user | RemoveUser user =>
      ["users"; segment user]
  | AddGroup group | ContainsGroup group | RemoveGroup group =>
      ["groups"; segment group]
  | AddUserToGroupMapping user group | RemoveUserToGroupMapping user group =>
      ["userToGroupMappings"; "user"; segment user; "group"; segment group]
  | GetUserToGroupMappings user includeIndirectMappings =>
      ["userToGroupMappings"; "user"; segment user;
       "includeIndirectMappings=" +:+ string_of_bool includeIndirectMappings]
  | GetGroupToUserMappings group includeIndirectMappings =>
      ["userToGroupMappings"; "group"; segment group;
       "includeIndirectMappings=" +:+ string_of_bool includeIndirectMappings]
  | AddGroupToGroupMapping fromGroup toGroup | RemoveGroupToGroupMapping fromGroup toGroup =>
      ["groupToGroupMappings"; "fromGroup"; segment fromGroup; "toGroup"; segment toGroup]
  | GetGroupToGroupMappings group includeIndirectMappings =>
      ["groupToGroupMappings"; "group"; segment group;
       "includeIndirectMappings=" +:+ string_of_bool includeIndirectMappings]
  | GetGroupToGroupReverseMappings group includeIndirectMappings =>
      ["groupToGroupReverseMappings"; "group"; segment group;
       "includeIndirectMappings=" +:+ string_of_bool includeIndirectMappings]
  | AddUserToApplicationComponentAndAccessLevelMapping user applicationComponent accessLevel
  | RemoveUserToApplicationComponentAndAccessLevelMapping user applicationComponent
      accessLevel =>
      ["userToApplicationComponentAndAccessLevelMappings"; "user"; segment user;
       "applicationComponent"; segment applicationComponent; "accessLevel";
       segment accessLevel]
  | GetUserToApplicationComponentAndAccessLevelMappings user =>
      ["userToApplicationComponentAndAccessLevelMappings"; "user"; segment user;
       "includeIndirectMappings=false"]
  | GetApplicationComponentAndAccessLevelToUserMappings applicationComponent accessLevel
      includeIndirectMappings =>
      ["userToApplicationComponentAndAccessLevelMappings"; "applicationComponent";
       segment applicationComponent; "accessLevel"; segment accessLevel;
       "includeIndirectMappings=" +:+ string_of_bool includeIndirectMappings]
  | AddGroupToApplicationComponentAndAccessLevelMapping group applicationComponent accessLevel
  | RemoveGroupToApplicationComponentAndAccessLevelMapping group applicationComponent
      accessLevel =>
      ["groupToApplicationComponentAndAccessLevelMappings"; "group"; segment group;
       "applicationComponent"; segment applicationComponent; "accessLevel";
       segment accessLevel]
  | GetGroupToApplicationComponentAndAccessLevelMappings group =>
      ["groupToApplicationComponentAndAccessLevelMappings"; "group"; segment group;
       "includeIndirectMappings=false"]
  | GetApplicationComponentAndAccessLevelToGroupMappings applicationComponent accessLevel
      includeIndirectMappings =>
      ["groupToApplicationComponentAndAccessLevelMappings"; "applicationComponent";
       segment applicationComponent; "accessLevel"; segment accessLevel;
       "includeIndirectMappings=" +:+ string_of_bool includeIndirectMappings]
  | AddEntityType entityType | ContainsEntityType entityType | RemoveEntityType entityType =>
      ["entityTypes"; encodeURIComponent entityType]
  | AddEntity entityType entity | ContainsEntity entityType entity
  | RemoveEntity entityType entity =>
      ["entityTypes"; encodeURIComponent entityType; "entities"; encodeURIComponent entity]
  | GetEntities entityType =>
      ["entityTypes"; encodeURIComponent entityType; "entities"]
  | AddUserToEntityMapping user entityType entity
  | RemoveUserToEntityMapping user entityType entity =>
      ["userToEntityMappings"; "user"; segment user; "entityType";
       encodeURIComponent entityType; "entity"; encodeURIComponent entity]
  | GetUserToEntityMappings user =>
      ["userToEntityMappings"; "user"; segment user; "includeIndirectMappings=false"]
  | GetUserToEntityMappingsForType user entityType =>
      ["userToEntityMappings"; "user"; segment user; "entityType";
       encodeURIComponent entityType; "includeIndirectMappings=false"]
  | GetEntityToUserMappings entityType entity includeIndirectMappings =>
      ["userToEntityMappings"; "entityType"; encodeURIComponent entityType; "entity";
       encodeURIComponent entity;
       "includeIndirectMappings=" +:+ string_of_bool includeIndirectMappings]
  | AddGroupToEntityMapping group entityType entity
  | RemoveGroupToEntityMapping group entityType entity =>
      ["groupToEntityMappings"; "group"; segment group; "entityType";
       encodeURIComponent entityType; "entity"; encodeURIComponent entity]
  | GetGroupToEntityMappings group =>
      ["groupToEntityMappings"; "group"; segment group; "includeIndirectMappings=false"]
  | GetGroupToEntityMappingsForType group entityType =>
      ["groupToEntityMappings"; "group"; segment group; "entityType";
       encodeURIComponent entityType; "includeIndirectMappings=false"]
  | GetEntityToGroupMappings entityType entity includeIndirectMappings =>
      ["groupToEntityMappings"; "entityType"; encodeURIComponent entityType; "entity";
       encodeURIComponent entity;
       "includeIndirectMappings=" +:+ string_of_bool includeIndirectMappings]
  | HasAccessToApplicationComponent user applicationComponent accessLevel =>
      ["dataElementAccess"; "applicationComponent"; "user"; segment user;
       "applicationComponent"; segment applicationComponent; "accessLevel";
       segment accessLevel]
  | HasAccessToEntity user entityType entity =>
      ["dataElementAccess"; "entity"; "user"; segment user; "entityType";
       encodeURIComponent entityType; "entity"; encodeURIComponent entity]
  | GetApplicationComponentsAccessibleByUser user =>
      ["userToApplicationComponentAndAccessLevelMappings"; "user"; segment user;
       "includeIndirectMappings=true"]
  | GetApplicationComponentsAccessibleByGroup group =>
      ["groupToApplicationComponentAndAccessLevelMappings"; "group"; segment group;
       "includeIndirectMappings=true"]
  | GetEntitiesAccessibleByUser user =>
      ["userToEntityMappings"; "user"; segment user; "includeIndirectMappings=true"]
  | GetEntitiesOfTypeAccessibleByUser user entityType =>
      ["userToEntityMappings"; "user"; segment user; "entityType";
       encodeURIComponent entityType; "includeIndirectMappings=true"]
  | GetEntitiesAccessibleByGroup group =>
      ["groupToEntityMappings"; "group"; segment group; "includeIndirectMappings=true"]
  | GetEntitiesOfTypeAccessibleByGroup group entityType =>
      ["groupToEntityMappings"; "group"; segment group; "entityType";
       encodeURIComponent entityType; "includeIndirectMappings=true"]
  end.

End AccessManagerClient.

Arguments Operation : clear implicits.
Arguments Ret {A} a.
Arguments Throw {A} e.
Arguments Await {A} request k.
Arguments created {T} _.
Arguments references {T} _.

(** ** Reference points of the properties *)

(** An error as [HandleAxiosError] throws it: an [Error] whose cause is the
    rejection of the shim call. *)
Definition isTransportFailure (e : JsError) : bool :=
  match e with
  | Error _ (Some (Rejection _)) => true
  | _ => false
  end.

(** The pieces of a string between its slashes. *)
Fixpoint segments (s : string) : list string :=
  match s with
  | EmptyString => [EmptyString]
  | String c rest =>
      if Ascii.eqb c "/" then EmptyString :: segments rest
      else
        match segments rest with
        | x :: xs => String c x :: xs
        | [] => [String c EmptyString]
        end
  end.

(** A character that can stand in an encoded segment: unreserved, or the
    percent sign of an escape. *)
Definition inSegment (c : ascii) : bool := isUnreserved c || Ascii.eqb c "%".

Fixpoint allOf (test : ascii -> bool) (s : string) : bool :=
  match s with
  | EmptyString => true
  | String c rest => test c && allOf test rest
  end.

(** A computation whose only failure is the run time's [TypeError]. *)
Definition onlyTypeError {A : Type} (m : Outcome A) : Prop :=
  forall e, m = Threw e -> e = TypeError.

(** The name/value pair read from one element of an [attributes] array that
    is neither [null] nor [undefined]: the own [name] and [value] properties
    of an object, [undefined] for what is absent. *)
Definition attributeOfItem (item : JsValue) : NameValuePair :=
  match item with
  | JObj fields =>
      {| Name := default JUndefined (ownProperty fields "name");
         Value := default JUndefined (ownProperty fields "value") |}
  | _ => {| Name := JUndefined; Value := JUndefined |}
  end.

(** No element of a list is the same as a later one. *)
Fixpoint distinctUnder {A : Type} (same : A -> A -> bool) (l : list A) : Prop :=
  match l with
  | [] => True
  | x :: rest => existsb (same x) rest = false /\ distinctUnder same rest
  end.


(** A character that ends a piece of a path: the slash between segments or
    the question mark before the query. *)
Definition isSeparator (c : ascii) : bool := Ascii.eqb c "/" || Ascii.eqb c "?".

Definition notSeparator (c : ascii) : bool := negb (isSeparator c).

(** The pieces of a path between its separators. *)
Fixpoint pieces (s : string) : list string :=
  match s with
  | EmptyString => [EmptyString]
  | String c rest =>
      if isSeparator c then EmptyString :: pieces rest
      else
        match pieces rest with
        | x :: xs => String c x :: xs
        | [] => [String c EmptyString]
        end
  end.

(** The elements at places 1, 3, 5, ... of a list, counted from 0. *)
Fixpoint oddPlaces {A : Type} (l : list A) : list A :=
  match l with
  | _ :: x :: rest => x :: oddPlaces rest
  | _ => []
  end.

(** The pieces of a path that stand where the paths of the client have an
    identifier: after the name of the collection in the paths of users,
    groups and entity types, and after each name of a parameter in the
    others, which start with the name of a resource, or with
    [dataElementAccess] and the kind of element. *)
Definition identifierPieces (l : list string) : list string :=
  match l with
  | [] => []
  | first :: rest =>
      if String.eqb first "users" || String.eqb first "groups"
         || String.eqb first "entityTypes"
      then oddPlaces l
      else if String.eqb first "dataElementAccess" then tl (oddPlaces l)
      else oddPlaces rest
  end.

(** Whether a byte is a continuation byte of UTF-8, [80] to [BF]. *)
Definition isContinuation (b : N) : bool := ((128 <=? b) && (b <=? 191))%N.

(** Whether a string of bytes is the UTF-8 encoding of a string of
    characters: of a JavaScript string in which every surrogate is one of a
    pair.  A lone surrogate would be written [ED A0..BF xx], which is
    refused, as are the bytes no encoding has. *)
Fixpoint isWellFormed (s : string) : bool :=
  match s with
  | EmptyString => true
  | String c1 rest1 =>
      let b1 := N_of_ascii c1 in
      if (b1 <? 128)%N then isWellFormed rest1
      else
        match rest1 with
        | EmptyString => false
        | String c2 rest2 =>
            let b2 := N_of_ascii c2 in
            if ((194 <=? b1) && (b1 <=? 223))%N then
              isContinuation b2 && isWellFormed rest2
            else
              match rest2 with
              | EmptyString => false
              | String c3 rest3 =>
                  let b3 := N_of_ascii c3 in
                  if ((224 <=? b1) && (b1 <=? 239))%N then
                    (if (b1 =? 224)%N then ((160 <=? b2) && (b2 <=? 191))%N
                     else if (b1 =? 237)%N then ((128 <=? b2) && (b2 <=? 159))%N
                     else isContinuation b2)
                    && isContinuation b3 && isWellFormed rest3
                  else
                    match rest3 with
                    | EmptyString => false
                    | String c4 rest4 =>
                        ((240 <=? b1) && (b1 <=? 244))%N
                        && (if (b1 =? 240)%N then ((144 <=? b2) && (b2 <=? 191))%N
                            else if (b1 =? 244)%N then ((128 <=? b2) && (b2 <=? 143))%N
                            else isContinuation b2)
                        && isContinuation b3
                        && isContinuation (N_of_ascii c4)
                        && isWellFormed rest4
                    end
              end
        end
  end.

(** A character of the paths of the client: one of an encoded segment, or one
    of the slash, the question mark and the equals sign of the templates. *)
Definition inPath (c : ascii) : bool :=
  inSegment c || Ascii.eqb c "/" || Ascii.eqb c "?" || Ascii.eqb c "=".

(** The call of the shim a request method makes for a URL. *)
Definition requestOf (this : Client) (p : Primitive) (requestUrl : URL) : Request :=
  {| request_method := primitiveMethod p;
     request_url := href requestUrl;
     request_config := requestConfig this |}.

(** A client as the constructor leaves it. *)
Definition constructed `{JsHost} (this : Client) : Prop :=
  exists σ baseUrl requestConfig σ',
    new_AccessManagerClient σ baseUrl requestConfig = Returned (this, σ').

(** ** A small platform to evaluate on *)

(** The integer a 64-bit float holds for the positive integer [n], below the
    largest float: the nearest, and of two equally near the one with the even
    significand. *)
Definition nearestDouble (n : Z) : Z :=
  let e := Z.log2 n - 52 in
  if e <=? 0 then n
  else
    let q := n / 2 ^ e in
    let r := n mod 2 ^ e in
    let half := 2 ^ (e - 1) in
    (if (half <? r) || ((r =? half) && Z.odd q) then q + 1 else q) * 2 ^ e.

Definition decimalDigits (n : Z) : Z := Z.of_nat (String.length (string_of_Z n)).

(** The number with [k] significant digits that the float [v] of [d] digits
    is printed as, when there is one: a multiple of 10^(d-k) that only [v] is
    nearest to, the closer of two, and of two equally close the even one. *)
Definition printedWith (v d k : Z) : option Z :=
  if d <=? k then Some v
  else
    let p := 10 ^ (d - k) in
    let lo := v / p * p in
    let hi := lo + p in
    match nearestDouble lo =? v, nearestDouble hi =? v with
    | true, true =>
        Some (if v - lo <? hi - v then lo
              else if hi - v <? v - lo then hi
              else if Z.even (lo / p) then lo else hi)
    | true, false => Some lo
    | false, true => Some hi
    | false, false => None
    end.

(** The number with the fewest significant digits that the float [v] is
    printed as; seventeen digits tell any two floats apart. *)
Definition printedAs (v : Z) : Z :=
  let d := decimalDigits v in
  default v
    (foldr (fun k found => match printedWith v d (Z.of_nat k) with
                           | Some w => Some w
                           | None => found
                           end)
           None (seq 1 17)).

Fixpoint stripZeros (s : string) : string :=
  match s with
  | EmptyString => EmptyString
  | String c rest =>
      match stripZeros rest with
      | EmptyString => if Ascii.eqb c "0" then EmptyString else String c EmptyString
      | kept => String c kept
      end
  end.

(** [Number::toString] of a positive integer: plain decimal up to 21 digits,
    beyond that one digit, the further digits after a point, and the
    exponent. *)
Definition positiveNumberText (w : Z) : string :=
  let d := decimalDigits w in
  if d <=? 21 then string_of_Z w
  else
    match stripZeros (string_of_Z w) with
    | EmptyString => string_of_Z w
    | String first EmptyString =>
        String first EmptyString +:+ "e+" +:+ string_of_Z (d - 1)
    | String first further =>
        String first EmptyString +:+ "." +:+ further +:+ "e+" +:+ string_of_Z (d - 1)
    end.

(** A platform for the examples.  Its URL parser accepts every string and
    serialises it unchanged, which is what a parser does with the URLs of the
    examples.  The elements of a string are its characters, the strings of
    the examples being ASCII; those of an object are its properties [0],
    [1], ... below its own [length], for the lengths that are numbers or
    booleans.  An integer beyond the safe integers is printed as the float
    nearest to it. *)
Definition plainHost : JsHost := {|
  URL_new s := Some {| href := s |};
  arrayLikeItems a :=
    match a with
    | JStr s => map (fun c => JStr (String c EmptyString)) (list_ascii_of_string s)
    | JObj props =>
        let item (i : nat) :=
          default JUndefined (ownProperty props (string_of_Z (Z.of_nat i))) in
        match ownProperty props "length" with
        | Some (JNum n) => map item (seq 0 (Z.to_nat n))
        | Some (JBool true) => [item 0%nat]
        | _ => []
        end
    | _ => []
    end;
  numberText n :=
    (if n <? 0 then "-" else EmptyString)
    +:+ positiveNumberText (printedAs (nearestDouble (Z.abs n)))
|}.

Definition upperCaseNames : HttpRequestMethodNames :=
  fun method =>
    match method with
    | Get => "GET"
    | Post => "POST"
    | Delete => "DELETE"
    end.

(** A store with one request configuration, without headers. *)
Definition oneConfigStore : Store := {|
  configs := <[1%positive := {| config_headers := None |}]> ∅;
  headerObjects := ∅
|}.

(** The client the constructor builds in [oneConfigStore] for base URL
    [http://x/] and the configuration held there. *)
Definition exampleClient : Client := {|
  requestConfig := 1%positive;
  baseUrl := {| href := "http://x/api/v1/" |};
  statusCodeToErrorThrowingFunctionMap :=
    InitializeStatusCodeToErrorThrowingFunctionMap (host := plainHost)
|}.

(** The store the constructor leaves: the configuration has received a
    headers object, which holds the [Accept] header. *)
Definition exampleStore : Store := {|
  configs := <[1%positive := {| config_headers := Some 1%positive |}]> ∅;
  headerObjects := <[1%positive := <["Accept" := JStr "application/json"]> ∅]> ∅
|}.

(** The body of a 404 response for a user that does not exist. *)
Definition userNotFoundBody : JsValue :=
  JObj [("error",
         JObj [("code", JStr "UserNotFoundException");
               ("message", JStr "User 'bob' does not exist.");
               ("attributes",
                JArr [JObj [("name", JStr "User"); ("value", JStr "bob")]])])].

(** The record [userNotFoundBody] decodes to. *)
Definition userNotFoundRecord : HttpErrorResponse := {|
  Code := JStr "UserNotFoundException";
  Message := JStr "User 'bob' does not exist.";
  Target := JNull;
  Attributes := [ {| Name := JStr "User"; Value := JStr "bob" |} ];
  InnerError := JNull
|}.

(** A rejection without a response. *)
Definition networkError : AxiosError := {|
  error_status := None;
  error_response := None;
  error_message := "Network Error"
|}.

(** A rejection with status 404 whose response carries [userNotFoundBody]. *)
Definition notFoundRejection : AxiosError := {|
  error_status := Some 404;
  error_response := Some {| response_status := 404; response_data := userNotFoundBody |};
  error_message := "Request failed with status code 404"
|}.

(** One entity, as an element of a response body. *)
Definition companyA : JsValue :=
  JObj [("entityType", JStr "ClientAccount"); ("entity", JStr "CompanyA")].

(** A transport that settles every call the same way and leaves the store
    alone. *)
Definition constantTransport (settled : TransportOutcome) : Transport :=
  fun _ σ => (settled, σ).

(** * Properties *)

(** ** Induction on values *)

Lemma JsValue_nested_ind (P : JsValue -> Prop) :
  P JUndefined -> P JNull ->
  (forall b, P (JBool b)) -> (forall n, P (JNum n)) -> (forall s, P (JStr s)) ->
  (forall items, Forall P items -> P (JArr items)) ->
  (forall props, Forall (fun kv => P (snd kv)) props -> P (JObj props)) ->
  forall v, P v.
Proof.
  intros Hundefined Hnull Hbool Hnum Hstr Harr Hobj.
  fix IH 1. intros [ | | b | n | s | items | props ].
  - exact Hundefined.
  - exact Hnull.
  - apply Hbool.
  - apply Hnum.
  - apply Hstr.
  - apply Harr. induction items as [ | x rest IHrest ]; constructor; [ apply IH | exact IHrest ].
  - apply Hobj. induction props as [ | [k x] rest IHrest ]; constructor; [ apply IH | exact IHrest ].
Qed.

(** ** What the run time can throw *)

Lemma onlyTypeError_Returned {A : Type} (a : A) : onlyTypeError (Returned a).
Proof. intros e He. discriminate He. Qed.

Lemma onlyTypeError_Threw {A : Type} : onlyTypeError (@Threw A TypeError).
Proof. intros e He. injection He as <-. reflexivity. Qed.

Lemma onlyTypeError_bind {A B : Type} (m : Outcome A) (f : A -> Outcome B) :
  onlyTypeError m -> (forall a, onlyTypeError (f a)) -> onlyTypeError (m ≫= f).
Proof.
  intros Hm Hf e. destruct m as [a | e']; simpl.
  - apply Hf.
  - intros He. injection He as <-. apply Hm. reflexivity.
Qed.

Lemma onlyTypeError_if {A : Type} (b : bool) (m1 m2 : Outcome A) :
  onlyTypeError m1 -> onlyTypeError m2 -> onlyTypeError (if b then m1 else m2).
Proof. destruct b; trivial. Qed.

Create HintDb type_errors.
#[local] Hint Resolve onlyTypeError_Returned onlyTypeError_Threw : type_errors.

Lemma hasOwnProperty_onlyTypeError v p : onlyTypeError (hasOwnProperty v p).
Proof.
  destruct v; simpl; auto with type_errors.
  destruct (ownProperty props "hasOwnProperty"); auto with type_errors.
Qed.

Lemma getProperty_onlyTypeError v p : onlyTypeError (getProperty v p).
Proof. destruct v; simpl; auto with type_errors. Qed.

Lemma joinWith_onlyTypeError convert items :
  Forall (fun x => onlyTypeError (convert x)) items -> onlyTypeError (joinWith convert items).
Proof.
  induction 1 as [ | x rest Hx _ IH ]; simpl; auto with type_errors.
  apply onlyTypeError_bind.
  - destruct x; auto with type_errors.
  - intros sx. destruct rest as [ | y rest' ]; auto with type_errors.
    apply onlyTypeError_bind; [ exact IH | intros sr; apply onlyTypeError_Returned ].
Qed.

Lemma ToString_onlyTypeError `{JsHost} v : onlyTypeError (ToString v).
Proof.
  induction v as [ | | b | n | s | items IH | props _ ] using JsValue_nested_ind;
    simpl; auto with type_errors.
  - apply joinWith_onlyTypeError. exact IH.
  - destruct (ownProperty props "toString"); auto with type_errors.
Qed.

Lemma errorMessage_onlyTypeError `{JsHost} v : onlyTypeError (errorMessage v).
Proof.
  unfold errorMessage.
  destruct v; first [ apply onlyTypeError_Returned | apply ToString_onlyTypeError ].
Qed.

Lemma mapOutcome_onlyTypeError {A B : Type} (f : A -> Outcome B) l :
  (forall x, onlyTypeError (f x)) -> onlyTypeError (mapOutcome f l).
Proof.
  intros Hf. induction l as [ | x rest IH ]; simpl; auto with type_errors.
  apply onlyTypeError_bind; [ apply Hf | intros y ].
  apply onlyTypeError_bind; [ exact IH | intros ys; apply onlyTypeError_Returned ].
Qed.

(** Case analysis on every conditional of the goal. *)
Ltac break_if :=
  repeat match goal with
         | |- context [ if ?b then _ else _ ] => destruct b
         end.

Section Properties.

Context `{host : JsHost}.
Context `{names : HttpRequestMethodNames}.

Lemma loopItems_onlyTypeError a : onlyTypeError (loopItems a).
Proof. destruct a; simpl; auto with type_errors. Qed.

Lemma pushAttribute_onlyTypeError item : onlyTypeError (pushAttribute item).
Proof.
  unfold pushAttribute.
  apply onlyTypeError_bind; [ apply getProperty_onlyTypeError | intros n ].
  apply onlyTypeError_bind; [ apply getProperty_onlyTypeError | intros v ].
  apply onlyTypeError_Returned.
Qed.

#[local] Hint Resolve hasOwnProperty_onlyTypeError getProperty_onlyTypeError
  loopItems_onlyTypeError pushAttribute_onlyTypeError mapOutcome_onlyTypeError
  onlyTypeError_if : type_errors.

(** The decoder fails only where the run time does. *)
Lemma Deserialize_onlyTypeError responseData :
  onlyTypeError (DeserializeResponseDataToHttpErrorResponse responseData).
Proof.
  unfold DeserializeResponseDataToHttpErrorResponse.
  assert (Hbody : forall v, v = responseData ->
    onlyTypeError
      (hasError ← hasOwnProperty v P_error;
       if negb hasError then Returned None else
       error ← getProperty v P_error;
       if negb (String.eqb (typeof error) javaScriptObjectType) then Returned None else
       hasCode ← hasOwnProperty error P_code;
       if negb hasCode then Returned None else
       hasMessage ← hasOwnProperty error P_message;
       if negb hasMessage then Returned None else
       code ← getProperty error P_code;
       message ← getProperty error P_message;
       hasTarget ← hasOwnProperty error P_target;
       target ← (if (hasTarget : bool) then getProperty error P_target else Returned JNull);
       hasAttributes ← hasOwnProperty error P_attributes;
       attributes ←
         (if (hasAttributes : bool) then
            attributesArray ← getProperty error P_attributes;
            items ← loopItems attributesArray;
            mapOutcome pushAttribute items
          else Returned []);
       hasInnerError ← hasOwnProperty error P_innerError;
       innerError ← (if (hasInnerError : bool) then getProperty error P_innerError
                     else Returned JNull);
       Returned (Some {| Code := code; Message := message; Target := orNull target;
                         Attributes := attributes; InnerError := orNull innerError |}))).
  { intros v _.
    repeat first
      [ apply onlyTypeError_Returned
      | apply onlyTypeError_if
      | apply onlyTypeError_bind; [ auto with type_errors | intros ? ]
      | solve [ auto with type_errors ] ]. }
  destruct responseData; try apply onlyTypeError_Returned; apply Hbody; reflexivity.
Qed.

(** ** The constructor *)

Lemma SetBaseConstructorParameters_client σ baseUrl0 config this σ' :
  SetBaseConstructorParameters σ baseUrl0 config = Returned (this, σ') ->
  requestConfig this = config
  /\ URL_new (href baseUrl0 +:+ "api/v1/") = Some (baseUrl this)
  /\ statusCodeToErrorThrowingFunctionMap this = InitializeStatusCodeToErrorThrowingFunctionMap.
Proof.
  unfold SetBaseConstructorParameters, InitializeBaseUrl.
  destruct (URL_new (href baseUrl0 +:+ "api/v1/")) as [url | ]; simpl; [ | discriminate ].
  destruct (configs σ !! config) as [cfg | ]; [ | discriminate ].
  match goal with
  | |- context [ configs ?s !! config ≫= config_headers ] =>
      destruct (configs s !! config ≫= config_headers) as [h | ]; [ | discriminate ];
      destruct (headerObjects s !! h) as [hs | ]; [ | discriminate ]
  end.
  intros [= <- _]. auto.
Qed.

Lemma constructed_map this :
  constructed this ->
  statusCodeToErrorThrowingFunctionMap this = InitializeStatusCodeToErrorThrowingFunctionMap.
Proof.
  intros (σ & baseUrl0 & [config | ] & σ' & Hnew); simpl in Hnew;
    apply SetBaseConstructorParameters_client in Hnew; tauto.
Qed.

(** ** Status 404 *)

Lemma attribute_absent attributes name :
  (forall a, In a attributes -> Name a <> JStr name) ->
  GetHttpErrorResponseAttributeValue_from attributes name = JStr EmptyString.
Proof.
  induction attributes as [ | a rest IH ]; intros Hnone; simpl; [ reflexivity | ].
  destruct (Name a) as [ | | flag | n | s | items | props ] eqn:Hname; simpl;
    try (apply IH; intros b Hb; apply Hnone; right; exact Hb).
  destruct (String.eqb_spec s name) as [-> | _].
  - exfalso. apply (Hnone a); [ left; reflexivity | exact Hname ].
  - apply IH. intros b Hb. apply Hnone. right. exact Hb.
Qed.

Lemma attribute_first before a after name :
  (forall b, In b before -> Name b <> JStr name) ->
  Name a = JStr name ->
  GetHttpErrorResponseAttributeValue_from (before ++ a :: after) name = Value a.
Proof.
  intros Hbefore Ha. induction before as [ | b rest IH ]; simpl.
  - rewrite Ha. simpl. rewrite String.eqb_refl. reflexivity.
  - assert (Hrest : GetHttpErrorResponseAttributeValue_from (rest ++ a :: after) name = Value a).
    { apply IH. intros c Hc. apply Hbefore. right. exact Hc. }
    destruct (Name b) as [ | | flag | n | s | items | props ] eqn:Hname; simpl;
      try exact Hrest.
    destruct (String.eqb_spec s name) as [-> | _]; [ | exact Hrest ].
    exfalso. apply (Hbefore b); [ left; reflexivity | exact Hname ].
Qed.

Lemma strictEqualsString_true v s : strictEqualsString v s = true <-> v = JStr s.
Proof.
  destruct v; simpl; try (split; [ discriminate | discriminate ]).
  rewrite String.eqb_eq. split; [ intros -> | intros [= ->] ]; reflexivity.
Qed.

Lemma strictEqualsString_false v s : v <> JStr s -> strictEqualsString v s = false.
Proof.
  intros Hne. destruct (strictEqualsString v s) eqn:Heq; [ | reflexivity ].
  apply strictEqualsString_true in Heq. contradiction.
Qed.

Lemma HandleNonSuccessResponseStatus_404 this method requestUrl responseData r :
  constructed this ->
  DeserializeResponseDataToHttpErrorResponse responseData = Returned (Some r) ->
  HandleNonSuccessResponseStatus this method requestUrl 404 responseData = throwNotFound r.
Proof.
  intros Hthis Hdecode. unfold HandleNonSuccessResponseStatus.
  rewrite Hdecode. simpl. rewrite (constructed_map this Hthis).
  unfold InitializeStatusCodeToErrorThrowingFunctionMap. rewrite lookup_insert_eq. reflexivity.
Qed.

(** C1.  A 404 response whose body decodes to a record [r] with a message
    that converts to the text [m]: each of the four element-not-found codes
    raises an [ElementNotFoundError] with the matching tag and the value
    found under the attribute of that name, every other code raises a
    [NotFoundError] with the value found under [ResourceId]; the value found
    is that of the first attribute carrying the name, and the empty string
    when no attribute carries it, so neither branch fails for a missing
    attribute. *)
Theorem notFound_dispatch this method requestUrl responseData r m :
  constructed this ->
  DeserializeResponseDataToHttpErrorResponse responseData = Returned (Some r) ->
  errorMessage (Message r) = Returned m ->
  let raised := HandleNonSuccessResponseStatus this method requestUrl 404 responseData in
  let found := GetHttpErrorResponseAttributeValue r in
  (Code r = JStr "UserNotFoundException" ->
     raised = Threw (ElementNotFoundError m "User" (found "User")))
  /\ (Code r = JStr "GroupNotFoundException" ->
     raised = Threw (ElementNotFoundError m "Group" (found "Group")))
  /\ (Code r = JStr "EntityTypeNotFoundException" ->
     raised = Threw (ElementNotFoundError m "EntityType" (found "EntityType")))
  /\ (Code r = JStr "EntityNotFoundException" ->
     raised = Threw (ElementNotFoundError m "Entity" (found "Entity")))
  /\ (Code r <> JStr "UserNotFoundException" ->
      Code r <> JStr "GroupNotFoundException" ->
      Code r <> JStr "EntityTypeNotFoundException" ->
      Code r <> JStr "EntityNotFoundException" ->
     raised = Threw (NotFoundError m (found "ResourceId")))
  /\ (forall name,
        (forall a, In a (Attributes r) -> Name a <> JStr name) ->
        found name = JStr EmptyString)
  /\ (forall name before a after,
        Attributes r = before ++ a :: after ->
        (forall b, In b before -> Name b <> JStr name) ->
        Name a = JStr name ->
        found name = Value a).
Proof.
  intros Hthis Hdecode Hmessage raised found. subst raised.
  rewrite (HandleNonSuccessResponseStatus_404 _ _ _ _ _ Hthis Hdecode).
  unfold throwNotFound, new_ElementNotFoundError, new_NotFoundError.
  rewrite Hmessage. simpl.
  repeat split.
  - intros ->. reflexivity.
  - intros ->. reflexivity.
  - intros ->. reflexivity.
  - intros ->. reflexivity.
  - intros Huser Hgroup HentityType Hentity.
    rewrite !strictEqualsString_false by assumption. reflexivity.
  - intros name Hnone. apply attribute_absent. exact Hnone.
  - intros name before a after Hsplit Hbefore Ha.
    unfold found, GetHttpErrorResponseAttributeValue. rewrite Hsplit.
    apply attribute_first; assumption.
Qed.

(** ** Every handled failure is thrown *)

Lemma throwNotFound_throws r :
  exists e, throwNotFound r = Threw e /\ isTransportFailure e = false.
Proof.
  unfold throwNotFound, new_ElementNotFoundError, new_NotFoundError.
  pose proof (errorMessage_onlyTypeError (Message r)) as Honly.
  destruct (errorMessage (Message r)) as [m | e]; simpl.
  - break_if; eexists; split; reflexivity.
  - rewrite (Honly e eq_refl). break_if; eexists; split; reflexivity.
Qed.

(** [HandleNonSuccessResponseStatus] never returns, and what it throws is
    never the error of a failed transport. *)
Lemma HandleNonSuccessResponseStatus_throws this method requestUrl status responseData :
  constructed this ->
  exists e,
    HandleNonSuccessResponseStatus this method requestUrl status responseData = Threw e
    /\ isTransportFailure e = false.
Proof.
  intros Hthis. unfold HandleNonSuccessResponseStatus.
  pose proof (Deserialize_onlyTypeError responseData) as Hdecode.
  destruct (DeserializeResponseDataToHttpErrorResponse responseData) as [[r | ] | e]; simpl.
  - rewrite (constructed_map this Hthis).
    unfold InitializeStatusCodeToErrorThrowingFunctionMap.
    destruct (decide (status = 404)) as [-> | Hstatus].
    + rewrite lookup_insert_eq. apply throwNotFound_throws.
    + rewrite lookup_insert_ne by congruence. rewrite lookup_empty.
      pose proof (ToString_onlyTypeError (Code r)) as Hcode.
      pose proof (ToString_onlyTypeError (Message r)) as Hmessage.
      destruct (ToString (Code r)) as [code | e]; simpl.
      * destruct (ToString (Message r)) as [message | e]; simpl.
        -- eexists; split; reflexivity.
        -- rewrite (Hmessage e eq_refl). eexists; split; reflexivity.
      * rewrite (Hcode e eq_refl). eexists; split; reflexivity.
  - destruct responseData; simpl; eexists; split; reflexivity.
  - rewrite (Hdecode e eq_refl). eexists; split; reflexivity.
Qed.

(** ** Bodies that are not structured errors *)


(** ** A body whose [error] property is [null] *)

(** C5.  The body [{"error": null}] passes the test on [typeof], which is
    ["object"] for [null], and the decoder then calls a method on [null]:
    decoding throws a [TypeError] instead of yielding [null], and the caller
    of [HandleNonSuccessResponseStatus] receives that [TypeError] instead of
    the error describing the response. *)
Theorem decode_error_null this method requestUrl status :
  DeserializeResponseDataToHttpErrorResponse (JObj [("error", JNull)]) = Threw TypeError
  /\ HandleNonSuccessResponseStatus this method requestUrl status (JObj [("error", JNull)])
     = Threw TypeError.
Proof. split; reflexivity. Qed.

(** So do an [attributes] property that is [null] and a [null] element of
    the attributes. *)
Lemma decode_attributes_null :
  let body attributes :=
    JObj [("error", JObj [("code", JStr "E"); ("message", JStr "m");
                          ("attributes", attributes)])] in
  DeserializeResponseDataToHttpErrorResponse (body JNull) = Threw TypeError
  /\ DeserializeResponseDataToHttpErrorResponse (body (JArr [JNull])) = Threw TypeError.
Proof. split; reflexivity. Qed.

Lemma mapOutcome_pushAttribute items :
  Forall (fun item => item <> JNull /\ item <> JUndefined) items ->
  mapOutcome pushAttribute items = Returned (map attributeOfItem items).
Proof.
  induction 1 as [ | item rest [Hnull Hundefined] _ IH ]; [ reflexivity | ].
  simpl. rewrite IH. destruct item; try contradiction; reflexivity.
Qed.

(** Apart from such bodies the decoder does what its description says.  A
    plain object whose [error] property is a plain object with [code] and
    [message] decodes to a record: the code and message as read, the target
    and inner error as read or [null] when absent, and the attributes in the
    order of the array, none when the property is absent. *)
Lemma decode_record props fields code message items :
  ownProperty props "hasOwnProperty" = None ->
  ownProperty props "error" = Some (JObj fields) ->
  ownProperty fields "hasOwnProperty" = None ->
  ownProperty fields "code" = Some code ->
  ownProperty fields "message" = Some message ->
  match ownProperty fields "attributes" with
  | Some attributes => attributes = JArr items
  | None => items = []
  end ->
  Forall (fun item => item <> JNull /\ item <> JUndefined) items ->
  DeserializeResponseDataToHttpErrorResponse (JObj props)
  = Returned (Some {| Code := code;
                      Message := message;
                      Target := orNull (default JNull (ownProperty fields "target"));
                      Attributes := map attributeOfItem items;
                      InnerError :=
                        orNull (default JNull (ownProperty fields "innerError")) |}).
Proof.
  intros Hmethod Herror Hmethod' Hcode Hmessage Hattributes Hitems.
  unfold DeserializeResponseDataToHttpErrorResponse, hasOwnProperty, getProperty.
  simpl. rewrite Hmethod, Herror. simpl. rewrite Hmethod', Hcode, Hmessage. simpl.
  destruct (ownProperty fields "target") as [target | ]; simpl;
    destruct (ownProperty fields "attributes") as [attributes | ]; simpl; subst;
    simpl; rewrite ?(mapOutcome_pushAttribute items Hitems); simpl;
    destruct (ownProperty fields "innerError") as [innerError | ]; reflexivity.
Qed.

(** Bodies that decode to [null]: anything that is not a plain object, an
    object without an [error] property, one whose [error] is not of type
    object or is an array, and one whose [error] object lacks [code] or
    [message]. *)
Lemma decode_null responseData :
  match responseData with
  | JObj props =>
      ownProperty props "hasOwnProperty" = None
      /\ match ownProperty props "error" with
         | None => True
         | Some (JObj fields) =>
             ownProperty fields "hasOwnProperty" = None
             /\ (ownProperty fields "code" = None \/ ownProperty fields "message" = None)
         | Some JNull => False
         | Some _ => True
         end
  | _ => True
  end ->
  DeserializeResponseDataToHttpErrorResponse responseData = Returned None.
Proof.
  destruct responseData as [ | | b | n | s | items | props ]; try reflexivity.
  intros [Hmethod Herror].
  unfold DeserializeResponseDataToHttpErrorResponse, hasOwnProperty, getProperty.
  simpl. rewrite Hmethod.
  destruct (ownProperty props "error") as [[ | | b | n | s | items | fields ] | ];
    try reflexivity; try contradiction.
  simpl. destruct Herror as [Hmethod' [Hcode | Hmessage]]; rewrite Hmethod'.
  - rewrite Hcode. reflexivity.
  - rewrite Hmessage. destruct (ownProperty fields "code"); reflexivity.
Qed.

(** ** Failures of the transport and failures of the application *)

(** C8.  Of a call of any of the four request methods.  When the shim
    rejects it with an error that carries no status, the method throws an
    [Error] whose message names the URL and the method and ends with the
    message of the rejection, and whose cause is the rejection itself.  When
    the rejection carries a status, that status and the body of the response
    the rejection holds are passed to [HandleNonSuccessResponseStatus] (the
    existence check first answers [false] for 404), and what is thrown then
    is never an error of the first kind.  When the shim resolves the call
    with a response, [SendPostRequestAsync] and [SendDeleteRequestAsync] pass
    every status but the one they expect, with the body, to
    [HandleNonSuccessResponseStatus] likewise; the two GET methods pass
    nothing on: whatever the status, [SendGetRequestAsync] returns the body
    and the existence check answers whether the status is 200. *)
Theorem transport_failure this requestUrl transport σ σ' :
  constructed this ->
  let sent p := [(requestOf this p requestUrl, σ)] in
  let thrown p e := run transport σ (send this p requestUrl) = (sent p, Threw e, σ') in
  (forall p typedError,
     transport (requestOf this p requestUrl) σ = (Rejected typedError, σ') ->
     error_status typedError = None ->
     let failure :=
       Error ("Failed to call URL '" +:+ href requestUrl +:+ "' with '" +:+
              HttpRequestMethod_text (primitiveMethod p) +:+ "' method.  " +:+
              error_message typedError)
             (Some (Rejection typedError)) in
     thrown p failure /\ isTransportFailure failure = true)
  /\ (forall p typedError status,
        transport (requestOf this p requestUrl) σ = (Rejected typedError, σ') ->
        error_status typedError = Some status ->
        (p = ViaContains -> status <> 404) ->
        let body :=
          match error_response typedError with
          | Some response => response_data response
          | None => JUndefined
          end in
        exists e,
          HandleNonSuccessResponseStatus this (primitiveMethod p) requestUrl status body
          = Threw e
          /\ thrown p e
          /\ isTransportFailure e = false)
  /\ (forall p expected response,
        (p = ViaPost /\ expected = 201) \/ (p = ViaDelete /\ expected = 200) ->
        transport (requestOf this p requestUrl) σ = (Resolved response, σ') ->
        response_status response <> expected ->
        exists e,
          HandleNonSuccessResponseStatus this (primitiveMethod p) requestUrl
            (response_status response) (response_data response) = Threw e
          /\ thrown p e
          /\ isTransportFailure e = false)
  /\ (forall response,
        transport (requestOf this ViaGet requestUrl) σ = (Resolved response, σ') ->
        run transport σ (send this ViaGet requestUrl)
        = (sent ViaGet, Returned (response_data response), σ')
        /\ run transport σ (send this ViaContains requestUrl)
           = (sent ViaContains, Returned (response_status response =? 200), σ')).
Proof.
  intros Hthis sent thrown. subst sent thrown. cbv beta.
  split; [ | split; [ | split ] ].
  - intros p typedError Hsettled Hstatus failure. split; [ | reflexivity ].
    destruct p; simpl; unfold requestOf in Hsettled; simpl in Hsettled;
      rewrite Hsettled; simpl; unfold catchBlock; rewrite Hstatus; simpl;
      try reflexivity.
  - intros p typedError status Hsettled Hstatus Hcontains body.
    destruct (HandleNonSuccessResponseStatus_throws this (primitiveMethod p) requestUrl
                status body Hthis) as (e & Hthrown & Hkind).
    exists e. split; [ exact Hthrown | ]. split; [ | exact Hkind ].
    subst body.
    destruct p; simpl in *; unfold requestOf in Hsettled; simpl in Hsettled;
      rewrite Hsettled; simpl; unfold catchBlock, responseDataOf; rewrite Hstatus;
      try (rewrite Hthrown; reflexivity).
    rewrite bool_decide_eq_false_2.
    + rewrite Hthrown. reflexivity.
    + intros [= ->]. apply Hcontains; reflexivity.
  - intros p expected response Hexpected Hsettled Hstatus.
    destruct (HandleNonSuccessResponseStatus_throws this (primitiveMethod p) requestUrl
                (response_status response) (response_data response) Hthis)
      as (e & Hthrown & Hkind).
    exists e. split; [ exact Hthrown | ]. split; [ | exact Hkind ].
    apply Z.eqb_neq in Hstatus.
    destruct Hexpected as [[-> ->] | [-> ->]]; simpl in *;
      unfold requestOf in Hsettled; simpl in Hsettled;
      rewrite Hsettled, Hstatus; simpl; rewrite Hthrown; reflexivity.
  - intros response Hsettled. unfold requestOf in Hsettled. simpl in Hsettled.
    split; simpl; rewrite Hsettled; [ reflexivity | ].
    destruct (response_status response =? 200); reflexivity.
Qed.

(** ** The status of a response that was received *)

(** The equivalence, for a request method that compares the status of the
    resolved response with the one it expects, between completing and having
    received that status. *)
Ltac exact_status this requestUrl Hthis :=
  match goal with
  | |- context [ run ?transport ?σ (Await ?request _) ] =>
      let response := fresh "response" in
      let typedError := fresh "typedError" in
      simpl;
      destruct (transport request σ) as [[response | typedError] ?];
      [ destruct (HandleNonSuccessResponseStatus_throws this (request_method request)
                    requestUrl (response_status response) (response_data response) Hthis)
          as (? & Hthrown & _);
        simpl in Hthrown;
        match goal with
        | |- context [ response_status response =? ?expected ] =>
            destruct (Z.eqb_spec (response_status response) expected); simpl;
            [ split;
              [ intros [= <- <-]; exists response; auto
              | intros (? & [= <- <-] & _ & ->); reflexivity ]
            | rewrite Hthrown; simpl;
              split;
              [ discriminate
              | intros (? & [= <- <-] & ? & _); contradiction ] ]
        end
      | unfold catchBlock, HandleAxiosError;
        destruct (error_status typedError) as [status | ]; simpl;
        [ destruct (HandleNonSuccessResponseStatus_throws this (request_method request)
                      requestUrl status (responseDataOf typedError) Hthis)
            as (? & Hthrown & _);
          simpl in Hthrown; rewrite Hthrown; simpl
        | ];
        (split; [ discriminate | intros (? & [=] & _) ]) ]
  end.

(** [SendPostRequestAsync] completes exactly when the call resolved with
    status 201, and [SendDeleteRequestAsync] exactly when it resolved with
    status 200. *)
Lemma post_delete_exact_status this requestUrl transport σ calls σ' :
  constructed this ->
  (run transport σ (SendPostRequestAsync this requestUrl) = (calls, Returned tt, σ')
   <-> exists response,
         transport (requestOf this ViaPost requestUrl) σ = (Resolved response, σ')
         /\ response_status response = 201
         /\ calls = [(requestOf this ViaPost requestUrl, σ)])
  /\ (run transport σ (SendDeleteRequestAsync this requestUrl) = (calls, Returned tt, σ')
   <-> exists response,
         transport (requestOf this ViaDelete requestUrl) σ = (Resolved response, σ')
         /\ response_status response = 200
         /\ calls = [(requestOf this ViaDelete requestUrl, σ)]).
Proof.
  intros Hthis.
  unfold requestOf, SendPostRequestAsync, SendDeleteRequestAsync, primitiveMethod.
  split; exact_status this requestUrl Hthis.
Qed.

(** C3.  [SendGetRequestAsync] does not look at the status of a response the
    shim resolved with: whatever the status, 200 or not, the body is returned
    and nothing is thrown. *)
Theorem get_resolved_any_status this requestUrl transport σ σ' response :
  transport (requestOf this ViaGet requestUrl) σ = (Resolved response, σ') ->
  response_status response <> 200 ->
  run transport σ (SendGetRequestAsync this requestUrl)
  = ([(requestOf this ViaGet requestUrl, σ)], Returned (response_data response), σ').
Proof.
  intros Hsettled _. unfold requestOf in Hsettled. simpl in *. rewrite Hsettled. reflexivity.
Qed.

(** ** Existence checks *)

Context {TUser TGroup TComponent TAccess : Type}.
Context {userStringifier : IUniqueStringifier TUser}.
Context {groupStringifier : IUniqueStringifier TGroup}.
Context {applicationComponentStringifier : IUniqueStringifier TComponent}.
Context {accessLevelStringifier : IUniqueStringifier TAccess}.

#[local] Abbreviation Op := (Operation TUser TGroup TComponent TAccess).

(** What [SendGetRequestForContainsMethodAsync] answers: [true] for a
    response resolved with status 200, [false] for one resolved with any
    other status and for a rejection with status 404; any other rejection is
    thrown. *)
Lemma contains_behaviour this requestUrl transport σ σ' settled :
  constructed this ->
  transport (requestOf this ViaContains requestUrl) σ = (settled, σ') ->
  let request := requestOf this ViaContains requestUrl in
  let completion := run transport σ (SendGetRequestForContainsMethodAsync this requestUrl) in
  match settled with
  | Resolved response =>
      completion = ([(request, σ)], Returned (response_status response =? 200), σ')
  | Rejected typedError =>
      if bool_decide (error_status typedError = Some 404)
      then completion = ([(request, σ)], Returned false, σ')
      else exists e, completion = ([(request, σ)], Threw e, σ')
  end.
Proof.
  intros Hthis Hsettled request completion. subst request completion.
  unfold requestOf in *. simpl in *. rewrite Hsettled.
  destruct settled as [response | typedError].
  - destruct (response_status response =? 200); reflexivity.
  - destruct (bool_decide (error_status typedError = Some 404)); [ reflexivity | ].
    unfold catchBlock, HandleAxiosError.
    destruct (error_status typedError) as [status | ]; simpl.
    + destruct (HandleNonSuccessResponseStatus_throws this Get requestUrl status
                  (responseDataOf typedError) Hthis) as (e & -> & _).
      exists e. reflexivity.
    + eexists. reflexivity.
Qed.

(** C2.  When the shim resolves with a response whose status is not 200, be
    it 500, each of the four [Contains] methods answers [false]: no error is
    raised for a status that is neither 200 nor 404. *)
Theorem contains_resolved_other_status
    this requestUrl transport σ σ' response
    (user : TUser) (group : TGroup) (entityType entity : string) :
  transport (requestOf this ViaContains requestUrl) σ = (Resolved response, σ') ->
  response_status response <> 200 ->
  let answered (op : Op) (completion : list (Request * Store) * Outcome bool * Store) :=
    AppendPathToBaseUrl this (pathOf op) = Returned requestUrl ->
    completion = ([(requestOf this ViaContains requestUrl, σ)], Returned false, σ') in
  answered (ContainsUser user)
    (run transport σ (perform this (ContainsUser user : Op)))
  /\ answered (ContainsGroup group)
       (run transport σ (perform this (ContainsGroup group : Op)))
  /\ answered (ContainsEntityType entityType)
       (run transport σ (perform this (ContainsEntityType entityType : Op)))
  /\ answered (ContainsEntity entityType entity)
       (run transport σ (perform this (ContainsEntity entityType entity : Op))).
Proof.
  intros Hsettled Hstatus answered. subst answered. cbv beta.
  unfold requestOf in Hsettled. simpl in Hsettled.
  apply Z.eqb_neq in Hstatus.
  repeat split; intros Hurl; unfold perform; rewrite Hurl; simpl;
    rewrite Hsettled, Hstatus; reflexivity.
Qed.

(** ** The accessible-by family *)

Lemma append_assoc (a b c : string) : (a +:+ b) +:+ c = a +:+ (b +:+ c).
Proof.
  induction a as [ | x a IH ]; [ reflexivity | ].
  exact (f_equal (String x) IH).
Qed.

(** Each method of the family asks for the indirect mappings, whatever its
    arguments. *)
Lemma accessible_paths (user : TUser) (group : TGroup) (entityType : string) :
  let flagged (op : Op) := exists path, pathOf op = path +:+ "?includeIndirectMappings=true" in
  flagged (GetApplicationComponentsAccessibleByUser user)
  /\ flagged (GetApplicationComponentsAccessibleByGroup group)
  /\ flagged (GetEntitiesAccessibleByUser user)
  /\ flagged (GetEntitiesOfTypeAccessibleByUser user entityType)
  /\ flagged (GetEntitiesAccessibleByGroup group)
  /\ flagged (GetEntitiesOfTypeAccessibleByGroup group entityType).
Proof.
  cbv zeta. repeat split.
  - exists ("userToApplicationComponentAndAccessLevelMappings/user/" +:+ segment user).
    unfold pathOf. rewrite ?append_assoc. reflexivity.
  - exists ("groupToApplicationComponentAndAccessLevelMappings/group/" +:+ segment group).
    unfold pathOf. rewrite ?append_assoc. reflexivity.
  - exists ("userToEntityMappings/user/" +:+ segment user).
    unfold pathOf. rewrite ?append_assoc. reflexivity.
  - exists ("userToEntityMappings/user/" +:+ segment user +:+
            "/entityType/" +:+ encodeURIComponent entityType).
    unfold pathOf. rewrite ?append_assoc. reflexivity.
  - exists ("groupToEntityMappings/group/" +:+ segment group).
    unfold pathOf. rewrite ?append_assoc. reflexivity.
  - exists ("groupToEntityMappings/group/" +:+ segment group +:+
            "/entityType/" +:+ encodeURIComponent entityType).
    unfold pathOf. rewrite ?append_assoc. reflexivity.
Qed.

Lemma existsb_eqb_seq n : existsb (Nat.eqb n) (seq 0 n) = false.
Proof.
  apply not_true_is_false. intros Hexists.
  apply existsb_exists in Hexists as (i & Hin & Heq).
  apply in_seq in Hin. apply Nat.eqb_eq in Heq. lia.
Qed.

(** Adding a newly created object always grows the set: its reference is not
    among those held. *)
Lemma addNewObject_references {T : Type} (results : ObjectSet T) (object : T) :
  references results = seq 0 (length (created results)) ->
  references (addNewObject results object)
  = seq 0 (length (created (addNewObject results object))).
Proof.
  intros Hrefs. unfold addNewObject, Set_add. simpl.
  rewrite Hrefs, existsb_eqb_seq, length_app. simpl.
  rewrite Nat.add_1_r, seq_S. reflexivity.
Qed.

(** The set of entities holds one reference for each element of the array,
    equal elements included. *)
Lemma entitiesOfResults_all_kept items results :
  entitiesOfResults (JArr items) = Returned results ->
  references results = seq 0 (length items)
  /\ length (created results) = length items.
Proof.
  unfold entitiesOfResults. simpl.
  set (f := fun results item => _).
  assert (Hfold : forall acc,
    references acc = seq 0 (length (created acc)) ->
    foldOutcome f acc items = Returned results ->
    references results = seq 0 (length (created results))
    /\ length (created results) = (length (created acc) + length items)%nat).
  { induction items as [ | item rest IH ]; intros acc Hacc; simpl.
    - intros [= <-]. split; [ exact Hacc | lia ].
    - subst f. simpl.
      destruct (getProperty item P_entityType) as [entityType | ]; simpl; [ | discriminate ].
      destruct (getProperty item P_entity) as [entity | ]; simpl; [ | discriminate ].
      intros Hrest. apply IH in Hrest.
      + destruct Hrest as [Hrefs Hlength]. split; [ exact Hrefs | ].
        rewrite Hlength. unfold addNewObject. simpl. rewrite length_app. simpl. lia.
      + apply addNewObject_references. exact Hacc. }
  intros Hresults. apply Hfold in Hresults; [ | reflexivity ].
  destruct Hresults as [Hrefs Hlength]. simpl in Hlength.
  rewrite Hrefs, Hlength. auto.
Qed.

Lemma sameValueZero_sym a b : sameValueZero a b = sameValueZero b a.
Proof.
  destruct a as [ | | x | x | x | x | x ], b as [ | | y | y | y | y | y ];
    simpl; try reflexivity.
  - destruct x, y; reflexivity.
  - apply Z.eqb_sym.
  - apply String.eqb_sym.
Qed.

Lemma distinctUnder_add results x :
  distinctUnder sameValueZero results ->
  distinctUnder sameValueZero (Set_add sameValueZero results x).
Proof.
  unfold Set_add. destruct (existsb (sameValueZero x) results) eqn:Hmember; [ trivial | ].
  induction results as [ | y rest IH ]; simpl.
  - auto.
  - intros [Hy Hrest]. simpl in Hmember. apply orb_false_elim in Hmember as [Hxy Hmember].
    split.
    + rewrite existsb_app, Hy. simpl. rewrite sameValueZero_sym, Hxy. reflexivity.
    + apply IH; assumption.
Qed.

(** The set of entity names holds no value twice. *)
Lemma entityNamesOfResults_distinct rawResults results :
  entityNamesOfResults rawResults = Returned results ->
  distinctUnder sameValueZero results.
Proof.
  unfold entityNamesOfResults.
  destruct (loopItems rawResults) as [items | ]; simpl; [ | discriminate ].
  assert (Hfold : forall acc,
    distinctUnder sameValueZero acc ->
    foldOutcome
      (fun results item =>
         entity ← getProperty item P_entity;
         mret (Set_add sameValueZero results entity)) acc items = Returned results ->
    distinctUnder sameValueZero results).
  { induction items as [ | item rest IH ]; intros acc Hacc; simpl.
    - intros [= <-]. exact Hacc.
    - destruct (getProperty item P_entity) as [entity | ]; simpl; [ | discriminate ].
      apply IH. apply distinctUnder_add. exact Hacc. }
  apply Hfold. exact I.
Qed.

(** C4.  When the body of the response is an array holding the same entity
    twice, [GetEntitiesAccessibleByUser] returns a set of two members: each
    element was made into an object of its own, the set compares references,
    and the two objects have equal fields. *)
Theorem accessible_entities_keep_duplicates
    this (user : TUser) requestUrl transport σ σ' response entityType entity :
  AppendPathToBaseUrl this (pathOf (GetEntitiesAccessibleByUser user : Op))
  = Returned requestUrl ->
  transport (requestOf this ViaGet requestUrl) σ = (Resolved response, σ') ->
  response_data response
  = JArr [JObj [("entityType", entityType); ("entity", entity)];
          JObj [("entityType", entityType); ("entity", entity)]] ->
  exists results,
    run transport σ
      (GetEntitiesAccessibleByUserAsync (TGroup := TGroup) (TComponent := TComponent)
         (TAccess := TAccess) this user)
    = ([(requestOf this ViaGet requestUrl, σ)], Returned results, σ')
    /\ references results = [0; 1]%nat
    /\ objectsOf results = [ {| EntityType := entityType; Entity := entity |};
                             {| EntityType := entityType; Entity := entity |} ].
Proof.
  intros Hurl Hsettled Hbody.
  unfold GetEntitiesAccessibleByUserAsync, perform. rewrite Hurl.
  unfold requestOf in Hsettled. simpl in *. rewrite Hsettled, Hbody. simpl.
  eexists. split; [ reflexivity | ]. split; reflexivity.
Qed.

(** ** Percent-encoded path segments *)

Lemma decode_percentEncode c rest :
  decodeURIComponent (percentEncode c +:+ rest) = String c <$> decodeURIComponent rest.
Proof.
  destruct c as [b0 b1 b2 b3 b4 b5 b6 b7].
  destruct b0, b1, b2, b3, b4, b5, b6, b7; reflexivity.
Qed.

Lemma unreserved_not_percent c : isUnreserved c = true -> Ascii.eqb c "%" = false.
Proof.
  intros Hc. destruct (Ascii.eqb_spec c "%") as [-> | _]; [ discriminate Hc | reflexivity ].
Qed.

Lemma unreserved_not_slash c : isUnreserved c = true -> Ascii.eqb c "/" = false.
Proof.
  intros Hc. destruct (Ascii.eqb_spec c "/") as [-> | _]; [ discriminate Hc | reflexivity ].
Qed.

(** Decoding undoes encoding. *)
Lemma decode_encode s : decodeURIComponent (encodeURIComponent s) = Some s.
Proof.
  induction s as [ | c rest IH ]; [ reflexivity | ].
  simpl. destruct (isUnreserved c) eqn:Hc.
  - simpl. rewrite (unreserved_not_percent c Hc), IH. reflexivity.
  - rewrite decode_percentEncode, IH. reflexivity.
Qed.

Lemma allOf_append test a b : allOf test (a +:+ b) = allOf test a && allOf test b.
Proof.
  induction a as [ | c a IH ]; [ reflexivity | ].
  change (test c && allOf test (a +:+ b) = test c && allOf test a && allOf test b).
  rewrite IH. apply andb_assoc.
Qed.

Lemma percentEncode_inSegment c : allOf inSegment (percentEncode c) = true.
Proof.
  destruct c as [b0 b1 b2 b3 b4 b5 b6 b7].
  destruct b0, b1, b2, b3, b4, b5, b6, b7; reflexivity.
Qed.

(** An encoded string holds nothing but unreserved characters and escapes. *)
Lemma encode_inSegment s : allOf inSegment (encodeURIComponent s) = true.
Proof.
  induction s as [ | c rest IH ]; [ reflexivity | ].
  simpl. destruct (isUnreserved c) eqn:Hc.
  - simpl. unfold inSegment at 1. rewrite Hc, IH. reflexivity.
  - rewrite allOf_append, percentEncode_inSegment, IH. reflexivity.
Qed.

Lemma inSegment_not_slash c : inSegment c = true -> Ascii.eqb c "/" = false.
Proof.
  intros Hc. destruct (Ascii.eqb_spec c "/") as [-> | _]; [ discriminate Hc | reflexivity ].
Qed.

(** A string of segment characters is one piece. *)
Lemma segments_inSegment s : allOf inSegment s = true -> segments s = [s].
Proof.
  induction s as [ | c rest IH ]; [ reflexivity | ].
  simpl. intros Hall. apply andb_prop in Hall as [Hc Hrest].
  rewrite (inSegment_not_slash c Hc), (IH Hrest). reflexivity.
Qed.

Lemma segments_encode s : segments (encodeURIComponent s) = [encodeURIComponent s].
Proof. apply segments_inSegment, encode_inSegment. Qed.

Lemma segments_nonempty s : segments s <> [].
Proof.
  destruct s as [ | c rest ]; simpl; [ discriminate | ].
  destruct (Ascii.eqb c "/"); [ discriminate | ].
  destruct (segments rest); discriminate.
Qed.

(** The pieces of a concatenation: the last piece of the first string and the
    first piece of the second are joined. *)
Lemma segments_append a b :
  segments (a +:+ b)
  = removelast (segments a)
    ++ (List.last (segments a) EmptyString +:+ hd EmptyString (segments b))
    :: tl (segments b).
Proof.
  induction a as [ | c a IH ].
  - change (segments (EmptyString +:+ b)) with (segments b).
    pose proof (segments_nonempty b) as Hne.
    destruct (segments b); [ contradiction | reflexivity ].
  - change (segments (String c (a +:+ b))
            = removelast (segments (String c a))
              ++ (List.last (segments (String c a)) EmptyString
                  +:+ hd EmptyString (segments b)) :: tl (segments b)).
    pose proof (segments_nonempty a) as Hne.
    simpl. rewrite IH.
    destruct (segments a) as [ | x xs ]; [ contradiction | ].
    destruct (Ascii.eqb c "/"); [ reflexivity | ].
    destruct xs as [ | y ys ]; reflexivity.
Qed.



(** A string that ends with a slash has an empty last piece. *)
Lemma last_segment_after_slash before :
  List.last (segments (before +:+ "/")) EmptyString = EmptyString.
Proof.
  rewrite segments_append. simpl.
  match goal with
  | |- List.last (?l ++ [?a; ?b]) _ = _ => change (l ++ [a; b]) with (l ++ [a] ++ [b])
  end.
  rewrite app_assoc. apply List.last_last.
Qed.

(** ** The requests of a method *)

Lemma run_lift {A : Type} transport σ (o : Outcome A) :
  run transport σ (lift o) = ([], o, σ).
Proof. destruct o; reflexivity. Qed.

Lemma run_lift_then_throw {A B : Type} transport σ (o : Outcome A) e :
  exists result : Outcome B, run transport σ (_ ← lift o; Throw e) = ([], result, σ).
Proof. destruct o; eexists; reflexivity. Qed.

(** A request method makes exactly one call of the shim, with the
    configuration of the client, and leaves the store as the shim left it. *)
Lemma run_send this p requestUrl transport σ :
  exists result,
    run transport σ (send this p requestUrl)
    = ([(requestOf this p requestUrl, σ)], result,
       snd (transport (requestOf this p requestUrl) σ)).
Proof.
  unfold requestOf.
  destruct p; simpl;
    destruct (transport _ σ) as [[response | typedError] σ']; simpl;
    break_if; try (eexists; reflexivity).
  - destruct (run_lift_then_throw (B := JsValue) transport σ'
                (catchBlock this Get requestUrl typedError) TypeError) as (result & Hrun).
    simpl in Hrun. rewrite Hrun. eexists; reflexivity.
  - destruct (run_lift_then_throw (B := bool) transport σ'
                (catchBlock this Get requestUrl typedError) TypeError) as (result & Hrun).
    simpl in Hrun. rewrite Hrun. eexists; reflexivity.
  - rewrite run_lift. eexists; reflexivity.
  - destruct (run_lift_then_throw (B := unit) transport σ'
                (catchBlock this Post requestUrl typedError) TypeError) as (result & Hrun).
    simpl in Hrun. rewrite Hrun. eexists; reflexivity.
  - rewrite run_lift. eexists; reflexivity.
  - destruct (run_lift_then_throw (B := unit) transport σ'
                (catchBlock this Delete requestUrl typedError) TypeError) as (result & Hrun).
    simpl in Hrun. rewrite Hrun. eexists; reflexivity.
Qed.

(** A public method makes no call when its URL does not parse, and one call
    otherwise. *)
Lemma run_perform this (op : Op) transport σ :
  (exists e, AppendPathToBaseUrl this (pathOf op) = Threw e
             /\ run transport σ (perform this op) = ([], Threw e, σ))
  \/ (exists requestUrl result,
        AppendPathToBaseUrl this (pathOf op) = Returned requestUrl
        /\ run transport σ (perform this op)
           = ([(requestOf this (primitiveOf op) requestUrl, σ)], result,
              snd (transport (requestOf this (primitiveOf op) requestUrl) σ))).
Proof.
  unfold perform.
  destruct (AppendPathToBaseUrl this (pathOf op)) as [requestUrl | e].
  - right. destruct (run_send this (primitiveOf op) requestUrl transport σ) as (result & Hrun).
    exists requestUrl, result. auto.
  - left. exists e. auto.
Qed.

(** ** The request configuration *)

(** C9.  Construction with a configuration supplied by the caller keeps that
    very object as the client's configuration and writes the header
    [Accept: application/json] into it: into the headers object the
    configuration already has, whose other headers stay, or into a new
    headers object when it has none; no other configuration is touched.
    Every call a public method makes passes that configuration, so it carries
    the header for as long as the object holds it, and a method changes
    nothing in the store beyond what the shim itself does. *)
Theorem accept_header σ baseUrl0 config this σ1 :
  new_AccessManagerClient σ baseUrl0 (Some config) = Returned (this, σ1) ->
  requestConfig this = config
  /\ headerOf σ1 config "Accept" = Some (JStr "application/json")
  /\ (forall other, other <> config -> configs σ1 !! other = configs σ !! other)
  /\ match configs σ !! config ≫= config_headers with
     | Some h =>
         configs σ1 = configs σ
         /\ exists hs,
              headerObjects σ !! h = Some hs
              /\ headerObjects σ1
                 = <[h := <["Accept" := JStr "application/json"]> hs]> (headerObjects σ)
     | None =>
         exists h,
           headerObjects σ !! h = None
           /\ configs σ1 = <[config := {| config_headers := Some h |}]> (configs σ)
           /\ headerObjects σ1
              = <[h := <["Accept" := JStr "application/json"]> ∅]> (headerObjects σ)
     end
  /\ forall (op : Op) transport σ2 calls result σ3 value,
       headerOf σ2 config "Accept" = Some value ->
       run transport σ2 (perform this op) = (calls, result, σ3) ->
       Forall (fun call =>
                 request_config (fst call) = config
                 /\ headerOf (snd call) (request_config (fst call)) "Accept" = Some value)
              calls
       /\ ((forall request σ', snd (transport request σ') = σ') -> σ3 = σ2).
Proof.
  intros Hnew. simpl in Hnew.
  assert (Hconfig : requestConfig this = config).
  { apply SetBaseConstructorParameters_client in Hnew. tauto. }
  split; [ exact Hconfig | ].
  assert (Hstore :
    headerOf σ1 config "Accept" = Some (JStr "application/json")
    /\ (forall other, other <> config -> configs σ1 !! other = configs σ !! other)
    /\ match configs σ !! config ≫= config_headers with
       | Some h =>
           configs σ1 = configs σ
           /\ exists hs,
                headerObjects σ !! h = Some hs
                /\ headerObjects σ1
                   = <[h := <["Accept" := JStr "application/json"]> hs]> (headerObjects σ)
       | None =>
           exists h,
             headerObjects σ !! h = None
             /\ configs σ1 = <[config := {| config_headers := Some h |}]> (configs σ)
             /\ headerObjects σ1
                = <[h := <["Accept" := JStr "application/json"]> ∅]> (headerObjects σ)
       end).
  { unfold SetBaseConstructorParameters in Hnew.
    destruct (InitializeBaseUrl baseUrl0) as [url | ]; simpl in Hnew; [ | discriminate ].
    destruct (configs σ !! config) as [[[h | ]] | ] eqn:Hcfg; simpl in Hnew; [ | | discriminate ].
    - rewrite Hcfg in Hnew. simpl in Hnew.
      destruct (headerObjects σ !! h) as [hs | ] eqn:Hhs; [ | discriminate ].
      injection Hnew as <- <-. unfold headerOf. simpl. rewrite Hcfg. simpl.
      rewrite !lookup_insert_eq. simpl. rewrite lookup_insert_eq.
      repeat split; eauto.
    - rewrite lookup_insert_eq in Hnew. simpl in Hnew.
      rewrite lookup_insert_eq in Hnew.
      injection Hnew as <- <-. unfold headerOf. simpl.
      rewrite !lookup_insert_eq. simpl. rewrite !lookup_insert_eq. simpl.
      rewrite lookup_insert_eq.
      repeat split.
      + intros other Hother. rewrite lookup_insert_ne by congruence. reflexivity.
      + exists (fresh (dom (headerObjects σ))). repeat split.
        * apply not_elem_of_dom. apply is_fresh.
        * rewrite insert_insert_eq. reflexivity. }
  destruct Hstore as (Hheader & Hothers & Hwritten).
  repeat (split; [ assumption | ]).
  intros op transport σ2 calls result σ3 value Hvalue Hrun.
  destruct (run_perform this op transport σ2)
    as [(e & _ & Hrun') | (requestUrl & result' & _ & Hrun')];
    rewrite Hrun' in Hrun; injection Hrun as <- <- <-.
  - split; [ constructor | reflexivity ].
  - split.
    + constructor; [ | constructor ]. simpl. rewrite Hconfig. auto.
    + intros Hpure. apply Hpure.
Qed.

(** ** Composing URLs *)


(** ** Adding a user *)

(** C7.  On a platform that parses [http://x/api/v1/] and
    [http://x/api/v1/users/alice] to themselves, a client constructed for the
    base [http://x/] has the base [http://x/api/v1/], and [AddUser] for the
    user [alice] under the identity stringifier makes one call, a POST to
    [http://x/api/v1/users/alice], and completes when it resolves with status
    201.  For every user, the path given to [AddUser] is [users/] followed by
    the encoded identifier, which is one piece of the path, and decoding it
    gives the identifier back. *)
Theorem add_user_alice σ config this σ1 transport response σ2 :
  URL_new "http://x/api/v1/" = Some {| href := "http://x/api/v1/" |} ->
  URL_new "http://x/api/v1/users/alice" = Some {| href := "http://x/api/v1/users/alice" |} ->
  new_AccessManagerClient σ {| href := "http://x/" |} config = Returned (this, σ1) ->
  let request := {| request_method := Post;
                    request_url := "http://x/api/v1/users/alice";
                    request_config := requestConfig this |} in
  transport request σ1 = (Resolved response, σ2) ->
  response_status response = 201 ->
  baseUrl this = {| href := "http://x/api/v1/" |}
  /\ run transport σ1
       (perform (userStringifier := StringUniqueStringifier) this
          (AddUser "alice" : Operation string TGroup TComponent TAccess))
     = ([(request, σ1)], Returned tt, σ2)
  /\ forall user : TUser,
       pathOf (AddUser user : Op) = "users/" +:+ segment user
       /\ segments (pathOf (AddUser user : Op)) = ["users"; segment user]
       /\ decodeURIComponent (segment user) = Some (Stringifier_ToString user).
Proof.
  intros Hbase Hurl Hnew request Hsettled Hstatus.
  assert (Hthis : baseUrl this = {| href := "http://x/api/v1/" |}).
  { assert (Hparsed : URL_new (href {| href := "http://x/" |} +:+ "api/v1/")
                      = Some (baseUrl this)).
    { destruct config as [config | ]; simpl in Hnew;
        apply SetBaseConstructorParameters_client in Hnew; tauto. }
    change (URL_new "http://x/api/v1/" = Some (baseUrl this)) in Hparsed.
    rewrite Hbase in Hparsed. injection Hparsed as <-. reflexivity. }
  split; [ exact Hthis | ]. split.
  - unfold perform, AppendPathToBaseUrl. rewrite Hthis.
    change (href {| href := "http://x/api/v1/" |}
            +:+ pathOf (userStringifier := StringUniqueStringifier)
                  (AddUser "alice" : Operation string TGroup TComponent TAccess))
      with "http://x/api/v1/users/alice".
    rewrite Hurl. simpl. subst request. simpl in Hsettled.
    rewrite Hsettled, Hstatus. reflexivity.
  - intros user. split; [ reflexivity | ]. split.
    + unfold pathOf, segment.
      change (segments ("users/" +:+ encodeURIComponent (Stringifier_ToString user)))
        with ("users" :: segments (encodeURIComponent (Stringifier_ToString user))).
      rewrite segments_encode. reflexivity.
    + apply decode_encode.
Qed.

End Properties.

(** * The properties on the small platform *)

Lemma exampleClient_constructed : @constructed plainHost exampleClient.
Proof.
  exists oneConfigStore, {| href := "http://x/" |}, (Some 1%positive), exampleStore.
  reflexivity.
Qed.

Lemma notFound_dispatch_witness :
  @HandleNonSuccessResponseStatus plainHost upperCaseNames exampleClient Get
    {| href := "http://x/api/v1/users/bob" |} 404 userNotFoundBody
  = Threw (ElementNotFoundError "User 'bob' does not exist." "User" (JStr "bob")).
Proof.
  pose proof (@notFound_dispatch plainHost upperCaseNames exampleClient Get
                {| href := "http://x/api/v1/users/bob" |} userNotFoundBody
                userNotFoundRecord "User 'bob' does not exist."
                exampleClient_constructed eq_refl eq_refl) as Hdispatch.
  cbv zeta in Hdispatch. destruct Hdispatch as (Huser & _).
  apply Huser. reflexivity.
Defined.

Lemma contains_resolved_other_status_witness :
  run (constantTransport (Resolved {| response_status := 500; response_data := JNull |}))
    exampleStore
    (@perform plainHost upperCaseNames string string string string
       StringUniqueStringifier StringUniqueStringifier StringUniqueStringifier
       StringUniqueStringifier exampleClient (ContainsUser "bob"))
  = ([(requestOf exampleClient ViaContains {| href := "http://x/api/v1/users/bob" |},
       exampleStore)],
     Returned false, exampleStore).
Proof.
  pose proof (@contains_resolved_other_status plainHost upperCaseNames string string string
                string StringUniqueStringifier StringUniqueStringifier
                StringUniqueStringifier StringUniqueStringifier exampleClient
                {| href := "http://x/api/v1/users/bob" |}
                (constantTransport
                   (Resolved {| response_status := 500; response_data := JNull |}))
                exampleStore exampleStore
                {| response_status := 500; response_data := JNull |}
                "bob" "staff" "ClientAccount" "CompanyA" eq_refl) as Hanswer.
  cbv zeta beta in Hanswer. destruct Hanswer as (Huser & _).
  - simpl. lia.
  - apply Huser. reflexivity.
Defined.

Lemma get_resolved_any_status_witness :
  run (constantTransport (Resolved {| response_status := 500; response_data := JStr "oops" |}))
    exampleStore
    (@SendGetRequestAsync plainHost upperCaseNames exampleClient
       {| href := "http://x/api/v1/users" |})
  = ([(requestOf exampleClient ViaGet {| href := "http://x/api/v1/users" |}, exampleStore)],
     Returned (JStr "oops"), exampleStore).
Proof.
  apply (@get_resolved_any_status plainHost upperCaseNames exampleClient
           {| href := "http://x/api/v1/users" |}
           (constantTransport
              (Resolved {| response_status := 500; response_data := JStr "oops" |}))
           exampleStore exampleStore
           {| response_status := 500; response_data := JStr "oops" |}).
  - reflexivity.
  - simpl. lia.
Defined.

Lemma accessible_entities_keep_duplicates_witness :
  exists results,
    run (constantTransport
           (Resolved {| response_status := 200; response_data := JArr [companyA; companyA] |}))
      exampleStore
      (@GetEntitiesAccessibleByUserAsync plainHost upperCaseNames string string string string
         StringUniqueStringifier StringUniqueStringifier StringUniqueStringifier
         StringUniqueStringifier exampleClient "bob")
    = ([(requestOf exampleClient ViaGet
           {| href := "http://x/api/v1/userToEntityMappings/user/bob?includeIndirectMappings=true" |},
         exampleStore)],
       Returned results, exampleStore)
    /\ references results = [0; 1]%nat
    /\ objectsOf results
       = [ {| EntityType := JStr "ClientAccount"; Entity := JStr "CompanyA" |};
           {| EntityType := JStr "ClientAccount"; Entity := JStr "CompanyA" |} ].
Proof.
  apply (@accessible_entities_keep_duplicates plainHost upperCaseNames string string string
           string StringUniqueStringifier StringUniqueStringifier StringUniqueStringifier
           StringUniqueStringifier exampleClient "bob"
           {| href := "http://x/api/v1/userToEntityMappings/user/bob?includeIndirectMappings=true" |}
           (constantTransport
              (Resolved {| response_status := 200;
                           response_data := JArr [companyA; companyA] |}))
           exampleStore exampleStore
           {| response_status := 200; response_data := JArr [companyA; companyA] |}
           (JStr "ClientAccount") (JStr "CompanyA")); reflexivity.
Defined.


Lemma add_user_alice_witness :
  run (constantTransport (Resolved {| response_status := 201; response_data := JUndefined |}))
    exampleStore
    (@perform plainHost upperCaseNames string string string string
       StringUniqueStringifier StringUniqueStringifier StringUniqueStringifier
       StringUniqueStringifier exampleClient (AddUser "alice"))
  = ([({| request_method := Post; request_url := "http://x/api/v1/users/alice";
          request_config := 1%positive |}, exampleStore)],
     Returned tt, exampleStore).
Proof.
  pose proof (@add_user_alice plainHost upperCaseNames string string string string
                StringUniqueStringifier StringUniqueStringifier StringUniqueStringifier
                StringUniqueStringifier oneConfigStore (Some 1%positive) exampleClient
                exampleStore
                (constantTransport
                   (Resolved {| response_status := 201; response_data := JUndefined |}))
                {| response_status := 201; response_data := JUndefined |} exampleStore
                eq_refl eq_refl) as Hadd.
  cbv zeta in Hadd. destruct Hadd as (_ & Hrun & _).
  - reflexivity.
  - reflexivity.
  - reflexivity.
  - exact Hrun.
Defined.

Lemma transport_failure_witness :
  run (constantTransport (Rejected networkError)) exampleStore
    (@send plainHost upperCaseNames exampleClient ViaPost
       {| href := "http://x/api/v1/users/alice" |})
  = ([(requestOf exampleClient ViaPost {| href := "http://x/api/v1/users/alice" |},
       exampleStore)],
     Threw (Error "Failed to call URL 'http://x/api/v1/users/alice' with 'POST' method.  Network Error"
                  (Some (Rejection networkError))),
     exampleStore)
  /\ run (constantTransport (Rejected notFoundRejection)) exampleStore
       (@send plainHost upperCaseNames exampleClient ViaPost
          {| href := "http://x/api/v1/users/alice" |})
     = ([(requestOf exampleClient ViaPost {| href := "http://x/api/v1/users/alice" |},
          exampleStore)],
        Threw (ElementNotFoundError "User 'bob' does not exist." "User" (JStr "bob")),
        exampleStore)
  /\ run (constantTransport
            (Resolved {| response_status := 500; response_data := userNotFoundBody |}))
       exampleStore
       (@send plainHost upperCaseNames exampleClient ViaGet
          {| href := "http://x/api/v1/users" |})
     = ([(requestOf exampleClient ViaGet {| href := "http://x/api/v1/users" |},
          exampleStore)],
        Returned userNotFoundBody, exampleStore).
Proof.
  split; [ | split ].
  - pose proof (@transport_failure plainHost upperCaseNames exampleClient
                  {| href := "http://x/api/v1/users/alice" |}
                  (constantTransport (Rejected networkError)) exampleStore exampleStore
                  exampleClient_constructed) as Hfailure.
    cbv zeta beta in Hfailure. destruct Hfailure as (Hnetwork & _).
    destruct (Hnetwork ViaPost networkError eq_refl eq_refl) as (Hrun & _). exact Hrun.
  - pose proof (@transport_failure plainHost upperCaseNames exampleClient
                  {| href := "http://x/api/v1/users/alice" |}
                  (constantTransport (Rejected notFoundRejection)) exampleStore exampleStore
                  exampleClient_constructed) as Hfailure.
    cbv zeta beta in Hfailure. destruct Hfailure as (_ & Hstatus & _).
    destruct (Hstatus ViaPost notFoundRejection 404 eq_refl eq_refl)
      as (e & Hthrown & Hrun & _).
    + discriminate.
    + change (@Threw unit
                (ElementNotFoundError "User 'bob' does not exist." "User" (JStr "bob"))
              = Threw e) in Hthrown.
      injection Hthrown as <-. exact Hrun.
  - pose proof (@transport_failure plainHost upperCaseNames exampleClient
                  {| href := "http://x/api/v1/users" |}
                  (constantTransport
                     (Resolved {| response_status := 500;
                                  response_data := userNotFoundBody |}))
                  exampleStore exampleStore exampleClient_constructed) as Hfailure.
    cbv zeta beta in Hfailure. destruct Hfailure as (_ & _ & _ & Hresolved).
    destruct (Hresolved {| response_status := 500; response_data := userNotFoundBody |}
                eq_refl) as (Hrun & _).
    exact Hrun.
Defined.

Lemma accept_header_witness :
  headerOf exampleStore 1%positive "Accept" = Some (JStr "application/json").
Proof.
  pose proof (@accept_header plainHost upperCaseNames string string string string
                StringUniqueStringifier StringUniqueStringifier StringUniqueStringifier
                StringUniqueStringifier oneConfigStore {| href := "http://x/" |}
                1%positive exampleClient exampleStore) as Hheader.
  destruct Hheader as (_ & Haccept & _).
  - reflexivity.
  - exact Haccept.
Defined.


(** * Further properties *)

(** ** Whole methods *)

Lemma run_bind_lift {A B : Type} transport σ (p : Prog A) (f : A -> Outcome B) :
  run transport σ (r ← p; lift (f r))
  = (fst (fst (run transport σ p)), snd (fst (run transport σ p)) ≫= f,
     snd (run transport σ p)).
Proof.
  revert σ. induction p as [ a | e | request k IH ]; intros σ.
  - simpl. destruct (f a); reflexivity.
  - reflexivity.
  - change (run transport σ (r ← Await request k; lift (f r)))
      with (let '(settled, σ') := transport request σ in
            let '(calls, result, σ'') := run transport σ' (r ← k settled; lift (f r)) in
            ((request, σ) :: calls, result, σ'')).
    simpl. destruct (transport request σ) as [settled σ1].
    rewrite IH. destruct (run transport σ1 (k settled)) as [[calls result] σ2].
    reflexivity.
Qed.

Section FurtherProperties.

Context `{host : JsHost}.
Context `{names : HttpRequestMethodNames}.
Context {TUser TGroup TComponent TAccess : Type}.
Context {userStringifier : IUniqueStringifier TUser}.
Context {groupStringifier : IUniqueStringifier TGroup}.
Context {applicationComponentStringifier : IUniqueStringifier TComponent}.
Context {accessLevelStringifier : IUniqueStringifier TAccess}.

#[local] Abbreviation Op := (Operation TUser TGroup TComponent TAccess).

(** A method whose URL parses runs its request method and reads what it
    returned. *)
Lemma run_invoke this (op : Op) requestUrl transport σ :
  AppendPathToBaseUrl this (pathOf op) = Returned requestUrl ->
  run transport σ (invoke this op)
  = (fst (fst (run transport σ (send this (primitiveOf op) requestUrl))),
     snd (fst (run transport σ (send this (primitiveOf op) requestUrl))) ≫= readResult op,
     snd (run transport σ (send this (primitiveOf op) requestUrl))).
Proof.
  intros Hurl. unfold invoke. rewrite run_bind_lift.
  unfold perform. rewrite Hurl. reflexivity.
Qed.

Lemma run_invoke_no_url this (op : Op) e transport σ :
  AppendPathToBaseUrl this (pathOf op) = Threw e ->
  run transport σ (invoke this op) = ([], Threw e, σ).
Proof.
  intros Hurl. unfold invoke. rewrite run_bind_lift.
  unfold perform. rewrite Hurl. reflexivity.
Qed.

(** X7.  Every public method makes at most one call of the shim.  When the
    URL composed from the base and the path does not parse, it makes none and
    throws the [TypeError] of the URL constructor; otherwise it makes exactly
    one, with the method of its request method, the [href] of the parsed URL
    and the configuration of the client, and leaves the store as the shim
    left it. *)
Theorem one_request_per_method this (op : Op) transport σ :
  match URL_new (href (baseUrl this) +:+ pathOf op) with
  | None => run transport σ (invoke this op) = ([], Threw TypeError, σ)
  | Some requestUrl =>
      let request := {| request_method := primitiveMethod (primitiveOf op);
                        request_url := href requestUrl;
                        request_config := requestConfig this |} in
      fst (fst (run transport σ (invoke this op))) = [(request, σ)]
      /\ snd (run transport σ (invoke this op)) = snd (transport request σ)
  end.
Proof.
  destruct (URL_new (href (baseUrl this) +:+ pathOf op)) as [requestUrl | ] eqn:Hparse.
  - assert (Hurl : AppendPathToBaseUrl this (pathOf op) = Returned requestUrl).
    { unfold AppendPathToBaseUrl. rewrite Hparse. reflexivity. }
    rewrite (run_invoke _ _ _ _ _ Hurl).
    destruct (run_send this (primitiveOf op) requestUrl transport σ) as (result & ->).
    simpl. split; reflexivity.
  - apply run_invoke_no_url. unfold AppendPathToBaseUrl. rewrite Hparse. reflexivity.
Qed.

(** ** Statuses without a registered function *)

(** X1.  Only status 404 has a function registered.  For every other status
    a body that decodes to a record, whose code and message convert to the
    texts [code] and [message], raises a plain [Error] without cause whose
    message names the URL, the method and the status, then the code and the
    message. *)
Theorem generic_error_other_status
    this method requestUrl status responseData r code message :
  constructed this ->
  status <> 404 ->
  DeserializeResponseDataToHttpErrorResponse responseData = Returned (Some r) ->
  ToString (Code r) = Returned code ->
  ToString (Message r) = Returned message ->
  HandleNonSuccessResponseStatus this method requestUrl status responseData
  = Threw (Error ("Failed to call URL '" +:+ href requestUrl +:+ "' with '" +:+
                  HttpRequestMethod_text method +:+
                  "' method.  Received non-succces HTTP response status " +:+
                  string_of_Z status +:+
                  ", error code '" +:+ code +:+ "', and error message '" +:+
                  message +:+ "'.") None).
Proof.
  intros Hthis Hstatus Hdecode Hcode Hmessage.
  unfold HandleNonSuccessResponseStatus. rewrite Hdecode. simpl.
  rewrite (constructed_map this Hthis).
  unfold InitializeStatusCodeToErrorThrowingFunctionMap.
  rewrite lookup_insert_ne by congruence. rewrite lookup_empty.
  rewrite Hcode, Hmessage. simpl.
  unfold baseExceptionMessage. rewrite !append_assoc. reflexivity.
Qed.

(** ** Bodies that are not error objects *)

(** X5.  A body that is a string, a number, a boolean or an array, and an
    object that has no own [error] property and no own property named
    [hasOwnProperty] (which would shadow the method the decoder calls), is
    never a structured error: whatever the status, 404 included, a plain
    [Error] is raised whose message ends with the rendering of the body: the
    string itself, what [Number::toString] prints for the number (all the
    decimal digits of a safe integer), the boolean as text, and the
    [JSON.stringify] text of an array or an object. *)
Theorem unstructured_bodies this method requestUrl status responseData :
  match responseData with
  | JStr _ | JNum _ | JBool _ | JArr _ => True
  | JObj props =>
      ownProperty props "hasOwnProperty" = None /\ ownProperty props "error" = None
  | JUndefined | JNull => False
  end ->
  exists rendering,
    HandleNonSuccessResponseStatus this method requestUrl status responseData
    = Threw (Error (baseExceptionMessage method requestUrl status +:+
                    ", and response body '" +:+ rendering +:+ "'.") None)
    /\ match responseData with
       | JStr s => rendering = s
       | JNum n =>
           rendering = Number_toString n
           /\ (Z.abs n <= MAX_SAFE_INTEGER -> rendering = string_of_Z n)
       | JBool b => rendering = string_of_bool b
       | _ => JSON_stringify responseData = Some rendering
       end.
Proof.
  intros Hshape.
  assert (Hdecode : DeserializeResponseDataToHttpErrorResponse responseData = Returned None).
  { apply decode_null. destruct responseData; try exact I.
    destruct Hshape as [Hmethod Herror]. rewrite Herror. auto. }
  unfold HandleNonSuccessResponseStatus. rewrite Hdecode.
  destruct responseData; try contradiction; simpl; eexists;
    (split; [ reflexivity | ]); try reflexivity.
  split; [ reflexivity | ]. intros Hsafe. unfold Number_toString.
  apply Z.leb_le in Hsafe. rewrite Hsafe. reflexivity.
Qed.

(** ** Status 404 through a method *)

(** A rejection with a status, other than the 404 of an existence check,
    makes the request method throw what [HandleNonSuccessResponseStatus]
    throws. *)
Lemma send_rejected_status this p requestUrl transport σ σ' typedError status e :
  (p = ViaContains -> status <> 404) ->
  transport (requestOf this p requestUrl) σ = (Rejected typedError, σ') ->
  error_status typedError = Some status ->
  HandleNonSuccessResponseStatus this (primitiveMethod p) requestUrl status
    (responseDataOf typedError) = Threw e ->
  run transport σ (send this p requestUrl)
  = ([(requestOf this p requestUrl, σ)], Threw e, σ').
Proof.
  intros Hcontains Hsettled Hstatus Hthrown. unfold requestOf in *.
  destruct p; simpl in *; rewrite Hsettled; simpl; unfold catchBlock;
    rewrite Hstatus; try (rewrite Hthrown; reflexivity).
  rewrite bool_decide_eq_false_2.
  - rewrite Hthrown. reflexivity.
  - intros [= ->]. apply Hcontains; reflexivity.
Qed.

(** X6.  When the call of a method other than an existence check is rejected
    with status 404 and a body that decodes to a record whose message
    converts to the text [m], the method throws what the function registered
    for 404 throws: an [ElementNotFoundError] tagged [User], [Group],
    [EntityType] or [Entity] for the four element-not-found codes, a
    [NotFoundError] with the [ResourceId] attribute for every other code. *)
Theorem notFound_through_method
    this (op : Op) requestUrl transport σ σ' typedError r m :
  constructed this ->
  primitiveOf op <> ViaContains ->
  AppendPathToBaseUrl this (pathOf op) = Returned requestUrl ->
  transport (requestOf this (primitiveOf op) requestUrl) σ = (Rejected typedError, σ') ->
  error_status typedError = Some 404 ->
  DeserializeResponseDataToHttpErrorResponse (responseDataOf typedError)
  = Returned (Some r) ->
  errorMessage (Message r) = Returned m ->
  let thrown e :=
    run transport σ (invoke this op)
    = ([(requestOf this (primitiveOf op) requestUrl, σ)], Threw e, σ') in
  let found := GetHttpErrorResponseAttributeValue r in
  (Code r = JStr "UserNotFoundException" ->
     thrown (ElementNotFoundError m "User" (found "User")))
  /\ (Code r = JStr "GroupNotFoundException" ->
     thrown (ElementNotFoundError m "Group" (found "Group")))
  /\ (Code r = JStr "EntityTypeNotFoundException" ->
     thrown (ElementNotFoundError m "EntityType" (found "EntityType")))
  /\ (Code r = JStr "EntityNotFoundException" ->
     thrown (ElementNotFoundError m "Entity" (found "Entity")))
  /\ (Code r <> JStr "UserNotFoundException" ->
      Code r <> JStr "GroupNotFoundException" ->
      Code r <> JStr "EntityTypeNotFoundException" ->
      Code r <> JStr "EntityNotFoundException" ->
     thrown (NotFoundError m (found "ResourceId"))).
Proof.
  intros Hthis Hprimitive Hurl Hsettled Hstatus Hdecode Hmessage thrown found.
  assert (Hrun : forall e,
    throwNotFound r = Threw e ->
    run transport σ (invoke this op)
    = ([(requestOf this (primitiveOf op) requestUrl, σ)], Threw e, σ')).
  { intros e He. rewrite (run_invoke _ _ _ _ _ Hurl).
    pose proof (HandleNonSuccessResponseStatus_404 this (primitiveMethod (primitiveOf op))
                  requestUrl _ r Hthis Hdecode) as Hhandled.
    rewrite He in Hhandled.
    rewrite (send_rejected_status this (primitiveOf op) requestUrl transport σ σ'
               typedError 404 e); [ reflexivity | | assumption .. ].
    intros Hcontra. contradiction. }
  subst thrown. cbv beta.
  unfold throwNotFound, new_ElementNotFoundError, new_NotFoundError in Hrun.
  rewrite Hmessage in Hrun. simpl in Hrun.
  repeat split.
  - intros Hcode. apply Hrun. rewrite Hcode. reflexivity.
  - intros Hcode. apply Hrun. rewrite Hcode. reflexivity.
  - intros Hcode. apply Hrun. rewrite Hcode. reflexivity.
  - intros Hcode. apply Hrun. rewrite Hcode. reflexivity.
  - intros Huser Hgroup HentityType Hentity. apply Hrun.
    rewrite !strictEqualsString_false by assumption. reflexivity.
Qed.

(** ** When a method completes *)

(** A request method completes exactly when the call resolved, with the
    status it expects where it checks one, or, for the existence check, when
    the call was rejected with status 404. *)
Lemma send_completes this p requestUrl transport σ σ' :
  constructed this ->
  (exists calls (result : primitiveResult p),
     run transport σ (send this p requestUrl) = (calls, Returned result, σ'))
  <-> match transport (requestOf this p requestUrl) σ with
      | (Resolved response, σ1) =>
          σ1 = σ'
          /\ match p with
             | ViaPost => response_status response = 201
             | ViaDelete => response_status response = 200
             | ViaGet | ViaContains => True
             end
      | (Rejected typedError, σ1) =>
          σ1 = σ' /\ p = ViaContains /\ error_status typedError = Some 404
      end.
Proof.
  intros Hthis. unfold requestOf.
  assert (Hcatch : forall method typedError,
    exists e, catchBlock this method requestUrl typedError = Threw e).
  { intros method typedError. unfold catchBlock, HandleAxiosError.
    destruct (error_status typedError) as [status | ]; [ | eexists; reflexivity ].
    destruct (HandleNonSuccessResponseStatus_throws this method requestUrl status
                (responseDataOf typedError) Hthis) as (e & He & _).
    exists e. exact He. }
  destruct p; simpl;
    destruct (transport _ σ) as [[response | typedError] σ1]; simpl.
  - split; [ intros (calls & result & [= _ _ ->]); auto | intros [-> _]; eauto ].
  - destruct (Hcatch Get typedError) as (e & ->). simpl.
    split; [ intros (? & ? & [=]) | intros (_ & [=] & _) ].
  - split; [ intros (calls & result & Hrun) | intros [-> _] ].
    + destruct (response_status response =? 200); injection Hrun as _ _ ->; auto.
    + destruct (response_status response =? 200); eauto.
  - destruct (bool_decide (error_status typedError = Some 404)) eqn:Hstatus.
    + apply bool_decide_eq_true_1 in Hstatus. simpl.
      split; [ intros (calls & result & [= _ _ ->]); auto | intros (-> & _); eauto ].
    + apply bool_decide_eq_false_1 in Hstatus.
      destruct (Hcatch Get typedError) as (e & ->). simpl.
      split; [ intros (? & ? & [=]) | intros (_ & _ & Hcontra); contradiction ].
  - destruct (Z.eqb_spec (response_status response) 201) as [Hstatus | Hstatus]; simpl.
    + split; [ intros (calls & result & [= _ _ ->]); auto | intros [-> _]; eauto ].
    + destruct (HandleNonSuccessResponseStatus_throws this Post requestUrl
                  (response_status response) (response_data response) Hthis)
        as (e & -> & _). simpl.
      split; [ intros (? & ? & [=]) | intros (_ & Hcontra); contradiction ].
  - destruct (Hcatch Post typedError) as (e & ->). simpl.
    split; [ intros (? & ? & [=]) | intros (_ & [=] & _) ].
  - destruct (Z.eqb_spec (response_status response) 200) as [Hstatus | Hstatus]; simpl.
    + split; [ intros (calls & result & [= _ _ ->]); auto | intros [-> _]; eauto ].
    + destruct (HandleNonSuccessResponseStatus_throws this Delete requestUrl
                  (response_status response) (response_data response) Hthis)
        as (e & -> & _). simpl.
      split; [ intros (? & ? & [=]) | intros (_ & Hcontra); contradiction ].
  - destruct (Hcatch Delete typedError) as (e & ->). simpl.
    split; [ intros (? & ? & [=]) | intros (_ & [=] & _) ].
Qed.

Lemma bind_Returned {A B : Type} (m : Outcome A) (f : A -> Outcome B) b :
  m ≫= f = Returned b -> exists a, m = Returned a /\ f a = Returned b.
Proof. destruct m as [a | e]; simpl; [ eauto | discriminate ]. Qed.

Lemma readResult_unit (op : Op) :
  primitiveOf op = ViaPost \/ primitiveOf op = ViaDelete ->
  forall returned, exists result, readResult op returned = Returned result.
Proof.
  destruct op; intros [Hprimitive | Hprimitive]; try discriminate Hprimitive;
    intros returned; eexists; reflexivity.
Qed.

(** X3.  A method that adds completes exactly when its POST resolved with
    status 201, and a method that removes exactly when its DELETE resolved
    with status 200: with any other status, and with any rejection, it
    throws. *)
Theorem add_remove_exact_status this (op : Op) requestUrl transport σ σ' expected :
  constructed this ->
  AppendPathToBaseUrl this (pathOf op) = Returned requestUrl ->
  (primitiveOf op = ViaPost /\ expected = 201)
  \/ (primitiveOf op = ViaDelete /\ expected = 200) ->
  (exists calls result, run transport σ (invoke this op) = (calls, Returned result, σ'))
  <-> exists response,
        transport (requestOf this (primitiveOf op) requestUrl) σ = (Resolved response, σ')
        /\ response_status response = expected.
Proof.
  intros Hthis Hurl Hexpected.
  assert (Hunit : forall returned, exists result, readResult op returned = Returned result).
  { apply readResult_unit. tauto. }
  rewrite (run_invoke _ _ _ _ _ Hurl).
  pose proof (send_completes this (primitiveOf op) requestUrl transport σ σ' Hthis)
    as Hcompletes.
  destruct (run transport σ (send this (primitiveOf op) requestUrl))
    as [[calls returned] σ1] eqn:Hrun. simpl.
  destruct (transport (requestOf this (primitiveOf op) requestUrl) σ)
    as [[response | typedError] σ2].
  - split.
    + intros (calls' & result & [= _ Hresult ->]).
      apply bind_Returned in Hresult as (x & -> & _).
      destruct Hcompletes as [Hforward _].
      destruct Hforward as [-> Hstatus]; [ eauto | ].
      exists response. split; [ reflexivity | ].
      destruct Hexpected as [[Hp ->] | [Hp ->]]; rewrite Hp in Hstatus; exact Hstatus.
    + intros (response' & [= <- ->] & Hstatus).
      destruct Hcompletes as [_ Hbackward].
      destruct Hbackward as (calls' & x & [= -> -> ->]).
      * split; [ reflexivity | ].
        destruct Hexpected as [[Hp ->] | [Hp ->]]; rewrite Hp; exact Hstatus.
      * destruct (Hunit x) as (result & Hresult).
        exists calls', result. simpl. rewrite Hresult. reflexivity.
  - split.
    + intros (calls' & result & [= _ Hresult ->]).
      apply bind_Returned in Hresult as (x & -> & _).
      destruct Hcompletes as [Hforward _].
      destruct Hforward as (_ & Hp & _); [ eauto | ].
      destruct Hexpected as [[Hp' _] | [Hp' _]]; congruence.
    + intros (response & [=] & _).
Qed.

(** X4.  A rejected call lets no method complete, but for the 404 of an
    existence check.  When a method completes, its URL parsed and its call
    was resolved with a response, of status 201 for a method that adds and of
    status 200 for a method that removes; or the method is an existence check
    and the call was rejected with status 404.  A query and an existence
    check complete on a resolved response of any status. *)
Theorem completes_only_on_response this (op : Op) transport σ calls result σ' :
  constructed this ->
  run transport σ (invoke this op) = (calls, Returned result, σ') ->
  exists requestUrl,
    AppendPathToBaseUrl this (pathOf op) = Returned requestUrl
    /\ ((exists response,
           transport (requestOf this (primitiveOf op) requestUrl) σ
           = (Resolved response, σ')
           /\ match primitiveOf op with
              | ViaPost => response_status response = 201
              | ViaDelete => response_status response = 200
              | ViaGet | ViaContains => True
              end)
        \/ (primitiveOf op = ViaContains
            /\ exists typedError,
                 transport (requestOf this (primitiveOf op) requestUrl) σ
                 = (Rejected typedError, σ')
                 /\ error_status typedError = Some 404)).
Proof.
  intros Hthis Hrun.
  destruct (AppendPathToBaseUrl this (pathOf op)) as [requestUrl | e] eqn:Hurl.
  - exists requestUrl. split; [ reflexivity | ].
    rewrite (run_invoke _ _ _ _ _ Hurl) in Hrun.
    pose proof (send_completes this (primitiveOf op) requestUrl transport σ σ' Hthis)
      as [Hforward _].
    destruct (run transport σ (send this (primitiveOf op) requestUrl))
      as [[calls' returned] σ1]. simpl in Hrun.
    injection Hrun as _ Hresult ->.
    apply bind_Returned in Hresult as (x & -> & _).
    destruct (transport (requestOf this (primitiveOf op) requestUrl) σ)
      as [[response | typedError] σ2].
    + destruct Hforward as [-> Hstatus]; [ eauto | ]. left. eauto.
    + destruct Hforward as (-> & Hp & Hstatus); [ eauto | ]. right. eauto.
  - rewrite (run_invoke_no_url _ _ _ _ _ Hurl) in Hrun. discriminate Hrun.
Qed.

(** ** Existence checks *)

(** X2.  Each of the four [Contains] methods answers whether the call
    resolved with status 200; a call rejected with status 404 is answered
    [false] whatever its body holds, so the error of status 404 the other
    methods throw is never thrown here; any other rejection is thrown as the
    common handling of a failed call throws it. *)
Theorem existence_check
    this requestUrl transport σ σ' settled
    (user : TUser) (group : TGroup) (entityType entity : string) :
  constructed this ->
  transport (requestOf this ViaContains requestUrl) σ = (settled, σ') ->
  let answered (op : Op) (completion : list (Request * Store) * Outcome bool * Store) :=
    AppendPathToBaseUrl this (pathOf op) = Returned requestUrl ->
    exists answer,
      completion = ([(requestOf this ViaContains requestUrl, σ)], answer, σ')
      /\ match settled with
         | Resolved response => answer = Returned (response_status response =? 200)
         | Rejected typedError =>
             if bool_decide (error_status typedError = Some 404)
             then answer = Returned false
             else exists e,
                    answer = Threw e
                    /\ catchBlock this Get requestUrl typedError = Threw e
         end in
  answered (ContainsUser user)
    (run transport σ (invoke this (ContainsUser user : Op)))
  /\ answered (ContainsGroup group)
       (run transport σ (invoke this (ContainsGroup group : Op)))
  /\ answered (ContainsEntityType entityType)
       (run transport σ (invoke this (ContainsEntityType entityType : Op)))
  /\ answered (ContainsEntity entityType entity)
       (run transport σ (invoke this (ContainsEntity entityType entity : Op))).
Proof.
  intros Hthis Hsettled answered. subst answered. cbv beta.
  assert (Hcatch : forall typedError,
    exists e, catchBlock this Get requestUrl typedError = Threw e).
  { intros typedError. unfold catchBlock, HandleAxiosError.
    destruct (error_status typedError) as [status | ]; [ | eexists; reflexivity ].
    destruct (HandleNonSuccessResponseStatus_throws this Get requestUrl status
                (responseDataOf typedError) Hthis) as (e & He & _).
    exists e. exact He. }
  unfold requestOf in Hsettled. simpl in Hsettled.
  repeat split; intros Hurl; rewrite (run_invoke _ _ _ _ _ Hurl); simpl;
    rewrite Hsettled;
    (destruct settled as [response | typedError];
     [ destruct (response_status response =? 200); eexists; split; reflexivity
     | destruct (bool_decide (error_status typedError = Some 404));
       [ eexists; split; reflexivity
       | destruct (Hcatch typedError) as (e & He); rewrite He; simpl;
         eexists; split; [ reflexivity | exists e; split; reflexivity ] ] ]).
Qed.

(** ** Sets of results, for every body *)

Lemma run_get_resolved this requestUrl transport σ σ' response :
  transport (requestOf this ViaGet requestUrl) σ = (Resolved response, σ') ->
  run transport σ (send this ViaGet requestUrl)
  = ([(requestOf this ViaGet requestUrl, σ)], Returned (response_data response), σ').
Proof.
  unfold requestOf. simpl. intros Hsettled. rewrite Hsettled. reflexivity.
Qed.

Lemma lookup_all_positions {T : Type} (before l : list T) :
  omap (fun reference => (before ++ l) !! reference) (seq (length before) (length l)) = l.
Proof.
  revert before. induction l as [ | x l IH ]; intros before; [ reflexivity | ].
  simpl. rewrite list_lookup_middle by reflexivity.
  f_equal. specialize (IH (before ++ [x])).
  rewrite <- app_assoc, length_app, Nat.add_1_r in IH. exact IH.
Qed.

(** A set that holds a reference to every object created stands for all of
    them. *)
Lemma objectsOf_all {T : Type} (results : ObjectSet T) :
  references results = seq 0 (length (created results)) ->
  objectsOf results = created results.
Proof.
  intros Hreferences. unfold objectsOf. rewrite Hreferences.
  apply (lookup_all_positions []).
Qed.

(** A loop that adds a new object for each element gives a set that stands
    for the converted elements, all of them and in order. *)
Lemma fold_addNewObject {T : Type} (convert : JsValue -> Outcome T) f items :
  (forall acc item, f acc item = (object ← convert item; mret (addNewObject acc object))) ->
  forall acc,
    references acc = seq 0 (length (created acc)) ->
    (results ← foldOutcome f acc items; mret (objectsOf results))
    = (objects ← mapOutcome convert items; mret (created acc ++ objects)).
Proof.
  intros Hf. induction items as [ | item rest IH ]; intros acc Hacc.
  - simpl. rewrite (objectsOf_all acc Hacc), app_nil_r. reflexivity.
  - simpl. rewrite Hf. destruct (convert item) as [object | e]; [ | reflexivity ].
    simpl. rewrite IH by (apply addNewObject_references; exact Hacc).
    destruct (mapOutcome convert rest) as [objects | e]; [ | reflexivity ].
    simpl. rewrite <- app_assoc. reflexivity.
Qed.

Lemma entitiesOfResults_members rawResults :
  (results ← entitiesOfResults rawResults; mret (objectsOf results))
  = resultsOf entityOfItem rawResults.
Proof.
  unfold entitiesOfResults, resultsOf.
  destruct (loopItems rawResults) as [items | e]; [ | reflexivity ].
  simpl. rewrite (fold_addNewObject entityOfItem).
  - destruct (mapOutcome entityOfItem items); reflexivity.
  - intros acc item. unfold entityOfItem.
    destruct (getProperty item P_entityType); [ | reflexivity ].
    destruct (getProperty item P_entity); reflexivity.
  - reflexivity.
Qed.

Lemma applicationComponentsOfResults_members rawResults :
  (results ← applicationComponentsOfResults (TComponent := TComponent) (TAccess := TAccess)
               rawResults;
   mret (objectsOf results))
  = resultsOf applicationComponentOfItem rawResults.
Proof.
  unfold applicationComponentsOfResults, resultsOf.
  destruct (loopItems rawResults) as [items | e]; [ | reflexivity ].
  simpl. rewrite (fold_addNewObject applicationComponentOfItem).
  - destruct (mapOutcome applicationComponentOfItem items); reflexivity.
  - intros acc item. unfold applicationComponentOfItem.
    destruct (getProperty item P_applicationComponent); [ | reflexivity ].
    destruct (getProperty item P_accessLevel); reflexivity.
  - reflexivity.
Qed.

(** X8.  For every body, the set a method of the accessible-by family makes
    of objects stands for exactly the list the mapping query of the same
    element would read from that body: one member for each element of the
    array, in order, equal elements included; and it throws what the mapping
    query would throw. *)
Theorem object_sets_hold_every_element
    this (user : TUser) (group : TGroup) requestUrl transport σ σ' response :
  transport (requestOf this ViaGet requestUrl) σ = (Resolved response, σ') ->
  let holds (T : Type) (op : Op) (listed : Outcome (list T))
        (completion : list (Request * Store) * Outcome (ObjectSet T) * Store) :=
    AppendPathToBaseUrl this (pathOf op) = Returned requestUrl ->
    match listed with
    | Returned objects =>
        exists results,
          completion = ([(requestOf this ViaGet requestUrl, σ)], Returned results, σ')
          /\ objectsOf results = objects
    | Threw e => completion = ([(requestOf this ViaGet requestUrl, σ)], Threw e, σ')
    end in
  holds _ (GetEntitiesAccessibleByUser user)
    (readResult (GetUserToEntityMappings user : Op) (response_data response))
    (run transport σ (invoke this (GetEntitiesAccessibleByUser user : Op)))
  /\ holds _ (GetEntitiesAccessibleByGroup group)
       (readResult (GetGroupToEntityMappings group : Op) (response_data response))
       (run transport σ (invoke this (GetEntitiesAccessibleByGroup group : Op)))
  /\ holds _ (GetApplicationComponentsAccessibleByUser user)
       (readResult (GetUserToApplicationComponentAndAccessLevelMappings user : Op)
          (response_data response))
       (run transport σ (invoke this (GetApplicationComponentsAccessibleByUser user : Op)))
  /\ holds _ (GetApplicationComponentsAccessibleByGroup group)
       (readResult (GetGroupToApplicationComponentAndAccessLevelMappings group : Op)
          (response_data response))
       (run transport σ (invoke this (GetApplicationComponentsAccessibleByGroup group : Op))).
Proof.
  intros Hsettled holds. subst holds. cbv beta.
  pose proof (run_get_resolved this requestUrl transport σ σ' response Hsettled) as Hrun.
  pose proof (entitiesOfResults_members (response_data response)) as Hentities.
  pose proof (applicationComponentsOfResults_members (response_data response))
    as Hcomponents.
  repeat split; intros Hurl; rewrite (run_invoke _ _ _ _ _ Hurl);
    change (primitiveOf _) with ViaGet; rewrite Hrun;
    cbn [fst snd readResult mbind Outcome_bind].
  - rewrite <- Hentities.
    destruct (entitiesOfResults (response_data response)) as [results | e];
      [ exists results; split; reflexivity | reflexivity ].
  - rewrite <- Hentities.
    destruct (entitiesOfResults (response_data response)) as [results | e];
      [ exists results; split; reflexivity | reflexivity ].
  - rewrite <- Hcomponents.
    destruct (applicationComponentsOfResults (response_data response)) as [results | e];
      [ exists results; split; reflexivity | reflexivity ].
  - rewrite <- Hcomponents.
    destruct (applicationComponentsOfResults (response_data response)) as [results | e];
      [ exists results; split; reflexivity | reflexivity ].
Qed.

Lemma sameValueZero_eq a b : sameValueZero a b = true -> a = b.
Proof.
  destruct a as [ | | x | x | x | x | x ], b as [ | | y | y | y | y | y ];
    simpl; try discriminate; try reflexivity; intros Hsame.
  - apply Bool.eqb_prop in Hsame. congruence.
  - apply Z.eqb_eq in Hsame. congruence.
  - apply String.eqb_eq in Hsame. congruence.
Qed.

(** Adding to a set of values: the members are those there were and the one
    added. *)
Lemma Set_add_members results x v :
  In v (Set_add sameValueZero results x) <-> In v results \/ v = x.
Proof.
  unfold Set_add. destruct (existsb (sameValueZero x) results) eqn:Hheld.
  - split; [ auto | ]. intros [Hin | ->]; [ exact Hin | ].
    apply existsb_exists in Hheld as (y & Hy & Hsame).
    apply sameValueZero_eq in Hsame. subst y. exact Hy.
  - rewrite in_app_iff. simpl. intuition congruence.
Qed.

Lemma entityNamesOfResults_members rawResults :
  match resultsOf (fun item => getProperty item P_entity) rawResults with
  | Returned entities =>
      exists results,
        entityNamesOfResults rawResults = Returned results
        /\ distinctUnder sameValueZero results
        /\ forall v, In v results <-> In v entities
  | Threw e => entityNamesOfResults rawResults = Threw e
  end.
Proof.
  unfold entityNamesOfResults, resultsOf.
  destruct (loopItems rawResults) as [items | e]; [ | reflexivity ].
  simpl.
  set (f := fun results item => _).
  assert (Hfold : forall acc,
    distinctUnder sameValueZero acc ->
    match mapOutcome (fun item => getProperty item P_entity) items with
    | Returned entities =>
        exists results,
          foldOutcome f acc items = Returned results
          /\ distinctUnder sameValueZero results
          /\ forall v, In v results <-> In v acc \/ In v entities
    | Threw e => foldOutcome f acc items = Threw e
    end).
  { induction items as [ | item rest IH ]; intros acc Hacc; simpl.
    - exists acc. split; [ reflexivity | ]. split; [ exact Hacc | ]. tauto.
    - subst f. simpl.
      destruct (getProperty item P_entity) as [entity | e]; simpl; [ | reflexivity ].
      specialize (IH (Set_add sameValueZero acc entity)
                     (distinctUnder_add _ _ Hacc)).
      destruct (mapOutcome (fun item => getProperty item P_entity) rest)
        as [entities | e]; simpl; [ | exact IH ].
      destruct IH as (results & Hresults & Hdistinct & Hmembers).
      exists results. split; [ exact Hresults | ]. split; [ exact Hdistinct | ].
      intros v. rewrite Hmembers, Set_add_members. simpl. intuition congruence. }
  specialize (Hfold [] I).
  destruct (mapOutcome (fun item => getProperty item P_entity) items)
    as [entities | e]; [ | exact Hfold ].
  destruct Hfold as (results & Hresults & Hdistinct & Hmembers).
  exists results. split; [ exact Hresults | ]. split; [ exact Hdistinct | ].
  intros v. rewrite Hmembers. simpl. tauto.
Qed.

(** X9.  For every body, the set of entities [GetEntitiesOfTypeAccessibleByUser]
    and [GetEntitiesOfTypeAccessibleByGroup] return holds each value once and
    has the members of the list the mapping query for the type would read
    from that body, no more and no fewer; and they throw what the mapping
    query would throw. *)
Theorem entity_names_form_a_set
    this (user : TUser) (group : TGroup) entityType requestUrl transport σ σ' response :
  transport (requestOf this ViaGet requestUrl) σ = (Resolved response, σ') ->
  let holds (op : Op) (listed : Outcome (list JsValue))
        (completion : list (Request * Store) * Outcome (list JsValue) * Store) :=
    AppendPathToBaseUrl this (pathOf op) = Returned requestUrl ->
    match listed with
    | Returned entities =>
        exists results,
          completion = ([(requestOf this ViaGet requestUrl, σ)], Returned results, σ')
          /\ distinctUnder sameValueZero results
          /\ forall v, In v results <-> In v entities
    | Threw e => completion = ([(requestOf this ViaGet requestUrl, σ)], Threw e, σ')
    end in
  holds (GetEntitiesOfTypeAccessibleByUser user entityType)
    (readResult (GetUserToEntityMappingsForType user entityType : Op) (response_data response))
    (run transport σ (invoke this (GetEntitiesOfTypeAccessibleByUser user entityType : Op)))
  /\ holds (GetEntitiesOfTypeAccessibleByGroup group entityType)
       (readResult (GetGroupToEntityMappingsForType group entityType : Op)
          (response_data response))
       (run transport σ
          (invoke this (GetEntitiesOfTypeAccessibleByGroup group entityType : Op))).
Proof.
  intros Hsettled holds. subst holds. cbv beta.
  pose proof (run_get_resolved this requestUrl transport σ σ' response Hsettled) as Hrun.
  pose proof (entityNamesOfResults_members (response_data response)) as Hnames.
  split; intros Hurl; rewrite (run_invoke _ _ _ _ _ Hurl);
    change (primitiveOf _) with ViaGet; rewrite Hrun;
    cbn [fst snd readResult mbind Outcome_bind];
    (destruct (resultsOf (fun item => getProperty item P_entity) (response_data response))
       as [entities | e];
     [ destruct Hnames as (results & -> & Hdistinct & Hmembers);
       exists results; auto
     | rewrite Hnames; reflexivity ]).
Qed.

(** ** A response without a body *)


(** ** Construction without a configuration *)

(** X11.  Construction without a configuration fails only when the base
    followed by [api/v1/] does not parse.  Otherwise the client gets a
    configuration object and a headers object of its own, neither of them an
    object the store held before, the only header set is
    [Accept: application/json], and every object the store held is left as it
    was: two clients constructed this way share no configuration. *)
Theorem default_configuration σ baseUrl0 :
  match URL_new (href baseUrl0 +:+ "api/v1/") with
  | None =>
      new_AccessManagerClient σ baseUrl0 None
      = Threw (Error ("Failed to append API suffix to base URL '" +:+ href baseUrl0 +:+ "'.")
                     (Some TypeError))
  | Some url =>
      exists this σ1 h,
        new_AccessManagerClient σ baseUrl0 None = Returned (this, σ1)
        /\ baseUrl this = url
        /\ configs σ !! requestConfig this = None
        /\ headerObjects σ !! h = None
        /\ configs σ1
           = <[requestConfig this := {| config_headers := Some h |}]> (configs σ)
        /\ headerObjects σ1
           = <[h := <["Accept" := JStr "application/json"]> ∅]> (headerObjects σ)
        /\ headerOf σ1 (requestConfig this) "Accept" = Some (JStr "application/json")
  end.
Proof.
  unfold new_AccessManagerClient, SetBaseConstructorParameters, InitializeBaseUrl.
  destruct (URL_new (href baseUrl0 +:+ "api/v1/")) as [url | ]; [ | reflexivity ].
  simpl. rewrite lookup_insert_eq. simpl.
  rewrite lookup_insert_eq. simpl. rewrite lookup_insert_eq.
  eexists _, _, (fresh (dom (headerObjects σ))).
  split; [ reflexivity | ]. simpl.
  split; [ reflexivity | ].
  split; [ apply not_elem_of_dom, is_fresh | ].
  split; [ apply not_elem_of_dom, is_fresh | ].
  split; [ reflexivity | ].
  split; [ apply insert_insert_eq | ].
  unfold headerOf. simpl. rewrite lookup_insert_eq. simpl.
  rewrite lookup_insert_eq. simpl. apply lookup_insert_eq.
Qed.

(** ** Paths and the identifiers in them *)

Lemma append_cons c s t : String c s +:+ t = String c (s +:+ t).
Proof. reflexivity. Qed.

Lemma append_nil_l s : EmptyString +:+ s = s.
Proof. reflexivity. Qed.

Lemma append_nil_r s : s +:+ EmptyString = s.
Proof.
  induction s as [ | c s IH ]; [ reflexivity | ].
  rewrite append_cons, IH. reflexivity.
Qed.

Lemma inSegment_notSeparator c : inSegment c = true -> notSeparator c = true.
Proof.
  intros Hc. unfold notSeparator, isSeparator.
  destruct (Ascii.eqb_spec c "/") as [-> | _]; [ discriminate Hc | ].
  destruct (Ascii.eqb_spec c "?") as [-> | _]; [ discriminate Hc | reflexivity ].
Qed.

Lemma encode_notSeparator s : allOf notSeparator (encodeURIComponent s) = true.
Proof.
  pose proof (encode_inSegment s) as Hall.
  induction (encodeURIComponent s) as [ | c rest IH ]; [ reflexivity | ].
  simpl in *. apply andb_prop in Hall as [Hc Hrest].
  rewrite (inSegment_notSeparator c Hc), (IH Hrest). reflexivity.
Qed.

Lemma pieces_nonempty s : pieces s <> [].
Proof.
  destruct s as [ | c rest ]; simpl; [ discriminate | ].
  destruct (isSeparator c); [ discriminate | ].
  destruct (pieces rest); discriminate.
Qed.

(** A string without separators is joined to the first piece of what
    follows it. *)
Lemma pieces_clean_append a s :
  allOf notSeparator a = true ->
  pieces (a +:+ s) = (a +:+ hd EmptyString (pieces s)) :: tl (pieces s).
Proof.
  induction a as [ | c a IH ]; intros Hclean.
  - change (EmptyString +:+ s) with s.
    pose proof (pieces_nonempty s) as Hne.
    destruct (pieces s); [ contradiction | reflexivity ].
  - simpl in Hclean. apply andb_prop in Hclean as [Hc Hclean].
    rewrite append_cons. simpl.
    unfold notSeparator in Hc. apply negb_true_iff in Hc. rewrite Hc.
    rewrite (IH Hclean). reflexivity.
Qed.

Lemma pieces_clean a : allOf notSeparator a = true -> pieces a = [a].
Proof.
  intros Hclean. rewrite <- (append_nil_r a) at 1.
  rewrite (pieces_clean_append a EmptyString Hclean). simpl.
  rewrite append_nil_r. reflexivity.
Qed.

Lemma pieces_encode_append s rest :
  pieces (encodeURIComponent s +:+ rest)
  = (encodeURIComponent s +:+ hd EmptyString (pieces rest)) :: tl (pieces rest).
Proof. apply pieces_clean_append, encode_notSeparator. Qed.

Lemma pieces_encode s : pieces (encodeURIComponent s) = [encodeURIComponent s].
Proof. apply pieces_clean, encode_notSeparator. Qed.

Lemma encode_injective a b : encodeURIComponent a = encodeURIComponent b -> a = b.
Proof.
  intros Hencoded. apply (f_equal decodeURIComponent) in Hencoded.
  rewrite !decode_encode in Hencoded. congruence.
Qed.

Lemma map_encode_injective l1 l2 :
  map encodeURIComponent l1 = map encodeURIComponent l2 -> l1 = l2.
Proof.
  revert l2. induction l1 as [ | a l1 IH ]; intros [ | b l2 ]; simpl;
    try discriminate; [ reflexivity | ].
  intros [= Hhead Htail]. f_equal; [ apply encode_injective, Hhead | apply IH, Htail ].
Qed.

(** The identifiers of a method stand, encoded, at the identifier places of
    its path. *)
Lemma identifiers_in_path (op : Op) :
  identifierPieces (pieces (pathOf op)) = map encodeURIComponent (identifiersOf op).
Proof.
  destruct op; unfold pathOf, segment;
    repeat match goal with
           | flag : bool |- _ => destruct flag
           end;
    unfold string_of_bool;
    repeat (progress (rewrite ?append_cons, ?append_nil_l; simpl;
                      rewrite ?pieces_encode_append, ?pieces_encode; simpl));
    rewrite ?append_nil_r; reflexivity.
Qed.

(** X12.  Two calls whose paths are the same were given the same strings as
    identifiers, place by place, whichever methods they are calls of: a
    slash or a question mark in an identifier is escaped and never ends a
    piece of the path, so the path of one list of identifiers is never the
    path of another. *)
Theorem paths_do_not_collide (op1 op2 : Op) :
  pathOf op1 = pathOf op2 -> identifiersOf op1 = identifiersOf op2.
Proof.
  intros Hpath. apply map_encode_injective.
  rewrite <- !identifiers_in_path, Hpath. reflexivity.
Qed.

Lemma encode_inPath s : allOf inPath (encodeURIComponent s) = true.
Proof.
  pose proof (encode_inSegment s) as Hall.
  induction (encodeURIComponent s) as [ | c rest IH ]; [ reflexivity | ].
  simpl in *. apply andb_prop in Hall as [Hc Hrest].
  unfold inPath at 1. rewrite Hc, (IH Hrest). reflexivity.
Qed.

(** X13.  The path of every method, whatever its arguments, is made of
    unreserved characters, percent escapes, and the slashes, the question
    mark and the equals sign of its template: no space, number sign,
    ampersand or byte outside ASCII reaches the URL. *)
Theorem paths_are_safe (op : Op) : allOf inPath (pathOf op) = true.
Proof.
  destruct op; unfold pathOf, segment;
    repeat match goal with
           | flag : bool |- _ => destruct flag
           end;
    rewrite ?allOf_append, ?encode_inPath; reflexivity.
Qed.

(** ** What a method can throw *)

#[local] Hint Resolve hasOwnProperty_onlyTypeError getProperty_onlyTypeError
  loopItems_onlyTypeError mapOutcome_onlyTypeError onlyTypeError_if
  onlyTypeError_bind : type_errors.

Lemma foldOutcome_onlyTypeError {A B : Type} (f : B -> A -> Outcome B) l :
  (forall acc x, onlyTypeError (f acc x)) -> forall acc, onlyTypeError (foldOutcome f acc l).
Proof.
  intros Hf. induction l as [ | x rest IH ]; intros acc; simpl; auto with type_errors.
Qed.

Lemma resultsOf_onlyTypeError {T : Type} (convert : JsValue -> Outcome T) rawResults :
  (forall item, onlyTypeError (convert item)) -> onlyTypeError (resultsOf convert rawResults).
Proof. intros Hconvert. unfold resultsOf. auto with type_errors. Qed.

(** Reading the result of a request fails only where the run time does. *)
Lemma readResult_onlyTypeError (op : Op) returned : onlyTypeError (readResult op returned).
Proof.
  destruct op; simpl;
    try apply onlyTypeError_Returned;
    try (apply resultsOf_onlyTypeError; intros item;
         unfold fromElement, fromProperty, applicationComponentOfItem, entityOfItem);
    unfold entitiesOfResults, applicationComponentsOfResults, entityNamesOfResults;
    repeat first
      [ apply onlyTypeError_Returned
      | apply getProperty_onlyTypeError
      | apply loopItems_onlyTypeError
      | apply foldOutcome_onlyTypeError; intros acc item
      | apply onlyTypeError_bind; [ | intro ] ].
Qed.

(** What [HandleNonSuccessResponseStatus] throws: the error of the run time, a
    plain [Error] without cause, or, for status 404 alone, one of the two
    not-found errors. *)
Lemma handled_errors this method requestUrl status responseData e :
  constructed this ->
  HandleNonSuccessResponseStatus this method requestUrl status responseData = Threw e ->
  match e with
  | TypeError | Error _ None => True
  | NotFoundError _ _ | ElementNotFoundError _ _ _ => status = 404
  | Rejection _ | Error _ (Some _) => False
  end.
Proof.
  intros Hthis. unfold HandleNonSuccessResponseStatus.
  pose proof (Deserialize_onlyTypeError responseData) as Hdecode.
  destruct (DeserializeResponseDataToHttpErrorResponse responseData) as [[r | ] | e0]; simpl.
  - rewrite (constructed_map this Hthis).
    unfold InitializeStatusCodeToErrorThrowingFunctionMap.
    destruct (decide (status = 404)) as [-> | Hstatus].
    + rewrite lookup_insert_eq.
      unfold throwNotFound, new_ElementNotFoundError, new_NotFoundError.
      pose proof (errorMessage_onlyTypeError (Message r)) as Honly.
      destruct (errorMessage (Message r)) as [m | e1]; simpl.
      * break_if; intros [= <-]; reflexivity.
      * rewrite (Honly e1 eq_refl). break_if; intros [= <-]; exact I.
    + rewrite lookup_insert_ne by congruence. rewrite lookup_empty.
      pose proof (ToString_onlyTypeError (Code r)) as Hcode.
      pose proof (ToString_onlyTypeError (Message r)) as Hmessage.
      destruct (ToString (Code r)) as [code | e1]; simpl.
      * destruct (ToString (Message r)) as [message | e2]; simpl.
        -- intros [= <-]. exact I.
        -- rewrite (Hmessage e2 eq_refl). intros [= <-]. exact I.
      * rewrite (Hcode e1 eq_refl). intros [= <-]. exact I.
  - destruct responseData; simpl; intros [= <-]; exact I.
  - rewrite (Hdecode e0 eq_refl). intros [= <-]. exact I.
Qed.

(** What a request method throws is what the handling of the response or of
    the rejection throws. *)
Lemma send_thrown this p requestUrl transport σ σ' :
  constructed this ->
  forall thrown,
    snd (fst (run transport σ (send this p requestUrl))) = Threw thrown ->
    snd (run transport σ (send this p requestUrl)) = σ' ->
    match transport (requestOf this p requestUrl) σ with
    | (Resolved response, σ1) =>
        σ1 = σ'
        /\ HandleNonSuccessResponseStatus this (primitiveMethod p) requestUrl
             (response_status response) (response_data response) = Threw thrown
    | (Rejected typedError, σ1) =>
        σ1 = σ'
        /\ catchBlock this (primitiveMethod p) requestUrl typedError = Threw thrown
    end.
Proof.
  intros Hthis.
  assert (Hcatch : forall method typedError,
    exists e1, catchBlock this method requestUrl typedError = Threw e1).
  { intros method typedError. unfold catchBlock, HandleAxiosError.
    destruct (error_status typedError) as [status | ]; [ | eexists; reflexivity ].
    destruct (HandleNonSuccessResponseStatus_throws this method requestUrl status
                (responseDataOf typedError) Hthis) as (e1 & He1 & _).
    exists e1. exact He1. }
  intros thrown. unfold requestOf.
  destruct p; simpl;
    destruct (transport _ σ) as [[response | typedError] σ1]; simpl;
    try discriminate.
  - destruct (Hcatch Get typedError) as (e1 & ->). simpl. intros [= <-] <-. auto.
  - destruct (response_status response =? 200); discriminate.
  - destruct (bool_decide (error_status typedError = Some 404)); [ discriminate | ].
    destruct (Hcatch Get typedError) as (e1 & ->). simpl. intros [= <-] <-. auto.
  - destruct (response_status response =? 201); simpl; [ discriminate | ].
    rewrite run_lift. simpl. intros -> <-. auto.
  - destruct (Hcatch Post typedError) as (e1 & ->). simpl. intros [= <-] <-. auto.
  - destruct (response_status response =? 200); simpl; [ discriminate | ].
    rewrite run_lift. simpl. intros -> <-. auto.
  - destruct (Hcatch Delete typedError) as (e1 & ->). simpl. intros [= <-] <-. auto.
Qed.

(** X14.  Of a call whose identifiers are well-formed strings, with
    converters that return.  ([encodeURIComponent] throws a [URIError] for an
    identifier with a lone surrogate, before any call is made; such a string
    has no UTF-8 encoding and is none of the strings [isWellFormed] accepts.)
    These are all the errors the method throws.  An [AxiosError] never escapes as it is: it is the cause of an
    [Error], and only when the call was rejected without a status.  An
    [Error] without cause is thrown only when the call was settled with a
    status, and a [NotFoundError] or an [ElementNotFoundError] only when that
    status was 404.  Everything else is a [TypeError] of the run time. *)
Theorem thrown_errors this (op : Op) transport σ calls e σ' :
  constructed this ->
  forallb isWellFormed (identifiersOf op) = true ->
  run transport σ (invoke this op) = (calls, Threw e, σ') ->
  let settledWith (requestUrl : URL) (status : Z) :=
    (exists typedError,
       transport (requestOf this (primitiveOf op) requestUrl) σ = (Rejected typedError, σ')
       /\ error_status typedError = Some status)
    \/ (exists response,
          transport (requestOf this (primitiveOf op) requestUrl) σ = (Resolved response, σ')
          /\ response_status response = status) in
  match e with
  | TypeError => True
  | Rejection _ => False
  | Error _ (Some cause) =>
      exists requestUrl typedError,
        AppendPathToBaseUrl this (pathOf op) = Returned requestUrl
        /\ transport (requestOf this (primitiveOf op) requestUrl) σ
           = (Rejected typedError, σ')
        /\ error_status typedError = None
        /\ cause = Rejection typedError
  | Error _ None =>
      exists requestUrl status,
        AppendPathToBaseUrl this (pathOf op) = Returned requestUrl
        /\ settledWith requestUrl status
  | NotFoundError _ _ | ElementNotFoundError _ _ _ =>
      exists requestUrl,
        AppendPathToBaseUrl this (pathOf op) = Returned requestUrl
        /\ settledWith requestUrl 404
  end.
Proof.
  intros Hthis _ Hrun settledWith.
  destruct (AppendPathToBaseUrl this (pathOf op)) as [requestUrl | e0] eqn:Hurl.
  2: { rewrite (run_invoke_no_url _ _ _ _ _ Hurl) in Hrun. injection Hrun as _ <- _.
       unfold AppendPathToBaseUrl in Hurl.
       destruct (URL_new _); [ discriminate Hurl | ]. injection Hurl as <-. exact I. }
  rewrite (run_invoke _ _ _ _ _ Hurl) in Hrun.
  pose proof (send_thrown this (primitiveOf op) requestUrl transport σ σ' Hthis) as Hsend.
  destruct (run transport σ (send this (primitiveOf op) requestUrl))
    as [[calls' returned] σ1]. simpl in Hrun, Hsend.
  injection Hrun as _ Hresult ->.
  destruct returned as [x | thrown]; simpl in Hresult.
  { rewrite (readResult_onlyTypeError op x e Hresult). exact I. }
  injection Hresult as ->.
  specialize (Hsend e eq_refl eq_refl).
  destruct (transport (requestOf this (primitiveOf op) requestUrl) σ)
    as [[response | typedError] σ2] eqn:Hsettled; destruct Hsend as [-> Hthrown].
  - pose proof (handled_errors _ _ _ _ _ _ Hthis Hthrown) as Hclass.
    destruct e as [ | | message [cause | ] | | ]; try contradiction; try exact I.
    + exists requestUrl, (response_status response). split; [ reflexivity | ].
      right. eauto.
    + exists requestUrl. split; [ reflexivity | ]. right. eauto.
    + exists requestUrl. split; [ reflexivity | ]. right. eauto.
  - unfold catchBlock in Hthrown.
    destruct (error_status typedError) as [status | ] eqn:Hstatus.
    + pose proof (handled_errors _ _ _ _ _ _ Hthis Hthrown) as Hclass.
      destruct e as [ | | message [cause | ] | | ]; try contradiction; try exact I.
      * exists requestUrl, status. split; [ reflexivity | ]. left. eauto.
      * exists requestUrl. split; [ reflexivity | ]. left. subst status. eauto.
      * exists requestUrl. split; [ reflexivity | ]. left. subst status. eauto.
    + unfold HandleAxiosError in Hthrown. injection Hthrown as <-.
      exists requestUrl, typedError. auto.
Qed.

(** ** The request of a call tells the call *)

Lemma pieces_pathOf (op : Op) : pieces (pathOf op) = piecesOf op.
Proof.
  destruct op; unfold pathOf, piecesOf, segment;
    repeat match goal with
           | flag : bool |- _ => destruct flag
           end;
    unfold string_of_bool;
    repeat (progress (rewrite ?append_cons, ?append_nil_l; simpl;
                      rewrite ?pieces_encode_append, ?pieces_encode; simpl));
    rewrite ?append_nil_r; reflexivity.
Qed.

(** With converters that give different strings for different values, the
    HTTP method and the path tell the method of the client that was called
    and its arguments. *)
Lemma path_determines_operation (op1 op2 : Op) :
  (forall a b : TUser, Stringifier_ToString a = Stringifier_ToString b -> a = b) ->
  (forall a b : TGroup, Stringifier_ToString a = Stringifier_ToString b -> a = b) ->
  (forall a b : TComponent, Stringifier_ToString a = Stringifier_ToString b -> a = b) ->
  (forall a b : TAccess, Stringifier_ToString a = Stringifier_ToString b -> a = b) ->
  primitiveMethod (primitiveOf op1) = primitiveMethod (primitiveOf op2) ->
  pathOf op1 = pathOf op2 ->
  op1 = op2.
Proof.
  intros Husers Hgroups Hcomponents Hlevels Hmethod Hpath.
  apply (f_equal pieces) in Hpath. rewrite !pieces_pathOf in Hpath.
  destruct op1; destruct op2; try discriminate Hmethod; clear Hmethod;
    unfold piecesOf, segment in Hpath; try discriminate Hpath;
    repeat match goal with
           | flag : bool |- _ => destruct flag
           end;
    try discriminate Hpath; try reflexivity;
    injection Hpath; intros;
    repeat match goal with
           | H : encodeURIComponent _ = encodeURIComponent _ |- _ =>
               apply encode_injective in H
           | H : @Stringifier_ToString TUser _ _ = _ |- _ => apply Husers in H
           | H : @Stringifier_ToString TGroup _ _ = _ |- _ => apply Hgroups in H
           | H : @Stringifier_ToString TComponent _ _ = _ |- _ => apply Hcomponents in H
           | H : @Stringifier_ToString TAccess _ _ = _ |- _ => apply Hlevels in H
           end;
    subst; reflexivity.
Qed.

(** X15.  With converters that give different strings for different values,
    two different calls that use the same HTTP method never build the same
    path, the string handed to [AppendPathToBaseUrl]: calls of different
    methods of the client, and calls of one method with different arguments,
    differ in the method or in the path.  What the URL parser makes of two
    different paths is not the client's doing and is not stated. *)
Theorem different_calls_different_paths (op1 op2 : Op) :
  (forall a b : TUser, Stringifier_ToString a = Stringifier_ToString b -> a = b) ->
  (forall a b : TGroup, Stringifier_ToString a = Stringifier_ToString b -> a = b) ->
  (forall a b : TComponent, Stringifier_ToString a = Stringifier_ToString b -> a = b) ->
  (forall a b : TAccess, Stringifier_ToString a = Stringifier_ToString b -> a = b) ->
  primitiveMethod (primitiveOf op1) = primitiveMethod (primitiveOf op2) ->
  op1 <> op2 ->
  pathOf op1 <> pathOf op2.
Proof.
  intros Husers Hgroups Hcomponents Hlevels Hmethod Hdifferent Hpath.
  apply Hdifferent.
  apply path_determines_operation; assumption.
Qed.

(** ** Identifiers that come back *)

Lemma resultsOf_elements {T : Type} `{IUniqueStringifier T} (l : list T) :
  (forall x : T, Stringifier_FromString (JStr (Stringifier_ToString x)) = x) ->
  resultsOf fromElement (JArr (map (fun x => JStr (Stringifier_ToString x)) l)) = Returned l.
Proof.
  intros Hlaw. unfold resultsOf. simpl.
  induction l as [ | x l IH ]; [ reflexivity | ].
  simpl. rewrite IH. simpl. rewrite Hlaw. reflexivity.
Qed.

Lemma resultsOf_properties {T : Type} `{IUniqueStringifier T} p items (l : list T) :
  (forall x : T, Stringifier_FromString (JStr (Stringifier_ToString x)) = x) ->
  Forall2 (fun item x =>
             exists props,
               item = JObj props
               /\ ownProperty props (key p) = Some (JStr (Stringifier_ToString x)))
          items l ->
  resultsOf (fromProperty p) (JArr items) = Returned l.
Proof.
  intros Hlaw Hitems. unfold resultsOf. simpl.
  induction Hitems as [ | item x items l (props & -> & Hp) _ IH ]; [ reflexivity | ].
  simpl. rewrite Hp, IH. simpl. rewrite Hlaw. reflexivity.
Qed.

(** X16.  With converters for which [FromString] undoes [ToString], the
    queries that list users or groups return what the body lists, each
    identifier as it was before [ToString] and in the order of the body:
    [GetUsers] and [GetGroups] from an array of strings, the mapping queries
    from the property of each element that they read, whatever else the
    element holds. *)
Theorem listed_identifiers_round_trip
    this requestUrl transport σ σ' response (users : list TUser) (groups : list TGroup) :
  (forall user : TUser, Stringifier_FromString (JStr (Stringifier_ToString user)) = user) ->
  (forall group : TGroup,
     Stringifier_FromString (JStr (Stringifier_ToString group)) = group) ->
  transport (requestOf this ViaGet requestUrl) σ = (Resolved response, σ') ->
  let lists (T : Type) (stringifier : IUniqueStringifier T) (l : list T) :=
    response_data response = JArr (map (fun x => JStr (Stringifier_ToString x)) l) in
  let carries (T : Type) (stringifier : IUniqueStringifier T) p (l : list T) :=
    exists items,
      response_data response = JArr items
      /\ Forall2 (fun item x =>
                    exists props,
                      item = JObj props
                      /\ ownProperty props (key p) = Some (JStr (Stringifier_ToString x)))
                 items l in
  let returns (T : Type) (op : Op) (expected : list T)
        (completion : list (Request * Store) * Outcome (list T) * Store) :=
    AppendPathToBaseUrl this (pathOf op) = Returned requestUrl ->
    completion = ([(requestOf this ViaGet requestUrl, σ)], Returned expected, σ') in
  (lists _ _ users ->
   returns _ GetUsers users (run transport σ (invoke this (GetUsers : Op))))
  /\ (lists _ _ groups ->
      returns _ GetGroups groups (run transport σ (invoke this (GetGroups : Op))))
  /\ (forall user flag, carries _ _ P_group groups ->
      returns _ (GetUserToGroupMappings user flag) groups
        (run transport σ (invoke this (GetUserToGroupMappings user flag : Op))))
  /\ (forall group flag, carries _ _ P_user users ->
      returns _ (GetGroupToUserMappings group flag) users
        (run transport σ (invoke this (GetGroupToUserMappings group flag : Op))))
  /\ (forall group flag, carries _ _ P_toGroup groups ->
      returns _ (GetGroupToGroupMappings group flag) groups
        (run transport σ (invoke this (GetGroupToGroupMappings group flag : Op))))
  /\ (forall group flag, carries _ _ P_fromGroup groups ->
      returns _ (GetGroupToGroupReverseMappings group flag) groups
        (run transport σ (invoke this (GetGroupToGroupReverseMappings group flag : Op))))
  /\ (forall applicationComponent accessLevel flag, carries _ _ P_user users ->
      returns _
        (GetApplicationComponentAndAccessLevelToUserMappings
           applicationComponent accessLevel flag) users
        (run transport σ
           (invoke this
              (GetApplicationComponentAndAccessLevelToUserMappings
                 applicationComponent accessLevel flag : Op))))
  /\ (forall applicationComponent accessLevel flag, carries _ _ P_group groups ->
      returns _
        (GetApplicationComponentAndAccessLevelToGroupMappings
           applicationComponent accessLevel flag) groups
        (run transport σ
           (invoke this
              (GetApplicationComponentAndAccessLevelToGroupMappings
                 applicationComponent accessLevel flag : Op))))
  /\ (forall entityType entity flag, carries _ _ P_user users ->
      returns _ (GetEntityToUserMappings entityType entity flag) users
        (run transport σ (invoke this (GetEntityToUserMappings entityType entity flag : Op))))
  /\ (forall entityType entity flag, carries _ _ P_group groups ->
      returns _ (GetEntityToGroupMappings entityType entity flag) groups
        (run transport σ
           (invoke this (GetEntityToGroupMappings entityType entity flag : Op)))).
Proof.
  intros Husers Hgroups Hsettled lists carries returns.
  subst lists carries returns. cbv beta.
  pose proof (run_get_resolved this requestUrl transport σ σ' response Hsettled) as Hrun.
  repeat split; intros;
    repeat match goal with
           | H : exists items, _ |- _ => destruct H as (items & Hbody & Hitems)
           end;
    match goal with
    | Hurl : AppendPathToBaseUrl _ _ = Returned _ |- _ =>
        rewrite (run_invoke _ _ _ _ _ Hurl)
    end;
    change (primitiveOf _) with ViaGet; rewrite Hrun;
    cbn [fst snd readResult mbind Outcome_bind];
    match goal with
    | Hbody : response_data response = _ |- _ => rewrite Hbody
    end;
    first [ rewrite (resultsOf_elements users Husers)
          | rewrite (resultsOf_elements groups Hgroups)
          | rewrite (resultsOf_properties _ _ _ Husers Hitems)
          | rewrite (resultsOf_properties _ _ _ Hgroups Hitems) ];
    reflexivity.
Qed.

End FurtherProperties.

(** * The further properties on the small platform *)

Lemma generic_error_other_status_witness :
  @HandleNonSuccessResponseStatus plainHost upperCaseNames exampleClient Delete
    {| href := "http://x/api/v1/users/bob" |} 500 userNotFoundBody
  = Threw (Error ("Failed to call URL '" +:+ "http://x/api/v1/users/bob" +:+ "' with '" +:+
                  "DELETE" +:+
                  "' method.  Received non-succces HTTP response status " +:+
                  "500" +:+
                  ", error code '" +:+ "UserNotFoundException" +:+
                  "', and error message '" +:+ "User 'bob' does not exist." +:+ "'.") None).
Proof.
  apply (@generic_error_other_status plainHost upperCaseNames exampleClient Delete
           {| href := "http://x/api/v1/users/bob" |} 500 userNotFoundBody
           userNotFoundRecord "UserNotFoundException" "User 'bob' does not exist."
           exampleClient_constructed).
  - lia.
  - reflexivity.
  - reflexivity.
  - reflexivity.
Defined.

Lemma existence_check_witness :
  run (constantTransport (Rejected notFoundRejection)) exampleStore
    (@invoke plainHost upperCaseNames string string string string
       StringUniqueStringifier StringUniqueStringifier StringUniqueStringifier
       StringUniqueStringifier exampleClient (ContainsUser "bob"))
  = ([(requestOf exampleClient ViaContains {| href := "http://x/api/v1/users/bob" |},
       exampleStore)],
     Returned false, exampleStore).
Proof.
  pose proof (@existence_check plainHost upperCaseNames string string string string
                StringUniqueStringifier StringUniqueStringifier StringUniqueStringifier
                StringUniqueStringifier exampleClient
                {| href := "http://x/api/v1/users/bob" |}
                (constantTransport (Rejected notFoundRejection))
                exampleStore exampleStore (Rejected notFoundRejection)
                "bob" "staff" "ClientAccount" "CompanyA"
                exampleClient_constructed eq_refl) as Hanswer.
  cbv zeta beta in Hanswer. destruct Hanswer as (Huser & _).
  destruct (Huser eq_refl) as (answer & Hrun & Hfalse).
  simpl in Hfalse. rewrite Hfalse in Hrun. exact Hrun.
Defined.

Lemma add_remove_exact_status_witness :
  exists calls result,
    run (constantTransport (Resolved {| response_status := 200; response_data := JUndefined |}))
      exampleStore
      (@invoke plainHost upperCaseNames string string string string
         StringUniqueStringifier StringUniqueStringifier StringUniqueStringifier
         StringUniqueStringifier exampleClient (RemoveUser "bob"))
    = (calls, Returned result, exampleStore).
Proof.
  apply (@add_remove_exact_status plainHost upperCaseNames string string string string
           StringUniqueStringifier StringUniqueStringifier StringUniqueStringifier
           StringUniqueStringifier exampleClient (RemoveUser "bob")
           {| href := "http://x/api/v1/users/bob" |}
           (constantTransport
              (Resolved {| response_status := 200; response_data := JUndefined |}))
           exampleStore exampleStore 200 exampleClient_constructed eq_refl).
  - right. split; reflexivity.
  - exists {| response_status := 200; response_data := JUndefined |}.
    split; reflexivity.
Defined.

Lemma completes_only_on_response_witness :
  exists requestUrl,
    @AppendPathToBaseUrl plainHost exampleClient "users/bob" = Returned requestUrl
    /\ ((exists response,
           constantTransport
             (Resolved {| response_status := 200; response_data := JUndefined |})
             (requestOf exampleClient ViaDelete requestUrl) exampleStore
           = (Resolved response, exampleStore)
           /\ response_status response = 200)
        \/ (ViaDelete = ViaContains
            /\ exists typedError,
                 constantTransport
                   (Resolved {| response_status := 200; response_data := JUndefined |})
                   (requestOf exampleClient ViaDelete requestUrl) exampleStore
                 = (Rejected typedError, exampleStore)
                 /\ error_status typedError = Some 404)).
Proof.
  apply (@completes_only_on_response plainHost upperCaseNames string string string string
           StringUniqueStringifier StringUniqueStringifier StringUniqueStringifier
           StringUniqueStringifier exampleClient (RemoveUser "bob")
           (constantTransport
              (Resolved {| response_status := 200; response_data := JUndefined |}))
           exampleStore
           [(requestOf exampleClient ViaDelete {| href := "http://x/api/v1/users/bob" |},
             exampleStore)]
           tt exampleStore exampleClient_constructed).
  reflexivity.
Defined.

Lemma unstructured_bodies_witness :
  exists rendering,
    @HandleNonSuccessResponseStatus plainHost upperCaseNames exampleClient Get
      {| href := "http://x/api/v1/users" |} 404 (JNum (10 ^ 21))
    = Threw (Error (@baseExceptionMessage upperCaseNames Get
                      {| href := "http://x/api/v1/users" |} 404 +:+
                    ", and response body '" +:+ rendering +:+ "'.") None)
    /\ rendering = "1e+21".
Proof.
  destruct (@unstructured_bodies plainHost upperCaseNames exampleClient Get
              {| href := "http://x/api/v1/users" |} 404 (JNum (10 ^ 21)) I)
    as (rendering & Hthrown & Hrendering & _).
  exists rendering. split; [ exact Hthrown | ].
  rewrite Hrendering. vm_compute. reflexivity.
Defined.

Lemma notFound_through_method_witness :
  run (constantTransport (Rejected notFoundRejection)) exampleStore
    (@invoke plainHost upperCaseNames string string string string
       StringUniqueStringifier StringUniqueStringifier StringUniqueStringifier
       StringUniqueStringifier exampleClient (RemoveUser "bob"))
  = ([(requestOf exampleClient ViaDelete {| href := "http://x/api/v1/users/bob" |},
       exampleStore)],
     Threw (ElementNotFoundError "User 'bob' does not exist." "User" (JStr "bob")),
     exampleStore).
Proof.
  pose proof (@notFound_through_method plainHost upperCaseNames string string string string
                StringUniqueStringifier StringUniqueStringifier StringUniqueStringifier
                StringUniqueStringifier exampleClient (RemoveUser "bob")
                {| href := "http://x/api/v1/users/bob" |}
                (constantTransport (Rejected notFoundRejection))
                exampleStore exampleStore notFoundRejection userNotFoundRecord
                "User 'bob' does not exist." exampleClient_constructed) as Hthrown.
  cbv zeta in Hthrown. destruct Hthrown as (Huser & _).
  - simpl. discriminate.
  - reflexivity.
  - reflexivity.
  - reflexivity.
  - reflexivity.
  - reflexivity.
  - apply Huser. reflexivity.
Defined.

Lemma object_sets_hold_every_element_witness :
  exists results,
    run (constantTransport
           (Resolved {| response_status := 200; response_data := JArr [companyA; companyA] |}))
      exampleStore
      (@invoke plainHost upperCaseNames string string string string
         StringUniqueStringifier StringUniqueStringifier StringUniqueStringifier
         StringUniqueStringifier exampleClient (GetEntitiesAccessibleByUser "bob"))
    = ([(requestOf exampleClient ViaGet
           {| href := "http://x/api/v1/userToEntityMappings/user/bob?includeIndirectMappings=true" |},
         exampleStore)],
       Returned results, exampleStore)
    /\ objectsOf results
       = [ {| EntityType := JStr "ClientAccount"; Entity := JStr "CompanyA" |};
           {| EntityType := JStr "ClientAccount"; Entity := JStr "CompanyA" |} ].
Proof.
  pose proof (@object_sets_hold_every_element plainHost upperCaseNames string string string
                string StringUniqueStringifier StringUniqueStringifier
                StringUniqueStringifier StringUniqueStringifier exampleClient "bob" "staff"
                {| href := "http://x/api/v1/userToEntityMappings/user/bob?includeIndirectMappings=true" |}
                (constantTransport
                   (Resolved {| response_status := 200;
                                response_data := JArr [companyA; companyA] |}))
                exampleStore exampleStore
                {| response_status := 200; response_data := JArr [companyA; companyA] |}
                eq_refl) as Hholds.
  cbv zeta beta in Hholds. destruct Hholds as (Huser & _).
  exact (Huser eq_refl).
Defined.

Lemma entity_names_form_a_set_witness :
  exists results,
    run (constantTransport
           (Resolved {| response_status := 200; response_data := JArr [companyA; companyA] |}))
      exampleStore
      (@invoke plainHost upperCaseNames string string string string
         StringUniqueStringifier StringUniqueStringifier StringUniqueStringifier
         StringUniqueStringifier exampleClient
         (GetEntitiesOfTypeAccessibleByUser "bob" "ClientAccount"))
    = ([(requestOf exampleClient ViaGet
           {| href := "http://x/api/v1/userToEntityMappings/user/bob/entityType/ClientAccount?includeIndirectMappings=true" |},
         exampleStore)],
       Returned results, exampleStore)
    /\ distinctUnder sameValueZero results
    /\ forall v, In v results <-> In v [JStr "CompanyA"; JStr "CompanyA"].
Proof.
  pose proof (@entity_names_form_a_set plainHost upperCaseNames string string string
                string StringUniqueStringifier StringUniqueStringifier
                StringUniqueStringifier StringUniqueStringifier exampleClient "bob" "staff"
                "ClientAccount"
                {| href := "http://x/api/v1/userToEntityMappings/user/bob/entityType/ClientAccount?includeIndirectMappings=true" |}
                (constantTransport
                   (Resolved {| response_status := 200;
                                response_data := JArr [companyA; companyA] |}))
                exampleStore exampleStore
                {| response_status := 200; response_data := JArr [companyA; companyA] |}
                eq_refl) as Hholds.
  cbv zeta beta in Hholds. destruct Hholds as (Huser & _).
  exact (Huser eq_refl).
Defined.


Lemma paths_do_not_collide_witness :
  @identifiersOf string string string string
    StringUniqueStringifier StringUniqueStringifier StringUniqueStringifier
    StringUniqueStringifier (AddEntity "Client/Account" "Company?A")
  = @identifiersOf string string string string
      StringUniqueStringifier StringUniqueStringifier StringUniqueStringifier
      StringUniqueStringifier (ContainsEntity "Client/Account" "Company?A").
Proof.
  apply (@paths_do_not_collide string string string string
           StringUniqueStringifier StringUniqueStringifier StringUniqueStringifier
           StringUniqueStringifier
           (AddEntity "Client/Account" "Company?A")
           (ContainsEntity "Client/Account" "Company?A")).
  reflexivity.
Defined.

Lemma thrown_errors_witness :
  exists requestUrl typedError,
    @AppendPathToBaseUrl plainHost exampleClient "users/alice" = Returned requestUrl
    /\ constantTransport (Rejected networkError)
         (requestOf exampleClient ViaPost requestUrl) exampleStore
       = (Rejected typedError, exampleStore)
    /\ error_status typedError = None
    /\ Rejection networkError = Rejection typedError.
Proof.
  apply (@thrown_errors plainHost upperCaseNames string string string string
           StringUniqueStringifier StringUniqueStringifier StringUniqueStringifier
           StringUniqueStringifier exampleClient (AddUser "alice")
           (constantTransport (Rejected networkError)) exampleStore
           [(requestOf exampleClient ViaPost {| href := "http://x/api/v1/users/alice" |},
             exampleStore)]
           (Error "Failed to call URL 'http://x/api/v1/users/alice' with 'POST' method.  Network Error"
                  (Some (Rejection networkError)))
           exampleStore exampleClient_constructed).
  - reflexivity.
  - reflexivity.
Defined.

Lemma different_calls_different_paths_witness :
  @pathOf string string string string
    StringUniqueStringifier StringUniqueStringifier StringUniqueStringifier
    StringUniqueStringifier (ContainsEntity "ClientAccount" EmptyString)
  <> @pathOf string string string string
       StringUniqueStringifier StringUniqueStringifier StringUniqueStringifier
       StringUniqueStringifier (GetEntities "ClientAccount").
Proof.
  apply (@different_calls_different_paths string string string string
           StringUniqueStringifier StringUniqueStringifier StringUniqueStringifier
           StringUniqueStringifier
           (ContainsEntity "ClientAccount" EmptyString) (GetEntities "ClientAccount")).
  - intros a b Hsame. exact Hsame.
  - intros a b Hsame. exact Hsame.
  - intros a b Hsame. exact Hsame.
  - intros a b Hsame. exact Hsame.
  - reflexivity.
  - discriminate.
Defined.

Lemma listed_identifiers_round_trip_witness :
  run (constantTransport
         (Resolved {| response_status := 200;
                      response_data := JArr [JStr "alice"; JStr "bob"] |}))
    exampleStore
    (@invoke plainHost upperCaseNames string string string string
       StringUniqueStringifier StringUniqueStringifier StringUniqueStringifier
       StringUniqueStringifier exampleClient GetUsers)
  = ([(requestOf exampleClient ViaGet {| href := "http://x/api/v1/users" |}, exampleStore)],
     Returned ["alice"; "bob"], exampleStore).
Proof.
  pose proof (@listed_identifiers_round_trip plainHost upperCaseNames string string string
                string StringUniqueStringifier StringUniqueStringifier
                StringUniqueStringifier StringUniqueStringifier exampleClient
                {| href := "http://x/api/v1/users" |}
                (constantTransport
                   (Resolved {| response_status := 200;
                                response_data := JArr [JStr "alice"; JStr "bob"] |}))
                exampleStore exampleStore
                {| response_status := 200;
                   response_data := JArr [JStr "alice"; JStr "bob"] |}
                ["alice"; "bob"] ["staff"]
                (fun user => eq_refl) (fun group => eq_refl) eq_refl) as Hlisted.
  cbv zeta beta in Hlisted. destruct Hlisted as (Husers & _).
  apply Husers; reflexivity.
Defined.
